(** * Dextra: the task orchestration and recovery core

    A shallow embedding of the TypeScript sources
      - [ErrorDetector.ts]       (the Error Classifier),
      - [RecoveryEngine.ts]      (the Recovery Engine),
      - [CommandRunner.ts]       (the Process Supervisor),
      - [DeploymentWorkflow.ts]  (the Deployment Workflow),
      - [PluginManager.ts]       (the Platform Adapter Registry),
      - [RecoveryService.ts] and [TaskService.ts] (the older recovery
        path: its rule table, its generic action and its error hash),
    together with the properties their specification states about them
    and further properties that the code shows.

    Conventions of the embedding.
      - A JavaScript [string] is a [string] of the Standard Library: a list
        of code units, here the code units below 256.
      - A JavaScript [number] that holds a confidence is a binary64 float
        ([PrimFloat.float]), with the operations of IEEE 754 that the
        language uses; a [number] that is parsed from a run of decimal
        digits, or that counts seconds, is an integer.
      - [Map<string, V>] is a finite map [gmap string V] where only lookup,
        insertion and deletion are used, and an association list where the
        iteration order is observable.
      - A regular expression literal is a term of [JS.regex]; [JS.exec] is
        the backtracking matcher that [String.prototype.match] runs.
      - A [Promise] is its outcome: fulfilled with a value, or rejected. *)

From Stdlib Require Import Ascii String NArith ZArith List Bool Lia Floats.
From Stdlib Require Import DecimalString.
From Stdlib Require DecimalPos DecimalN.
From Stdlib Require Import Sorted.
From stdpp Require Import base option strings gmap.
Import ListNotations.

Set Warnings "-inexact-float,-register-all".
Set Default Proof Using "Type".

Local Open Scope string_scope.
Local Open Scope list_scope.

(* ------------------------------------------------------------------ *)
(** * The fragment of the JavaScript runtime the sources rely on *)
(* ------------------------------------------------------------------ *)

Module JS.

(** ** Code units and character classes *)

Definition code (c : ascii) : N := N_of_ascii c.

Definition in_range (lo hi : N) (c : ascii) : bool :=
  ((lo <=? code c) && (code c <=? hi))%N.

(** [\d] *)
Definition isDigit (c : ascii) : bool := in_range 48 57 c.

(** [\s], and the code units [String.prototype.trim] strips: TAB, LF, VT,
    FF, CR, SPACE and NBSP. *)
Definition isSpace (c : ascii) : bool :=
  in_range 9 13 c || (code c =? 32)%N || (code c =? 160)%N.

(** [.] matches everything but a line terminator. *)
Definition isLineTerminator (c : ascii) : bool :=
  (code c =? 10)%N || (code c =? 13)%N.

Definition dot (c : ascii) : bool := negb (isLineTerminator c).

Definition LF : ascii := "010"%char.
Definition dquote : ascii := "034"%char.
Definition squote : ascii := "039"%char.

(** The class of the two quote characters, single and double. *)
Definition isQuote (c : ascii) : bool :=
  Ascii.eqb c squote || Ascii.eqb c dquote.

Definition toLowerChar (c : ascii) : ascii :=
  if in_range 65 90 c
     || (in_range 192 222 c && negb (code c =? 215)%N)
  then ascii_of_N (code c + 32) else c.

Definition toUpperChar (c : ascii) : ascii :=
  if in_range 97 122 c
     || (in_range 224 254 c && negb (code c =? 247)%N)
  then ascii_of_N (code c - 32) else c.

(** ** Strings *)

Fixpoint toLowerCase (s : string) : string :=
  match s with
  | EmptyString => EmptyString
  | String c s' => String (toLowerChar c) (toLowerCase s')
  end.

Fixpoint trimStart (s : string) : string :=
  match s with
  | EmptyString => EmptyString
  | String c s' => if isSpace c then trimStart s' else s
  end.

(** [trimEnd] keeps a character when it is not white space or when
    something is kept after it. *)
Fixpoint trimEnd (s : string) : string :=
  match s with
  | EmptyString => EmptyString
  | String c s' =>
      match trimEnd s' with
      | EmptyString => if isSpace c then EmptyString else String c EmptyString
      | r => String c r
      end
  end.

Definition trim (s : string) : string := trimEnd (trimStart s).

(** Truthiness of a string: non-empty. *)
Definition truthy (s : string) : bool :=
  match s with EmptyString => false | _ => true end.

(** [a || b] on strings. *)
Definition or_else (a b : string) : string := if truthy a then a else b.

(** [s.split(sep)] for a one-character separator: never the empty list. *)
Fixpoint split (sep : ascii) (s : string) : list string :=
  match s with
  | EmptyString => [EmptyString]
  | String c s' =>
      if Ascii.eqb c sep then EmptyString :: split sep s'
      else match split sep s' with
           | [] => [String c EmptyString]
           | w :: ws => String c w :: ws
           end
  end.

(** [s.includes(t)] *)
Fixpoint startsWith (t s : string) : bool :=
  match t, s with
  | EmptyString, _ => true
  | String a t', String b s' => Ascii.eqb a b && startsWith t' s'
  | String _ _, EmptyString => false
  end.

Fixpoint includes (s t : string) : bool :=
  startsWith t s ||
  match s with
  | EmptyString => false
  | String _ s' => includes s' t
  end.

(** [parseInt] on a run of decimal digits, as the patterns capture them:
    the number the digits denote.  The code's result is the binary64
    nearest to it, which is that number for a run that denotes less than
    2^53, as the exit codes, line numbers and compiler codes of real
    output do; for a longer run the two differ. *)
Fixpoint parseDigits (acc : N) (s : string) : N :=
  match s with
  | String c s' =>
      if isDigit c then parseDigits (acc * 10 + (code c - 48)) s' else acc
  | EmptyString => acc
  end.

Definition parseInt (s : string) : N := parseDigits 0 s.

(** ** Numbers: [Math.min], [Math.max] *)

Definition is_negzero (x : float) : bool :=
  PrimFloat.is_zero x && (PrimFloat.get_sign x).

(** [Math.min(a, b)]: NaN when an argument is NaN, and -0 below +0. *)
Definition Math_min (a b : float) : float :=
  if PrimFloat.is_nan a || PrimFloat.is_nan b then PrimFloat.nan
  else if PrimFloat.ltb b a then b
  else if PrimFloat.ltb a b then a
  else if is_negzero b then b else a.

(** [Math.max(a, b)]: NaN when an argument is NaN, and +0 above -0. *)
Definition Math_max (a b : float) : float :=
  if PrimFloat.is_nan a || PrimFloat.is_nan b then PrimFloat.nan
  else if PrimFloat.ltb a b then b
  else if PrimFloat.ltb b a then a
  else if is_negzero a then b else a.

(** ** Regular expressions

    The patterns of the sources are built from literals, character
    classes, concatenation, alternation, capture groups and the greedy
    quantifiers [*] and [+] applied to one character class. *)

Inductive regex : Type :=
| Eps
| Chr (c : ascii)
| Cls (p : ascii -> bool)
| Cat (r1 r2 : regex)
| Alt (r1 r2 : regex)
| Star (p : ascii -> bool)
| Grp (i : nat) (r : regex).

(** [p+] is [p p*]. *)
Definition Plus (p : ascii -> bool) : regex := Cat (Cls p) (Star p).

Fixpoint lit (s : string) : regex :=
  match s with
  | EmptyString => Eps
  | String c s' => Cat (Chr c) (lit s')
  end.

Fixpoint seq (rs : list regex) : regex :=
  match rs with
  | [] => Eps
  | [r] => r
  | r :: rs' => Cat r (seq rs')
  end.

(** A compiled pattern: the expression, the [i] flag and the number of
    capture groups. *)
Record RegExp : Type := mkRegExp {
  source : regex;
  ignoreCase : bool;
  groups : nat
}.

Definition re (r : regex) (n : nat) : RegExp := mkRegExp r false n.
Definition rei (r : regex) (n : nat) : RegExp := mkRegExp r true n.

(** The captures recorded so far: group, start, end; the latest first. *)
Definition captures : Type := list (nat * (nat * nat)).

Definition chr_eq (ci : bool) (a b : ascii) : bool :=
  if ci then Ascii.eqb (toUpperChar a) (toUpperChar b) else Ascii.eqb a b.

Definition cls_in (ci : bool) (p : ascii -> bool) (c : ascii) : bool :=
  if ci then p c || p (toUpperChar c) || p (toLowerChar c) else p c.

Section Matcher.
Context {R : Type}.

(** The continuation receives what is left of the input, the position
      reached and the captures. *)
Definition cont : Type := string -> nat -> captures -> option R.

(** Greedy: the longest run first, then shorter ones. *)
Fixpoint star (ci : bool) (p : ascii -> bool) (s : string) (pos : nat)
      (caps : captures) (k : cont) : option R :=
    match s with
    | String c s' =>
        if cls_in ci p c then
          match star ci p s' (S pos) caps k with
          | Some r => Some r
          | None => k s pos caps
          end
        else k s pos caps
    | EmptyString => k s pos caps
    end.

Fixpoint m (ci : bool) (r : regex) (s : string) (pos : nat)
      (caps : captures) (k : cont) : option R :=
    match r with
    | Eps => k s pos caps
    | Chr c =>
        match s with
        | String c' s' => if chr_eq ci c c' then k s' (S pos) caps else None
        | EmptyString => None
        end
    | Cls p =>
        match s with
        | String c' s' => if cls_in ci p c' then k s' (S pos) caps else None
        | EmptyString => None
        end
    | Cat r1 r2 =>
        m ci r1 s pos caps (fun s1 p1 c1 => m ci r2 s1 p1 c1 k)
    | Alt r1 r2 =>
        match m ci r1 s pos caps k with
        | Some x => Some x
        | None => m ci r2 s pos caps k
        end
    | Star p => star ci p s pos caps k
    | Grp i r1 =>
        m ci r1 s pos caps
          (fun s1 p1 c1 => k s1 p1 ((i, (pos, p1)) :: c1))
    end.
End Matcher.

(** A match anchored at the head of [s]: the end position and captures. *)
Definition matchAt (rx : RegExp) (s : string) (pos : nat)
    : option (nat * captures) :=
  m (ignoreCase rx) (source rx) s pos [] (fun _ e c => Some (e, c)).

(** The leftmost match at or after the head of [s]. *)
Fixpoint search (rx : RegExp) (s : string) (pos : nat)
    : option (nat * nat * captures) :=
  match matchAt rx s pos with
  | Some (e, c) => Some (pos, e, c)
  | None =>
      match s with
      | EmptyString => None
      | String _ s' => search rx s' (S pos)
      end
  end.

Fixpoint capture (i : nat) (caps : captures) : option (nat * nat) :=
  match caps with
  | [] => None
  | (j, se) :: caps' => if Nat.eqb i j then Some se else capture i caps'
  end.

(** The text of group [i]; every group of the patterns of the sources
    takes part in every match. *)
Definition groupText (s : string) (caps : captures) (i : nat) : string :=
  match capture i caps with
  | Some (b, e) => substring b (e - b) s
  | None => EmptyString
  end.

(** [RegExpMatchArray]: the whole match, then the groups. *)
Definition MatchArray : Type := list string.

(** [s.match(rx)] for a pattern without the [g] flag. *)
Definition exec (rx : RegExp) (s : string) : option MatchArray :=
  match search rx s 0 with
  | Some (b, e, caps) =>
      Some (substring b (e - b) s
              :: map (groupText s caps) (List.seq 1 (groups rx)))
  | None => None
  end.

(** [match[i]], where the pattern has a group [i]. *)
Definition at_ (mt : MatchArray) (i : nat) : string := nth i mt EmptyString.

(** [match[i]] inside a template literal: a group the pattern does not
    have prints as [undefined]. *)
Definition show (mt : MatchArray) (i : nat) : string :=
  match nth_error mt i with
  | Some s => s
  | None => "undefined"
  end.

(** [s.replace(rx, by_)] for a pattern with the [g] flag whose matches
    are never empty.  [skip] counts the code units of the current match
    that are still to be passed over. *)
Fixpoint replaceFrom (rx : RegExp) (by_ : string) (s : string) (skip : nat)
    : string :=
  match skip, s with
  | S n, String _ s' => replaceFrom rx by_ s' n
  | S _, EmptyString => EmptyString
  | O, EmptyString => EmptyString
  | O, String c s' =>
      match matchAt rx s 0 with
      | Some (S n, _) => by_ +:+ replaceFrom rx by_ s' n
      | _ => String c (replaceFrom rx by_ s' 0)
      end
  end.

Definition replaceAll (rx : RegExp) (by_ : string) (s : string) : string :=
  replaceFrom rx by_ s 0.

(** [rx.test(s)] for a pattern without the [g] flag. *)
Definition test (rx : RegExp) (s : string) : bool :=
  match exec rx s with
  | Some _ => true
  | None => false
  end.

(** [a || b] on optional strings: [a] unless it is [undefined] or empty. *)
Definition truthyOpt (a : option string) : bool :=
  match a with
  | Some s => truthy s
  | None => false
  end.

(** An optional string inside a template literal. *)
Definition showOpt (a : option string) : string :=
  match a with
  | Some s => s
  | None => "undefined"
  end.

End JS.

(* ------------------------------------------------------------------ *)
(** * [Map<string, V>] where the iteration order is observable *)
(* ------------------------------------------------------------------ *)

Module OrderedMap.

(** The entries in insertion order, every key once. *)
Definition t (V : Type) : Type := list (string * V).

Section Operations.
Context {V : Type}.

(** [map.set(k, v)]: a key that is present keeps its place. *)
Fixpoint set (k : string) (v : V) (mp : t V) : t V :=
  match mp with
  | [] => [(k, v)]
  | (k', v') :: mp' =>
      if String.eqb k k' then (k, v) :: mp' else (k', v') :: set k v mp'
  end.

(** [map.get(k)]; [None] is [undefined]. *)
Fixpoint get (k : string) (mp : t V) : option V :=
  match mp with
  | [] => None
  | (k', v') :: mp' => if String.eqb k k' then Some v' else get k mp'
  end.

Definition keys (mp : t V) : list string := map fst mp.
Definition values (mp : t V) : list V := map snd mp.

End Operations.

End OrderedMap.

(* ------------------------------------------------------------------ *)
(** * The Error Classifier: [ErrorDetector.ts] *)
(* ------------------------------------------------------------------ *)

Module ErrorDetector.
Import JS.

Inductive ErrorType : Type :=
| build_error | dependency_error | config_error
| auth_error | network_error | permission_error.

Inductive Severity : Type := low | medium | high | critical.

(** [ErrorSignature['context']]; [dependencies] is never assigned. *)
Record Context_ : Type := mkContext {
  framework : option string;
  nodeVersion : option string;
  platform : option string
}.

Record ErrorSignature : Type := mkErrorSignature {
  type : ErrorType;
  hash : string;
  message : string;
  file : option string;
  line : option N;
  command : string;
  exitCode : N;
  context : Context_;
  severity : Severity;
  suggestions : list string
}.

(** [Map<string, RegExp>]: iteration follows insertion order, and [set] on
    a key that is present keeps its place. *)
Definition PatternMap : Type := list (string * RegExp).

Fixpoint Map_set (k : string) (v : RegExp) (mp : PatternMap) : PatternMap :=
  match mp with
  | [] => [(k, v)]
  | (k', v') :: mp' =>
      if String.eqb k k' then (k, v) :: mp' else (k', v') :: Map_set k v mp'
  end.

Fixpoint Map_delete (k : string) (mp : PatternMap) : PatternMap :=
  match mp with
  | [] => []
  | (k', v') :: mp' =>
      if String.eqb k k' then mp' else (k', v') :: Map_delete k mp'
  end.

Definition Map_has (k : string) (mp : PatternMap) : bool :=
  existsb (fun kv => String.eqb k (fst kv)) mp.

Record ErrorDetector : Type := mkErrorDetector {
  errorPatterns : PatternMap;
  initialized : bool
}.

(** [new ErrorDetector()] *)
Definition new : ErrorDetector := mkErrorDetector [] false.

Definition notQuote (c : ascii) : bool := negb (isQuote c).
Definition notSpace (c : ascii) : bool := negb (isSpace c).
Definition notAtSpace (c : ascii) : bool :=
  negb (Ascii.eqb c "@"%char || isSpace c).
Definition notLF (c : ascii) : bool := negb (Ascii.eqb c LF).
Definition isUpperOrUnderscore (c : ascii) : bool :=
  in_range 65 90 c || Ascii.eqb c "_"%char.

(** A quote, group 1: one or more characters that are no quote, a quote. *)
Definition quoted : regex :=
  seq [Cls isQuote; Grp 1 (Plus notQuote); Cls isQuote].

Definition any : regex := Star dot.

Definition setupErrorPatterns (d : ErrorDetector) : ErrorDetector :=
  let set k v mp := Map_set k v mp in
  let p := errorPatterns d in
  (* Dependency errors *)
  let p := set "missing_dependency"
             (re (seq [lit "Cannot find module "; quoted]) 1) p in
  let p := set "missing_package"
             (re (seq [lit "Module not found: Error: Can't resolve "; quoted]) 1) p in
  let p := set "peer_dependency"
             (re (seq [lit "requires a peer of ";
                       Grp 1 (seq [Plus notAtSpace; Chr "@"; Plus notSpace])]) 1) p in
  let p := set "version_mismatch"
             (re (seq [lit "version "; Grp 1 (Plus notSpace); lit " of ";
                       Grp 2 (Plus notSpace); lit " is not compatible"]) 2) p in
  (* Build errors *)
  let p := set "typescript_error"
             (re (seq [lit "error TS"; Grp 1 (Plus isDigit); Chr ":"]) 1) p in
  let p := set "syntax_error"
             (re (seq [lit "SyntaxError: "; Grp 1 (Plus dot); lit " at line ";
                       Grp 2 (Plus isDigit)]) 2) p in
  let p := set "import_error"
             (re (seq [lit "Error: Cannot resolve module "; quoted]) 1) p in
  let p := set "build_failed" (re (lit "Build failed with errors") 0) p in
  (* Environment errors *)
  let p := set "missing_env_var"
             (re (seq [Cls isQuote; Grp 1 (Plus isUpperOrUnderscore);
                       Cls isQuote; lit " is not defined"]) 1) p in
  let p := set "env_file_missing" (re (seq [lit "ENOENT"; any; lit ".env"]) 0) p in
  let p := set "invalid_env_value"
             (re (lit "Invalid value for environment variable") 0) p in
  (* Network errors *)
  let p := set "network_timeout"
             (re (seq [lit "timeout of "; Grp 1 (Plus isDigit);
                       lit "ms exceeded"]) 1) p in
  let p := set "connection_refused" (re (lit "ECONNREFUSED") 0) p in
  let p := set "dns_error" (re (lit "ENOTFOUND") 0) p in
  let p := set "ssl_error" (re (seq [lit "SSL"; any; lit "error"]) 0) p in
  (* Permission errors *)
  let p := set "permission_denied" (re (lit "EACCES: permission denied") 0) p in
  let p := set "read_only_filesystem"
             (re (lit "EROFS: read-only file system") 0) p in
  let p := set "file_not_found"
             (re (lit "ENOENT: no such file or directory") 0) p in
  (* Authentication errors *)
  let p := set "auth_failed" (re (lit "Authentication failed") 0) p in
  let p := set "token_expired" (rei (seq [lit "token"; any; lit "expired"]) 0) p in
  let p := set "invalid_token" (rei (seq [lit "invalid"; any; lit "token"]) 0) p in
  let p := set "unauthorized"
             (rei (seq [lit "401"; any; lit "unauthorized"]) 0) p in
  (* Platform-specific errors *)
  let p := set "vercel_error" (rei (seq [lit "vercel"; any; lit "error"]) 0) p in
  let p := set "render_error" (rei (seq [lit "render"; any; lit "error"]) 0) p in
  let p := set "docker_error" (rei (seq [lit "docker"; any; lit "error"]) 0) p in
  mkErrorDetector p (initialized d).

Definition initialize (d : ErrorDetector) : ErrorDetector :=
  let d := setupErrorPatterns d in
  mkErrorDetector (errorPatterns d) true.

Definition nl : string := String LF EmptyString.

(** [/\$ ([^\n]+)/] *)
Definition commandPattern : RegExp :=
  re (seq [Chr "$"; Chr " "; Grp 1 (Plus notLF)]) 1.

Definition extractCommand (output : string) : string :=
  match exec commandPattern output with
  | Some commandMatch => at_ commandMatch 1
  | None => "unknown"
  end.

(** [/exited with code (\d+)/] *)
Definition exitPattern : RegExp :=
  re (seq [lit "exited with code "; Grp 1 (Plus isDigit)]) 1.

Definition extractExitCode (output : string) : N :=
  match exec exitPattern output with
  | Some exitMatch => parseInt (at_ exitMatch 1)
  | None => 1%N
  end.

(** [/node v(\d+\.\d+\.\d+)/] *)
Definition nodePattern : RegExp :=
  re (seq [lit "node v";
           Grp 1 (seq [Plus isDigit; Chr "."; Plus isDigit; Chr ".";
                       Plus isDigit])]) 1.

Definition extractContext (output : string) : Context_ :=
  let nodeVersion :=
    match exec nodePattern output with
    | Some nodeMatch => Some (at_ nodeMatch 1)
    | None => None
    end in
  let framework :=
    if includes output "react" then Some "react"
    else if includes output "vue" then Some "vue"
    else if includes output "angular" then Some "angular"
    else if includes output "next" then Some "next"
    else if includes output "nuxt" then Some "nuxt"
    else None in
  let platform :=
    if includes output "vercel" then Some "vercel"
    else if includes output "render" then Some "render"
    else if includes output "docker" then Some "docker"
    else if includes output "github" then Some "github"
    else None in
  mkContext framework nodeVersion platform.

(** [/at (.+):(\d+):(\d+)/] *)
Definition filePattern : RegExp :=
  re (seq [lit "at "; Grp 1 (Plus dot); Chr ":"; Grp 2 (Plus isDigit);
           Chr ":"; Grp 3 (Plus isDigit)]) 3.

(** The loop over [lines] that stops at the first line with a position. *)
Fixpoint findFileLine (lines : list string) : option string * option N :=
  match lines with
  | [] => (None, None)
  | lineText :: rest =>
      match exec filePattern lineText with
      | Some fileMatch =>
          (Some (at_ fileMatch 1), Some (parseInt (at_ fileMatch 2)))
      | None => findFileLine rest
      end
  end.

Definition digitsPattern : RegExp := re (Plus isDigit) 0.
Definition pathPattern : RegExp := re (seq [Chr "/"; Plus notSpace]) 0.
Definition atLinePattern : RegExp := re (seq [lit "at line "; Plus isDigit]) 0.

(** The text that is hashed. *)
Definition normalize (content : string) : string :=
  trim (toLowerCase
    (replaceAll atLinePattern "at line 0"
      (replaceAll pathPattern "/path"
        (replaceAll digitsPattern "0" content)))).

Definition in_list (s : string) (l : list string) : bool :=
  existsb (String.eqb s) l.

Section WithHash.

(** [crypto.createHash('sha256').update(s).digest('hex')] *)
Variable sha256_hex : string -> string.

Definition generateErrorHash (content : string) : string :=
  let normalized := normalize content in
  substring 0 16 (sha256_hex normalized).

Definition createErrorSignature (errorType : string) (match_ : MatchArray)
    (fullOutput : string) (lines : list string) : ErrorSignature :=
  let hash := generateErrorHash fullOutput in
  let message :=
    or_else (at_ match_ 0)
      (or_else (nth 0 (split LF fullOutput) EmptyString) "Unknown error") in
  let '(type, severity, suggestions) :=
    if in_list errorType ["missing_dependency"; "missing_package"] then
      (dependency_error, high,
       ["Install missing package: npm install " +:+ show match_ 1;
        "Check if package is in dependencies vs devDependencies";
        "Verify package name spelling"])
    else if String.eqb errorType "peer_dependency" then
      (dependency_error, medium,
       ["Install peer dependency: npm install " +:+ show match_ 1;
        "Check package documentation for required peer dependencies"])
    else if String.eqb errorType "version_mismatch" then
      (dependency_error, high,
       ["Update package versions to compatible ranges";
        "Use npm ls to check dependency tree";
        "Consider using npm update"])
    else if in_list errorType ["typescript_error"; "syntax_error"] then
      (build_error, high,
       ["Fix TypeScript/syntax errors in source code";
        "Check TypeScript configuration";
        "Update TypeScript version if needed"])
    else if String.eqb errorType "missing_env_var" then
      (config_error, medium,
       ["Set environment variable: " +:+ show match_ 1 +:+ "=value";
        "Create .env file with required variables";
        "Check deployment platform environment settings"])
    else if in_list errorType ["auth_failed"; "token_expired"; "invalid_token"] then
      (auth_error, critical,
       ["Refresh authentication token";
        "Re-authenticate with platform";
        "Check token permissions and scope"])
    else if in_list errorType
              ["network_timeout"; "connection_refused"; "dns_error"] then
      (network_error, medium,
       ["Check internet connection";
        "Verify API endpoints are accessible";
        "Try again after network issues resolve"])
    else if in_list errorType ["permission_denied"; "read_only_filesystem"] then
      (permission_error, high,
       ["Check file/folder permissions";
        "Run with appropriate user privileges";
        "Verify write access to target directory"])
    else
      (build_error, medium,
       ["Check error logs for more details"; "Try rebuilding the project"]) in
  let '(file, line) := findFileLine lines in
  mkErrorSignature type hash message file line
    (extractCommand fullOutput) (extractExitCode fullOutput)
    (extractContext fullOutput) severity suggestions.

Definition createGenericErrorSignature (stderr fullOutput : string)
    (lines : list string) : ErrorSignature :=
  let hash := generateErrorHash fullOutput in
  let message := or_else (nth 0 (split LF stderr) EmptyString) "Unknown error" in
  mkErrorSignature build_error hash message None None
    (extractCommand fullOutput) (extractExitCode fullOutput)
    (extractContext fullOutput) medium
    ["Check error logs for more details";
     "Verify project configuration";
     "Try rebuilding the project"].

(** The loop of [detectError] over the pattern table: the first entry, in
    iteration order, whose pattern matches. *)
Fixpoint firstMatch (patterns : PatternMap) (combinedOutput : string)
    : option (string * MatchArray) :=
  match patterns with
  | [] => None
  | (errorType, pattern) :: rest =>
      match exec pattern combinedOutput with
      | Some match_ => Some (errorType, match_)
      | None => firstMatch rest combinedOutput
      end
  end.

Definition detectError (d : ErrorDetector) (stderr stdout : string)
    : option ErrorSignature :=
  if negb (initialized d) then None
  else
    let combinedOutput := stderr +:+ nl +:+ stdout in
    let lines := split LF combinedOutput in
    match firstMatch (errorPatterns d) combinedOutput with
    | Some (errorType, match_) =>
        Some (createErrorSignature errorType match_ combinedOutput lines)
    | None =>
        (* no specific pattern matches *)
        if truthy (trim stderr)
        then Some (createGenericErrorSignature stderr combinedOutput lines)
        else None
    end.

End WithHash.

Definition addErrorPattern (name : string) (pattern : RegExp)
    (d : ErrorDetector) : ErrorDetector :=
  mkErrorDetector (Map_set name pattern (errorPatterns d)) (initialized d).

Definition removeErrorPattern (name : string) (d : ErrorDetector)
    : bool * ErrorDetector :=
  (Map_has name (errorPatterns d),
   mkErrorDetector (Map_delete name (errorPatterns d)) (initialized d)).

End ErrorDetector.

(* ------------------------------------------------------------------ *)
(** * The Recovery Engine: [RecoveryEngine.ts] *)
(* ------------------------------------------------------------------ *)

Module RecoveryEngine.
Import JS.
Import ErrorDetector(ErrorSignature, Severity, in_list).

(** The values the parameter bags of the sources hold. *)
Inductive Value : Type :=
| VStr (s : string)
| VNum (n : N)
| VBool (b : bool).

(** [Record<string, any>], as the object literal lists its properties. *)
Definition Params : Type := list (string * Value).

(** [params.key]; [None] is [undefined]. *)
Fixpoint get (key : string) (ps : Params) : option Value :=
  match ps with
  | [] => None
  | (k, v) :: ps' => if String.eqb key k then Some v else get key ps'
  end.

(** Truthiness of a property read. *)
Definition isTruthy (v : option Value) : bool :=
  match v with
  | Some (VStr s) => truthy s
  | Some (VNum n) => negb (n =? 0)%N
  | Some (VBool b) => b
  | None => false
  end.

Inductive RiskLevel : Type := low | medium | high.

Inductive RecoveryAction : Type := mkRecoveryAction {
  action : string;
  params : Params;
  confidence : float;
  description : string;
  estimatedTime : Z;  (* in seconds *)
  riskLevel : RiskLevel;
  prerequisites : option (list string);
  alternatives : option (list RecoveryAction)
}.

(** [{ ...action, confidence: c }] *)
Definition withConfidence (a : RecoveryAction) (c : float) : RecoveryAction :=
  mkRecoveryAction (action a) (params a) c (description a) (estimatedTime a)
    (riskLevel a) (prerequisites a) (alternatives a).

(** A generator that throws yields [None]. *)
Record RecoveryRule : Type := mkRecoveryRule {
  errorPattern : RegExp;
  actionGenerator : MatchArray -> ErrorSignature -> option RecoveryAction;
  priority : Z;
  enabled : bool
}.

Record RecoveryEngine : Type := mkRecoveryEngine {
  recoveryRules : list RecoveryRule;
  initialized : bool
}.

(** [new RecoveryEngine()] *)
Definition new : RecoveryEngine := mkRecoveryEngine [] false.

Definition addRecoveryRule (rule : RecoveryRule) (e : RecoveryEngine)
    : RecoveryEngine :=
  mkRecoveryEngine (recoveryRules e ++ [rule]) (initialized e).

(** The decimal numeral of a number, as a template literal prints it. *)
Definition toString (n : N) : string :=
  DecimalString.NilZero.string_of_uint (N.to_uint n).

(** ** The rule table *)

Definition missingDependencyRule : RecoveryRule :=
  mkRecoveryRule
    (re (seq [lit "Cannot find module "; ErrorDetector.quoted]) 1)
    (fun match_ context => Some
      (mkRecoveryAction "install_dependency"
         [("package", VStr (at_ match_ 1))]
         0.95%float
         ("Install missing package: " +:+ at_ match_ 1)
         30 low
         (Some ["npm"; "yarn"; "pnpm"])
         (Some [mkRecoveryAction "install_dev_dependency"
                  [("package", VStr (at_ match_ 1))]
                  0.80%float
                  ("Install as dev dependency: " +:+ at_ match_ 1)
                  30 low None None])))
    1 true.

Definition peerDependencyRule : RecoveryRule :=
  mkRecoveryRule
    (re (seq [lit "requires a peer of ";
              Grp 1 (seq [Plus ErrorDetector.notAtSpace; Chr "@";
                          Plus ErrorDetector.notSpace])]) 1)
    (fun match_ context => Some
      (mkRecoveryAction "install_peer_dependency"
         [("package", VStr (at_ match_ 1))]
         0.90%float
         ("Install peer dependency: " +:+ at_ match_ 1)
         30 low None None))
    1 true.

Definition missingEnvVarRule : RecoveryRule :=
  mkRecoveryRule
    (re (seq [Cls isQuote; Grp 1 (Plus ErrorDetector.isUpperOrUnderscore);
              Cls isQuote; lit " is not defined"]) 1)
    (fun match_ context => Some
      (mkRecoveryAction "set_env_variable"
         [("key", VStr (at_ match_ 1)); ("promptUser", VBool true);
          ("defaultValue", VStr "")]
         0.85%float
         ("Set environment variable: " +:+ at_ match_ 1)
         60 low (Some ["user_input"]) None))
    2 true.

Definition missingEnvFileRule : RecoveryRule :=
  mkRecoveryRule
    (re (seq [lit "ENOENT"; ErrorDetector.any; lit ".env"]) 0)
    (fun match_ context => Some
      (mkRecoveryAction "create_env_file"
         [("template", VStr "basic"); ("promptUser", VBool true)]
         0.80%float
         "Create .env file with required variables"
         120 low (Some ["user_input"]) None))
    2 true.

Definition buildCacheRule : RecoveryRule :=
  mkRecoveryRule
    (re (lit "Build failed with errors") 0)
    (fun match_ context => Some
      (mkRecoveryAction "clear_cache_and_retry"
         [("clearNodeModules", VBool false); ("clearBuildOutput", VBool true);
          ("clearPackageLock", VBool false)]
         0.70%float
         "Clear build cache and retry"
         60 low None
         (Some [mkRecoveryAction "clear_all_cache"
                  [("clearNodeModules", VBool true);
                   ("clearBuildOutput", VBool true);
                   ("clearPackageLock", VBool true)]
                  0.85%float
                  "Clear all cache and reinstall dependencies"
                  180 medium None None])))
    3 true.

Definition typescriptRule : RecoveryRule :=
  mkRecoveryRule
    (re (seq [lit "error TS"; Grp 1 (Plus isDigit); Chr ":"]) 1)
    (fun match_ context =>
      let tsErrorCode := parseInt (at_ match_ 1) in
      if ((2300 <=? tsErrorCode) && (tsErrorCode <? 2400))%N then
        (* Module resolution errors *)
        Some (mkRecoveryAction "fix_typescript_config"
                [("errorCode", VNum tsErrorCode);
                 ("checkModuleResolution", VBool true)]
                0.75%float
                ("Fix TypeScript configuration for error TS"
                   +:+ toString tsErrorCode)
                120 medium (Some ["typescript_config"]) None)
      else
        Some (mkRecoveryAction "fix_typescript_errors"
                [("errorCode", VNum tsErrorCode); ("autoFix", VBool false)]
                0.60%float
                ("Fix TypeScript error TS" +:+ toString tsErrorCode)
                300 medium (Some ["manual_fix"]) None))
    2 true.

Definition authTokenRule : RecoveryRule :=
  mkRecoveryRule
    (rei (Grp 1 (Alt (seq [lit "token"; ErrorDetector.any; lit "expired"])
                (Alt (seq [lit "invalid"; ErrorDetector.any; lit "token"])
                     (seq [lit "authentication"; ErrorDetector.any;
                           lit "failed"])))) 1)
    (fun match_ context => Some
      (mkRecoveryAction "refresh_auth_token"
         [("platform",
           VStr (or_else
                   (default "" (ErrorDetector.platform
                                  (ErrorDetector.context context)))
                   "unknown"));
          ("reauthRequired", VBool true)]
         0.90%float
         "Refresh authentication token"
         60 low (Some ["user_reauth"]) None))
    1 true.

Definition networkTimeoutRule : RecoveryRule :=
  mkRecoveryRule
    (re (seq [lit "timeout of "; Grp 1 (Plus isDigit); lit "ms exceeded"]) 1)
    (fun match_ context => Some
      (mkRecoveryAction "retry_with_backoff"
         [("maxRetries", VNum 3); ("backoffMultiplier", VNum 2);
          ("initialDelay", VNum 5000)]
         0.80%float
         "Retry with exponential backoff"
         30 low None None))
    3 true.

Definition permissionRule : RecoveryRule :=
  mkRecoveryRule
    (re (lit "EACCES: permission denied") 0)
    (fun match_ context => Some
      (mkRecoveryAction "fix_permissions"
         [("targetPath", VStr "auto_detect"); ("permissions", VStr "755")]
         0.85%float
         "Fix file/folder permissions"
         30 medium (Some ["admin_access"]) None))
    2 true.

Definition versionRule : RecoveryRule :=
  mkRecoveryRule
    (re (seq [lit "version "; Grp 1 (Plus ErrorDetector.notSpace); lit " of ";
              Grp 2 (Plus ErrorDetector.notSpace);
              lit " is not compatible"]) 2)
    (fun match_ context => Some
      (mkRecoveryAction "upgrade_dependency"
         [("package", VStr (at_ match_ 2)); ("targetVersion", VStr "latest");
          ("checkCompatibility", VBool true)]
         0.75%float
         ("Upgrade " +:+ at_ match_ 2 +:+ " to compatible version")
         120 medium None
         (Some [mkRecoveryAction "downgrade_dependency"
                  [("package", VStr (at_ match_ 2));
                   ("targetVersion", VStr "compatible");
                   ("checkCompatibility", VBool true)]
                  0.70%float
                  ("Downgrade " +:+ at_ match_ 2 +:+ " to compatible version")
                  120 medium None None])))
    2 true.

Definition setupRecoveryRules (e : RecoveryEngine) : RecoveryEngine :=
  fold_left (fun e rule => addRecoveryRule rule e)
    [missingDependencyRule; peerDependencyRule; missingEnvVarRule;
     missingEnvFileRule; buildCacheRule; typescriptRule; authTokenRule;
     networkTimeoutRule; permissionRule; versionRule]
    e.

Definition initialize (e : RecoveryEngine) : RecoveryEngine :=
  let e := setupRecoveryRules e in
  mkRecoveryEngine (recoveryRules e) true.

(** ** Suggesting an action *)

(** [a || b] on numbers: [a] unless it is 0 or NaN. *)
Definition num_or (a : option float) (b : float) : float :=
  match a with
  | Some x => if PrimFloat.is_zero x || PrimFloat.is_nan x then b else x
  | None => b
  end.

(** What reading a property of an object literal gives: a number the
    literal lists, or a member the object inherits from
    [Object.prototype], which is a function or, for [__proto__], the
    prototype itself. *)
Inductive Member : Type :=
| member_number (x : float)
| member_inherited.

(** The names of the members every object literal inherits. *)
Definition Object_prototype_names : list string :=
  ["constructor"; "__defineGetter__"; "__defineSetter__"; "hasOwnProperty";
   "__lookupGetter__"; "__lookupSetter__"; "isPrototypeOf";
   "propertyIsEnumerable"; "toString"; "valueOf"; "__proto__";
   "toLocaleString"].

(** The properties the literal of [checkFrameworkCompatibility] lists. *)
Definition compatibilityMap : gmap string float :=
  {[ "react" := 1.0%float; "vue" := 1.0%float; "angular" := 1.0%float;
     "next" := 1.0%float; "nuxt" := 1.0%float ]}.

(** [compatibilityMap[framework]]; [None] is [undefined]. *)
Definition compatibilityMap_get (framework : string) : option Member :=
  match compatibilityMap !! framework with
  | Some x => Some (member_number x)
  | None =>
      if ErrorDetector.in_list framework Object_prototype_names
      then Some member_inherited
      else None
  end.

(** [compatibilityMap[framework] || 0.8]: a function and an object are
    truthy. *)
Definition checkFrameworkCompatibility (framework : string)
    (packageName : option Value) : Member :=
  match compatibilityMap_get framework with
  | Some (member_number x) => member_number (num_or (Some x) 0.8%float)
  | Some member_inherited => member_inherited
  | None => member_number 0.8%float
  end.

(** A member as a factor of a product: a function and a plain object
    convert to NaN. *)
Definition toNumber (m : Member) : float :=
  match m with
  | member_number x => x
  | member_inherited => PrimFloat.nan
  end.

Definition adjustConfidence (a : RecoveryAction) (context : ErrorSignature)
    : float :=
  let confidence := confidence a in
  (* Adjust based on error severity *)
  let confidence :=
    match ErrorDetector.severity context with
    | ErrorDetector.critical => (confidence * 0.9)%float
    | ErrorDetector.high => (confidence * 1.0)%float
    | ErrorDetector.medium => (confidence * 1.1)%float
    | ErrorDetector.low => (confidence * 1.2)%float
    end in
  (* Adjust based on framework compatibility *)
  let framework :=
    default "" (ErrorDetector.framework (ErrorDetector.context context)) in
  let confidence :=
    if truthy framework && isTruthy (get "package" (params a)) then
      let frameworkCompatibility :=
        checkFrameworkCompatibility framework (get "package" (params a)) in
      (confidence * toNumber frameworkCompatibility)%float
    else confidence in
  (* Ensure confidence stays within bounds *)
  Math_max 0.1%float (Math_min 1.0%float confidence).

Definition getGenericRecoveryAction (errorSignature : ErrorSignature)
    : RecoveryAction :=
  mkRecoveryAction "generic_retry"
    [("maxRetries", VNum 2); ("delay", VNum 5000)]
    0.30%float
    "Generic retry with delay"
    30 low None
    (Some [mkRecoveryAction "manual_investigation" []
             0.50%float
             "Manual investigation required"
             600 low (Some ["user_intervention"]) None]).

(** [[...rules].sort((a, b) => b.priority - a.priority)]: a stable sort by
    descending priority. *)
Fixpoint insertRule (r : RecoveryRule) (sorted : list RecoveryRule)
    : list RecoveryRule :=
  match sorted with
  | [] => [r]
  | x :: rest =>
      if (priority r <=? priority x)%Z then x :: insertRule r rest
      else r :: sorted
  end.

Definition sortRules (rules : list RecoveryRule) : list RecoveryRule :=
  fold_left (fun sorted r => insertRule r sorted) rules [].

(** The loop of [getRecoveryAction] over the sorted rules. *)
Fixpoint firstAction (sortedRules : list RecoveryRule)
    (errorSignature : ErrorSignature) : option RecoveryAction :=
  match sortedRules with
  | [] => None
  | rule :: rest =>
      if negb (enabled rule) then firstAction rest errorSignature
      else
        match exec (errorPattern rule) (ErrorDetector.message errorSignature) with
        | Some match_ =>
            match actionGenerator rule match_ errorSignature with
            | Some a =>
                let adjustedConfidence := adjustConfidence a errorSignature in
                Some (withConfidence a adjustedConfidence)
            | None => (* caught and logged *) firstAction rest errorSignature
            end
        | None => firstAction rest errorSignature
        end
  end.

(** The value the returned promise is fulfilled with; [None] is [null]. *)
Definition getRecoveryAction (e : RecoveryEngine)
    (errorSignature : ErrorSignature) : option RecoveryAction :=
  if negb (initialized e) then None
  else
    let sortedRules := sortRules (recoveryRules e) in
    match firstAction sortedRules errorSignature with
    | Some a => Some a
    | None =>
        (* no specific rule matches *)
        Some (getGenericRecoveryAction errorSignature)
    end.

(** ** Validating an action *)

Definition checkPackageManager (manager : string) : bool := true.
Definition checkTypeScriptConfig : bool := true.
Definition checkAdminAccess : bool := true.

Definition checkPrerequisite (prerequisite : string) : bool :=
  if in_list prerequisite ["npm"; "yarn"; "pnpm"]
  then checkPackageManager prerequisite
  else if String.eqb prerequisite "typescript_config"
  then checkTypeScriptConfig
  else if String.eqb prerequisite "admin_access"
  then checkAdminAccess
  else if in_list prerequisite ["user_input"; "user_intervention"; "user_reauth"]
  then true (* These require user interaction *)
  else true.

Definition validateActionParameters (a : RecoveryAction) : bool :=
  if PrimFloat.ltb (confidence a) 0%float || PrimFloat.ltb 1%float (confidence a)
  then false
  else if (estimatedTime a <? 0)%Z then false
  else if negb (match riskLevel a with low | medium | high => true end)
  then false
  else true.

(** The loop over the prerequisites: [false] at the first one not met. *)
Fixpoint prerequisitesMet (ps : list string) : bool :=
  match ps with
  | [] => true
  | prerequisite :: rest =>
      if negb (checkPrerequisite prerequisite) then false
      else prerequisitesMet rest
  end.

Definition validateRecoveryAction (a : RecoveryAction) : bool :=
  if negb (match prerequisites a with
           | Some ps => prerequisitesMet ps
           | None => true
           end)
  then false
  else if negb (validateActionParameters a) then false
  else true.

(** ** Managing the rule table *)

Section RuleTable.

(** [pattern.source]: the text of a pattern. *)
Variable sourceText : RegExp -> string.

(** [rule => rule.errorPattern.source === pattern.source] *)
Definition sameSource (pattern : RegExp) (rule : RecoveryRule) : bool :=
  String.eqb (sourceText (errorPattern rule)) (sourceText pattern).

(** [rules.findIndex(p)]; [None] is -1. *)
Fixpoint findIndex (p : RecoveryRule -> bool) (rules : list RecoveryRule)
    : option nat :=
  match rules with
  | [] => None
  | rule :: rest =>
      if p rule then Some O
      else match findIndex p rest with
           | Some i => Some (S i)
           | None => None
           end
  end.

(** [rules.splice(index, 1)] *)
Fixpoint splice1 (index : nat) (rules : list RecoveryRule)
    : list RecoveryRule :=
  match index, rules with
  | _, [] => []
  | O, _ :: rest => rest
  | S i, rule :: rest => rule :: splice1 i rest
  end.

Definition removeRecoveryRule (pattern : RegExp) (e : RecoveryEngine)
    : bool * RecoveryEngine :=
  match findIndex (sameSource pattern) (recoveryRules e) with
  | Some index =>
      (true, mkRecoveryEngine (splice1 index (recoveryRules e)) (initialized e))
  | None => (false, e)
  end.

(** [rules.find(p)], and [rule.enabled = value] on the rule found: the
    rule is the one the table holds.  [None] when no rule is found. *)
Fixpoint setEnabled (p : RecoveryRule -> bool) (value : bool)
    (rules : list RecoveryRule) : option (list RecoveryRule) :=
  match rules with
  | [] => None
  | rule :: rest =>
      if p rule
      then Some (mkRecoveryRule (errorPattern rule) (actionGenerator rule)
                   (priority rule) value :: rest)
      else match setEnabled p value rest with
           | Some rest' => Some (rule :: rest')
           | None => None
           end
  end.

Definition enableRecoveryRule (pattern : RegExp) (e : RecoveryEngine)
    : bool * RecoveryEngine :=
  match setEnabled (sameSource pattern) true (recoveryRules e) with
  | Some rules => (true, mkRecoveryEngine rules (initialized e))
  | None => (false, e)
  end.

Definition disableRecoveryRule (pattern : RegExp) (e : RecoveryEngine)
    : bool * RecoveryEngine :=
  match setEnabled (sameSource pattern) false (recoveryRules e) with
  | Some rules => (true, mkRecoveryEngine rules (initialized e))
  | None => (false, e)
  end.

End RuleTable.

Definition getRecoveryRules (e : RecoveryEngine) : list RecoveryRule :=
  recoveryRules e.

Definition isInitialized (e : RecoveryEngine) : bool := initialized e.

End RecoveryEngine.

(* ------------------------------------------------------------------ *)
(** * The Process Supervisor: [CommandRunner.ts] *)
(* ------------------------------------------------------------------ *)

Module CommandRunner.
Import JS.

Record CommandResult : Type := mkCommandResult {
  success : bool;
  stdout : string;
  stderr : string;
  exitCode : Z;
  duration : Z
}.

Record CommandOptions : Type := mkCommandOptions {
  env : list (string * string);
  timeout : option Z;
  shell : option bool
}.

Definition noOptions : CommandOptions := mkCommandOptions [] None None.

(** A promise: pending, or settled once and for all. *)
Inductive Promise (A : Type) : Type :=
| Pending
| Fulfilled (value : A)
| Rejected (reason : string).
Arguments Pending {A}.
Arguments Fulfilled {A} value.
Arguments Rejected {A} reason.

(** [resolve] and [reject] act on a pending promise only. *)
Definition resolve {A : Type} (value : A) (p : Promise A) : Promise A :=
  match p with Pending => Fulfilled value | _ => p end.

Definition reject {A : Type} (reason : string) (p : Promise A) : Promise A :=
  match p with Pending => Rejected reason | _ => p end.

(** The events of a child process that [execute] listens to.  The code and
    the signal of [close] and [exit] are [null] when absent. *)
Inductive ChildEvent : Type :=
| stdout_data (data : string)
| stderr_data (data : string)
| close (code : option Z) (signal : option string)
| error (message : string)
| exit (code : option Z) (signal : option string).

(** What the runner emits to its own listeners. *)
Inductive Emitted : Type :=
| emit_stdout (processId command output : string) (timestamp : Z)
| emit_stderr (processId command output : string) (timestamp : Z)
| emit_completed (processId command : string) (result : CommandResult)
    (timestamp : Z)
| emit_error (processId command error : string) (result : CommandResult)
    (timestamp : Z).

(** A spawned child, as the runner sees it: what was spawned. *)
Record ChildProcess : Type := mkChildProcess {
  spawnfile : string;
  spawnargs : list string
}.

(** The runner.  [errorListeners] counts the listeners registered on the
    runner for its [error] event: an [EventEmitter] throws when [error] is
    emitted and nobody listens; [uncaught] collects what was thrown out of
    an event handler.  [signalsSent] lists the signals [kill] has sent,
    each with the identifier of the process it went to. *)
Record CommandRunner : Type := mkCommandRunner {
  activeProcesses : gmap string ChildProcess;
  processCounter : N;
  emitted : list Emitted;
  errorListeners : nat;
  uncaught : list string;
  signalsSent : list (string * string)
}.

(** [new CommandRunner()] *)
Definition new : CommandRunner := mkCommandRunner ∅ 0 [] 0 [] [].

Definition setActive (ps : gmap string ChildProcess) (r : CommandRunner)
    : CommandRunner :=
  mkCommandRunner ps (processCounter r) (emitted r) (errorListeners r)
    (uncaught r) (signalsSent r).

Definition emit (e : Emitted) (r : CommandRunner) : CommandRunner :=
  mkCommandRunner (activeProcesses r) (processCounter r) (emitted r ++ [e])
    (errorListeners r) (uncaught r) (signalsSent r).

Definition throwUncaught (what : string) (r : CommandRunner) : CommandRunner :=
  mkCommandRunner (activeProcesses r) (processCounter r) (emitted r)
    (errorListeners r) (uncaught r ++ [what]) (signalsSent r).

(** [process.kill(signal)] on a process of the registry, which has not
    closed: the signal is sent. *)
Definition kill (processId signal : string) (r : CommandRunner)
    : CommandRunner :=
  mkCommandRunner (activeProcesses r) (processCounter r) (emitted r)
    (errorListeners r) (uncaught r) (signalsSent r ++ [(processId, signal)]).

(** [runner.on('error', listener)] *)
Definition onError_ (r : CommandRunner) : CommandRunner :=
  mkCommandRunner (activeProcesses r) (processCounter r) (emitted r)
    (S (errorListeners r)) (uncaught r) (signalsSent r).

(** The variables one call of [execute] closes over. *)
Record Run : Type := mkRun {
  processId : string;
  command : string;
  args : list string;
  startTime : Z;
  stdout_ : string;
  stderr_ : string;
  promise : Promise CommandResult
}.

Definition ztoString (z : Z) : string :=
  match z with
  | Z.neg p => "-" +:+ DecimalString.NilZero.string_of_uint (Pos.to_uint p)
  | _ => DecimalString.NilZero.string_of_uint (N.to_uint (Z.to_N z))
  end.

(** The head of [execute] when [child_process.spawn] returns a child: the
    identifier, the spawn and the registration.  [now] is [Date.now()]. *)
Definition spawn (r : CommandRunner) (command : string) (args : list string)
    (now : Z) : CommandRunner * Run :=
  let counter := (processCounter r + 1)%N in
  let processId :=
    "cmd_" +:+ DecimalString.NilZero.string_of_uint (N.to_uint counter)
      +:+ "_" +:+ ztoString now in
  let childProcess := mkChildProcess command args in
  (mkCommandRunner (<[processId := childProcess]> (activeProcesses r))
     counter (emitted r) (errorListeners r) (uncaught r) (signalsSent r),
   mkRun processId command args now EmptyString EmptyString Pending).

(** [child_process.spawn] refuses the empty string for a command: it
    throws, and there is no child.  A command that cannot be found is not
    refused: it is reported later, by the [error] event of the child. *)
Definition spawnThrows (command : string) : option string :=
  if String.eqb command EmptyString
  then Some "The argument 'file' cannot be empty. Received ''"
  else None.

(** The head of [execute] when [spawn] throws: the counter has been raised
    for the identifier, and nothing is registered. *)
Definition countOnly (r : CommandRunner) : CommandRunner :=
  mkCommandRunner (activeProcesses r) (processCounter r + 1)%N (emitted r)
    (errorListeners r) (uncaught r) (signalsSent r).

(** [success: code === 0] *)
Definition isZero (code : option Z) : bool :=
  match code with
  | Some c => (c =? 0)%Z
  | None => false
  end.

(** [exitCode: code || 0] *)
Definition codeOrZero (code : option Z) : Z :=
  match code with
  | Some c => c
  | None => 0%Z
  end.

(** The handler of [close]. *)
Definition onClose (now : Z) (code : option Z) (signal : option string)
    (r : CommandRunner) (run : Run) : CommandRunner * Run :=
  let r := setActive (delete (processId run) (activeProcesses r)) r in
  let duration := (now - startTime run)%Z in
  let result :=
    mkCommandResult (isZero code) (trim (stdout_ run)) (trim (stderr_ run))
      (codeOrZero code) duration in
  let r := emit (emit_completed (processId run) (command run) result now) r in
  (r, mkRun (processId run) (command run) (args run) (startTime run)
        (stdout_ run) (stderr_ run) (resolve result (promise run))).

(** The handler of [error]. *)
Definition onError (now : Z) (message : string)
    (r : CommandRunner) (run : Run) : CommandRunner * Run :=
  let r := setActive (delete (processId run) (activeProcesses r)) r in
  let result :=
    mkCommandResult false (trim (stdout_ run))
      (trim (stderr_ run)
         +:+ (if truthy (stderr_ run) then ErrorDetector.nl else EmptyString)
         +:+ message)
      (-1) (now - startTime run)%Z in
  match errorListeners r with
  | O =>
      (* [this.emit('error', ...)] throws: the handler ends here *)
      (throwUncaught "Unhandled error." r, run)
  | S _ =>
      let r := emit (emit_error (processId run) (command run) message result now) r in
      (r, mkRun (processId run) (command run) (args run) (startTime run)
            (stdout_ run) (stderr_ run) (reject message (promise run)))
  end.

(** One event of the child, at time [now]. *)
Definition handle (now : Z) (ev : ChildEvent) (r : CommandRunner) (run : Run)
    : CommandRunner * Run :=
  match ev with
  | stdout_data output =>
      (emit (emit_stdout (processId run) (command run) output now) r,
       mkRun (processId run) (command run) (args run) (startTime run)
         (stdout_ run +:+ output) (stderr_ run) (promise run))
  | stderr_data output =>
      (emit (emit_stderr (processId run) (command run) output now) r,
       mkRun (processId run) (command run) (args run) (startTime run)
         (stdout_ run) (stderr_ run +:+ output) (promise run))
  | close code signal => onClose now code signal r run
  | error message => onError now message r run
  | exit code signal => (r, run)
  end.

(** What a child does after it was spawned: its events, each with the
    time at which it is delivered. *)
Definition Trace : Type := list (Z * ChildEvent).

Fixpoint deliver (t : Trace) (r : CommandRunner) (run : Run)
    : CommandRunner * Run :=
  match t with
  | [] => (r, run)
  | (now, ev) :: t' =>
      let '(r', run') := handle now ev r run in
      deliver t' r' run'
  end.

(** [execute(command, args, cwd, options)]: the runner afterwards, and
    the state of the returned promise.  [t] is what the child does.  When
    [spawn] throws, inside the executor of the promise, the promise is
    rejected with what was thrown; there is no child then, and [t], the
    events of none, is empty.  The timers of [options.timeout] act on the
    child only; what they cause reaches the promise as the child's
    [close]. *)
Definition execute (r : CommandRunner) (command : string) (args : list string)
    (cwd : string) (options : CommandOptions) (now : Z) (t : Trace)
    : CommandRunner * Promise CommandResult :=
  match spawnThrows command, t with
  | Some message, [] => (countOnly r, Rejected message)
  | _, _ =>
      let '(r, run) := spawn r command args now in
      let '(r, run) := deliver t r run in
      (r, promise run)
  end.

(** [executeWithStream]: the same handlers; the identifier is handed out
    at once, with the inner promise for the summary.  When [spawn] throws,
    the outer promise is rejected and no identifier is handed out. *)
Definition executeWithStream (r : CommandRunner) (command : string)
    (args : list string) (cwd : string) (options : CommandOptions) (now : Z)
    (t : Trace) : CommandRunner * Promise (string * Promise CommandResult) :=
  match spawnThrows command, t with
  | Some message, [] => (countOnly r, Rejected message)
  | _, _ =>
      let '(r, run) := spawn r command args now in
      let processId := processId run in
      let '(r, run) := deliver t r run in
      (r, Fulfilled (processId, promise run))
  end.

(** [killProcess(processId)]: the graceful signal, and the entry is
    dropped; the forceful signal five seconds later is the timers'. *)
Definition killProcess (processId : string) (r : CommandRunner)
    : bool * CommandRunner :=
  match activeProcesses r !! processId with
  | None => (false, r)
  | Some process =>
      let r := kill processId "SIGTERM" r in
      (true, setActive (delete processId (activeProcesses r)) r)
  end.

Definition isProcessActive (processId : string) (r : CommandRunner) : bool :=
  bool_decide (is_Some (activeProcesses r !! processId)).

Definition getProcessCount (r : CommandRunner) : nat :=
  size (activeProcesses r).

(** [process.killed]: [kill] has sent the process a signal.  It does not
    say that the process has ended. *)
Definition killed (processId : string) (r : CommandRunner) : bool :=
  existsb (fun sent => String.eqb (fst sent) processId) (signalsSent r).

(** The timer [killProcess] sets, five seconds later: the forceful signal
    for a process that is not [killed]. *)
Definition killProcess_timer (processId : string) (r : CommandRunner)
    : CommandRunner :=
  if negb (killed processId r) then kill processId "SIGKILL" r else r.

(** The timers of [options.timeout]: the graceful signal when the time is
    up and the process has not closed, and five seconds later the forceful
    one for a process that is not [killed]. *)
Definition timeout_timer (processId : string) (r : CommandRunner)
    : CommandRunner :=
  kill processId "SIGTERM" r.

Definition timeout_grace_timer (processId : string) (r : CommandRunner)
    : CommandRunner :=
  if negb (killed processId r) then kill processId "SIGKILL" r else r.

(** [this.activeProcesses] as a loop visits it, and as
    [getActiveProcesses()] lists it: the identifiers of the registry, each
    once, in the order in which they were registered.  The registry of
    the model holds the entries without that order, so the list is given
    from outside: [ids] lists the registry when it holds its keys, each
    once, in whatever order. *)
Definition listsRegistry (ids : list string) (r : CommandRunner) : Prop :=
  List.NoDup ids
  /\ forall id, In id ids <-> is_Some (activeProcesses r !! id).

(** [killAllProcesses()]: the graceful signal to every process of the
    registry, visited as [ids]. *)
Definition killAllProcesses (ids : list string) (r : CommandRunner)
    : CommandRunner :=
  fold_left (fun r processId => kill processId "SIGTERM" r) ids r.

(** Its timer, five seconds later, on the runner as it is then, whose
    registry is visited as [ids]: the forceful signal to every process of
    the registry that is not [killed], and the registry is cleared. *)
Definition killAllProcesses_timer (ids : list string) (r : CommandRunner)
    : CommandRunner :=
  let r :=
    fold_left
      (fun r processId =>
         if negb (killed processId r) then kill processId "SIGKILL" r else r)
      ids r in
  setActive ∅ r.

End CommandRunner.

(* ------------------------------------------------------------------ *)
(** * The record store, as the workflow uses it: [DatabaseService.ts] *)
(* ------------------------------------------------------------------ *)

Module Project.
Record t : Type := mk {
  id : string;
  name : string;
  path : string
}.
End Project.

Inductive TaskState : Type := pending | running | success | failed | cancelled.

Inductive TaskPhase : Type := detecting | installing | building | deploying.

(** A time stamp is the instant it prints, in milliseconds. *)
Module Task.
Record t : Type := mk {
  id : string;
  projectId : string;
  type : string;
  platform : string;
  status : TaskState;
  progress : Z;
  logs : string;
  error : option string;
  result : option string;
  phase : option TaskPhase;
  createdAt : Z;
  updatedAt : Z
}.

(** [Partial<Task>], as [updateTaskStatus] builds it. *)
Record updates : Type := mkUpdates {
  u_status : TaskState;
  u_updatedAt : Z;
  u_progress : option Z;
  u_error : option string;
  u_phase : option TaskPhase
}.

(** [Object.assign(task, updates)] *)
Definition assign (task : t) (u : updates) : t :=
  mk (id task) (projectId task) (type task) (platform task)
    (u_status u)
    (default (progress task) (u_progress u))
    (logs task)
    (match u_error u with Some e => Some e | None => error task end)
    (result task)
    (match u_phase u with Some p => Some p | None => phase task end)
    (createdAt task)
    (u_updatedAt u).
End Task.

Module DatabaseService.

(** The store is reachable once it is connected; a call on a store that is
    not is rejected.  Of the tables, the rows and their keys are kept, and
    of the schema that [tasks] has no column [phase]. *)
Record DatabaseService : Type := mk {
  connected : bool;
  projects : gmap string Project.t;
  tasks : gmap string Task.t
}.

Definition notInitialized : string := "Database not initialized".

(** [getProject(id)]: the row, or [null]. *)
Definition getProject (id : string) (db : DatabaseService)
    : string + option Project.t :=
  if connected db then inr (projects db !! id) else inl notInitialized.

(** What the SQL engine answers an UPDATE that names a column the table
    does not have. *)
Definition noSuchColumn (column : string) : string :=
  "SQLITE_ERROR: no such column: " +:+ column.

(** [updateTask(id, updates)]: an UPDATE of the row with that key, which
    names every field of [updates].  The table [tasks] has no column
    [phase]: an update that carries a phase is refused. *)
Definition updateTask (id : string) (u : Task.updates) (db : DatabaseService)
    : string + DatabaseService :=
  if connected db
  then match Task.u_phase u with
       | Some _ => inl (noSuchColumn "phase")
       | None =>
           inr (mk (connected db) (projects db)
                  (alter (fun task => Task.assign task u) id (tasks db)))
       end
  else inl notInitialized.

(** [getTask(id)]: the row, or [null]. *)
Definition getTask (id : string) (db : DatabaseService)
    : string + option Task.t :=
  if connected db then inr (tasks db !! id) else inl notInitialized.

(** [updateTask(id, { logs })], at time [now]. *)
Definition updateTask_logs (id logs : string) (now : Z) (db : DatabaseService)
    : string + DatabaseService :=
  if connected db
  then inr (mk (connected db) (projects db)
              (alter (fun task =>
                        Task.mk (Task.id task) (Task.projectId task)
                          (Task.type task) (Task.platform task)
                          (Task.status task) (Task.progress task) logs
                          (Task.error task) (Task.result task)
                          (Task.phase task) (Task.createdAt task) now)
                 id (tasks db)))
  else inl notInitialized.

(** [updateTask(id, { result })], at time [now]. *)
Definition updateTask_result (id result : string) (now : Z)
    (db : DatabaseService) : string + DatabaseService :=
  if connected db
  then inr (mk (connected db) (projects db)
              (alter (fun task =>
                        Task.mk (Task.id task) (Task.projectId task)
                          (Task.type task) (Task.platform task)
                          (Task.status task) (Task.progress task)
                          (Task.logs task) (Task.error task) (Some result)
                          (Task.phase task) (Task.createdAt task) now)
                 id (tasks db)))
  else inl notInitialized.

End DatabaseService.

(* ------------------------------------------------------------------ *)
(** * The platform adapters and their registry: [PluginManager.ts] *)
(* ------------------------------------------------------------------ *)

Module PluginManager.
Import JS.

Record ProjectConfig : Type := mkProjectConfig {
  type : string;
  buildCommand : option string;
  outputDir : option string;
  framework : option string;
  packageManager : option string;
  path : string
}.

Record AuthResult : Type := mkAuthResult {
  auth_success : bool;
  auth_token : option string;
  auth_error : option string
}.

Record DeployOptions : Type := mkDeployOptions {
  buildOutput : option string;
  token : option string;
  environment : option string;
  envVars : list (string * string)
}.

Record DeployResult : Type := mkDeployResult {
  deploy_success : bool;
  deployId : option string;
  deploy_url : option string;
  deploy_error : option string
}.

(** [status] is read as the string the adapter sent. *)
Record DeployStatus : Type := mkDeployStatus {
  status : string;
  url : option string;
  error : option string
}.

(** How a call of an adapter ends: its promise is fulfilled, or rejected
    with an [Error] of that message. *)
Inductive Answer (A : Type) : Type :=
| Returns (a : A)
| Rejects (message : string).
Arguments Returns {A} a.
Arguments Rejects {A} message.

(** An adapter.  What it answers belongs to the environment; [getStatus]
    is given the deployment, [None] for [undefined], and the number of
    calls that came before in the same poll. *)
Record Plugin : Type := mkPlugin {
  name : string;
  platform : string;
  detectProject : string -> Answer (option ProjectConfig);
  authenticate : Answer AuthResult;
  deploy : string -> DeployOptions -> Answer DeployResult;
  getStatus : option string -> nat -> Answer DeployStatus
}.

Record PluginManager : Type := mkPluginManager {
  plugins : OrderedMap.t Plugin
}.

(** [new PluginManager()] *)
Definition new : PluginManager := mkPluginManager [].

Definition registerPlugin (plugin : Plugin) (pm : PluginManager)
    : PluginManager :=
  mkPluginManager (OrderedMap.set (platform plugin) plugin (plugins pm)).

(** [getPlugin(platform)]; [None] is [null]. *)
Definition getPlugin (platform : string) (pm : PluginManager)
    : option Plugin :=
  OrderedMap.get platform (plugins pm).

Definition getAllPlugins (pm : PluginManager) : list Plugin :=
  OrderedMap.values (plugins pm).

Definition getSupportedPlatforms (pm : PluginManager) : list string :=
  OrderedMap.keys (plugins pm).

Record Detection : Type := mkDetection {
  d_platform : string;
  d_config : ProjectConfig;
  d_confidence : float
}.

(** The confidence [detectProjectType] gives a configuration. *)
Definition detectionConfidence (config : ProjectConfig) : float :=
  let confidence := 0.5%float in (* Base confidence *)
  let confidence :=
    if truthyOpt (framework config) then (confidence + 0.2)%float
    else confidence in
  let confidence :=
    if truthyOpt (buildCommand config) then (confidence + 0.1)%float
    else confidence in
  let confidence :=
    if truthyOpt (outputDir config) then (confidence + 0.1)%float
    else confidence in
  let confidence :=
    if truthyOpt (packageManager config) then (confidence + 0.1)%float
    else confidence in
  Math_min confidence 1.0%float.

(** The loop over the adapters: one that rejects, or detects nothing, adds
    no result. *)
Fixpoint detectAll (projectPath : string) (ps : OrderedMap.t Plugin)
    : list Detection :=
  match ps with
  | [] => []
  | (platform, plugin) :: rest =>
      match detectProject plugin projectPath with
      | Returns (Some config) =>
          mkDetection platform config (detectionConfidence config)
            :: detectAll projectPath rest
      | Returns None => detectAll projectPath rest
      | Rejects _ => detectAll projectPath rest
      end
  end.

(** [results.sort((a, b) => b.confidence - a.confidence)]: a stable sort
    by descending confidence. *)
Fixpoint insertDetection (r : Detection) (sorted : list Detection)
    : list Detection :=
  match sorted with
  | [] => [r]
  | x :: rest =>
      if PrimFloat.ltb (d_confidence x) (d_confidence r) then r :: sorted
      else x :: insertDetection r rest
  end.

Definition sortDetections (results : list Detection) : list Detection :=
  fold_left (fun sorted r => insertDetection r sorted) results [].

Definition detectProjectType (projectPath : string) (pm : PluginManager)
    : list Detection :=
  sortDetections (detectAll projectPath (plugins pm)).

Record Validation : Type := mkValidation {
  valid : bool;
  issues : list string;
  suggestions : list string
}.

Definition validateProject (projectPath platform : string)
    (pm : PluginManager) : Validation :=
  match getPlugin platform pm with
  | None =>
      mkValidation false ["Platform " +:+ platform +:+ " not supported"] []
  | Some plugin =>
      match detectProject plugin projectPath with
      | Returns None =>
          mkValidation false ["Project not compatible with this platform"] []
      | Returns (Some config) =>
          (* Validate build command *)
          let '(issues, suggestions) :=
            if negb (truthyOpt (buildCommand config))
            then (["No build command detected"],
                  ["Add a build script to package.json or create a build configuration"])
            else ([], []) in
          (* Validate output directory *)
          let '(issues, suggestions) :=
            if negb (truthyOpt (outputDir config))
            then (issues ++ ["No output directory detected"],
                  suggestions
                    ++ ["Specify an output directory in your build configuration"])
            else (issues, suggestions) in
          (* Platform-specific validations *)
          let suggestions :=
            if String.eqb platform "vercel" then
              if String.eqb (type config) "node"
                 && negb (truthyOpt (framework config))
              then suggestions
                     ++ ["Consider using a framework like Next.js or React for better Vercel integration"]
              else suggestions
            else if String.eqb platform "render" then
              if String.eqb (type config) "static"
              then suggestions
                     ++ ["Render works best with full-stack applications"]
              else suggestions
            else suggestions in
          mkValidation (Nat.eqb (length issues) 0) issues suggestions
      | Rejects message =>
          mkValidation false
            ["Failed to validate project: Error: " +:+ message] []
      end
  end.

End PluginManager.

(* ------------------------------------------------------------------ *)
(** * The Deployment Workflow: [DeploymentWorkflow.ts] *)
(* ------------------------------------------------------------------ *)

Module DeploymentWorkflow.
Import JS.
Import ErrorDetector(ErrorSignature).
Import RecoveryEngine(RecoveryAction, Value, VStr, VNum, VBool).
Import CommandRunner(CommandResult, Promise, Pending, Fulfilled, Rejected, Trace).

Record DeploymentOptions : Type := mkDeploymentOptions {
  projectId : string;
  platform : string;
  environment : option string;
  envVars : list (string * string);
  buildCommand : option string;
  outputDir : option string
}.

(** The lifecycle events the workflow emits, with their payloads. *)
Inductive Event : Type :=
| task_created (taskId : string) (task : Task.t)
| task_phase (taskId : string) (phase : TaskPhase)
| task_log (taskId : string) (message : string)
| task_status (taskId : string) (status : TaskState) (progress : option Z)
    (phase : option TaskPhase)
| task_failed (taskId : string) (error : string)
| task_recovery (taskId : string) (errorSignature : ErrorSignature)
    (recoveryAction : RecoveryAction)
| task_cancelled (taskId : string).

(** The workflow with its collaborators.  [clock] is the current time and
    [children] is how the processes that are spawned next will behave, in
    the order of the calls of [spawn], the entry of a call that throws
    being empty: both belong to the environment. *)
Record DeploymentWorkflow : Type := mk {
  database : DatabaseService.DatabaseService;
  commandRunner : CommandRunner.CommandRunner;
  errorDetector : ErrorDetector.ErrorDetector;
  recoveryEngine : RecoveryEngine.RecoveryEngine;
  activeTasks : gmap string Task.t;
  events : list Event;
  clock : Z;
  children : list Trace
}.

(** How an asynchronous method ends: it returns, it throws (its promise is
    rejected), or it waits for a promise that is never settled.  [OutOfFuel]
    is the model's own: the bound on the unfolding of a recursion was
    reached. *)
Inductive Outcome (A : Type) : Type :=
| Done (a : A)
| Throw (message : string)
| Hang
| OutOfFuel.
Arguments Done {A} a.
Arguments Throw {A} message.
Arguments Hang {A}.
Arguments OutOfFuel {A}.

Definition M (A : Type) : Type :=
  DeploymentWorkflow -> Outcome A * DeploymentWorkflow.

Definition ret {A : Type} (a : A) : M A := fun w => (Done a, w).

Definition throw {A : Type} (message : string) : M A :=
  fun w => (Throw message, w).

Definition bind {A B : Type} (c : M A) (k : A -> M B) : M B :=
  fun w =>
    match c w with
    | (Done a, w') => k a w'
    | (Throw e, w') => (Throw e, w')
    | (Hang, w') => (Hang, w')
    | (OutOfFuel, w') => (OutOfFuel, w')
    end.

Declare Scope wf_scope.
Delimit Scope wf_scope with wf.
Notation "x <- c ;; k" := (bind c (fun x => k))
  (at level 100, c at next level, right associativity) : wf_scope.
Notation "c ;;; k" := (bind c (fun _ => k))
  (at level 100, right associativity) : wf_scope.
Local Open Scope wf_scope.

(** [this.emit(...)] *)
Definition emit (e : Event) : M unit :=
  fun w =>
    (Done tt,
     mk (database w) (commandRunner w) (errorDetector w) (recoveryEngine w)
       (activeTasks w) (events w ++ [e]) (clock w) (children w)).

Definition setActiveTasks (ts : gmap string Task.t) : M unit :=
  fun w =>
    (Done tt,
     mk (database w) (commandRunner w) (errorDetector w) (recoveryEngine w)
       ts (events w) (clock w) (children w)).

Definition typeError : string :=
  "TypeError: Cannot read properties of undefined".

(** [this.activeTasks.get(taskId)!], read at once: a property of
    [undefined] cannot be read. *)
Definition getActive (taskId : string) : M Task.t :=
  fun w =>
    match activeTasks w !! taskId with
    | Some task => (Done task, w)
    | None => (Throw typeError, w)
    end.

(** [await this.database.getProject(id)] *)
Definition getProject (id : string) : M (option Project.t) :=
  fun w =>
    match DatabaseService.getProject id (database w) with
    | inr p => (Done p, w)
    | inl e => (Throw e, w)
    end.

(** [await this.database.updateTask(id, updates)] *)
Definition updateTask (id : string) (u : Task.updates) : M unit :=
  fun w =>
    match DatabaseService.updateTask id u (database w) with
    | inr db =>
        (Done tt,
         mk db (commandRunner w) (errorDetector w) (recoveryEngine w)
           (activeTasks w) (events w) (clock w) (children w))
    | inl e => (Throw e, w)
    end.

Fixpoint lastTime (t : Trace) (now : Z) : Z :=
  match t with
  | [] => now
  | (at_, _) :: t' => lastTime t' at_
  end.

(** [await this.commandRunner.execute(command, args, cwd, options)]: the
    next child of the environment is spawned and runs. *)
Definition execute (command : string) (args : list string) (cwd : string)
    (options : CommandRunner.CommandOptions) : M CommandResult :=
  fun w =>
    let t := hd [] (children w) in
    let '(runner, p) :=
      CommandRunner.execute (commandRunner w) command args cwd options
        (clock w) t in
    let w' :=
      mk (database w) runner (errorDetector w) (recoveryEngine w)
        (activeTasks w) (events w) (lastTime t (clock w)) (tl (children w)) in
    match p with
    | Fulfilled result => (Done result, w')
    | Rejected e => (Throw e, w')
    | Pending => (Hang, w')
    end.

Definition updateTaskStatus (taskId : string) (status : TaskState)
    (progress : option Z) (error : option string) (phase : option TaskPhase)
    : M unit :=
  fun w =>
    let updates :=
      Task.mkUpdates status (clock w) progress
        (match error with
         | Some e => if truthy e then Some e else None
         | None => None
         end)
        phase in
    (updateTask taskId updates ;;;
     setActiveTasks (alter (fun task => Task.assign task updates) taskId
                       (activeTasks w)) ;;;
     emit (task_status taskId status progress phase)) w.

(** A value as a template literal prints it. *)
Definition valueToString (v : option Value) : string :=
  match v with
  | Some (VStr s) => s
  | Some (VNum n) => RecoveryEngine.toString n
  | Some (VBool true) => "true"
  | Some (VBool false) => "false"
  | None => "undefined"
  end.

(** An argument of [spawn] has to be a string. *)
Definition spawnArg (v : option Value) : M string :=
  match v with
  | Some (VStr s) => ret s
  | _ => throw "TypeError [ERR_INVALID_ARG_TYPE]"
  end.

Definition executeRecoveryAction (taskId : string) (a : RecoveryAction)
    : M unit :=
  task <- getActive taskId ;;
  project <- getProject (Task.projectId task) ;;
  match project with
  | None => throw "Project not found"
  | Some project =>
      let name := RecoveryEngine.action a in
      let package := RecoveryEngine.get "package" (RecoveryEngine.params a) in
      if String.eqb name "install_dependency" then
        emit (task_log taskId
                ("Installing missing dependency: " +:+ valueToString package)) ;;;
        arg <- spawnArg package ;;
        _ <- execute "npm" ["install"; arg] (Project.path project)
               CommandRunner.noOptions ;;
        ret tt
      else if String.eqb name "clear_cache" then
        emit (task_log taskId "Clearing build cache...") ;;;
        _ <- execute "npm" ["run"; "clean"] (Project.path project)
               CommandRunner.noOptions ;;
        ret tt
      else if String.eqb name "retry_with_clean" then
        emit (task_log taskId "Cleaning and retrying...") ;;;
        _ <- execute "rm" ["-rf"; "node_modules"; "dist"; "build"]
               (Project.path project) CommandRunner.noOptions ;;
        ret tt
      else
        (* Unknown recovery action: a warning is logged *)
        ret tt
  end.

(** [task.logs] read as the metadata of the detecting phase. *)
Record Metadata : Type := mkMetadata {
  md_buildCommand : option string;
  md_outputDir : option string
}.

Section Workflow.

(** [crypto]'s SHA-256 in hexadecimal, and [JSON.parse] read as metadata,
    [None] when it throws. *)
Variable sha256_hex : string -> string.
Variable JSON_parse : string -> option Metadata.

(** [JSON.parse(task.logs || '{}')] *)
Definition parseMetadata (logs : string) : M Metadata :=
  let text := or_else logs "{}" in
  if String.eqb text "{}" then ret (mkMetadata None None)
  else match JSON_parse text with
       | Some md => ret md
       | None => throw "SyntaxError: Unexpected token in JSON"
       end.

(** [this.errorDetector.detectError(stderr, stdout)] *)
Definition detectError (stderr stdout : string) : M (option ErrorSignature) :=
  fun w =>
    (Done (ErrorDetector.detectError sha256_hex (errorDetector w) stderr stdout),
     w).

(** [await this.recoveryEngine.getRecoveryAction(errorSignature)] *)
Definition getRecoveryAction (errorSignature : ErrorSignature)
    : M (option RecoveryAction) :=
  fun w =>
    (Done (RecoveryEngine.getRecoveryAction (recoveryEngine w) errorSignature),
     w).

(** The command of the building phase. *)
Definition buildCommandOf (options : DeploymentOptions) (metadata : Metadata)
    : string :=
  or_else (default "" (buildCommand options))
    (or_else (default "" (md_buildCommand metadata)) "npm run build").

Definition buildEnv (options : DeploymentOptions)
    : CommandRunner.CommandOptions :=
  CommandRunner.mkCommandOptions
    (("NODE_ENV", "production") :: envVars options) None None.

(** [buildProject(taskId, options)]; [fuel] bounds the number of times the
    method is entered. *)
Fixpoint buildProject (fuel : nat) (taskId : string)
    (options : DeploymentOptions) : M unit :=
  match fuel with
  | O => fun w => (OutOfFuel, w)
  | S fuel' =>
      project <- getProject (projectId options) ;;
      match project with
      | None => throw "Project not found"
      | Some project =>
          task <- getActive taskId ;;
          metadata <- parseMetadata (Task.logs task) ;;
          let buildCommand := buildCommandOf options metadata in
          emit (task_log taskId ("Building project: " +:+ buildCommand)) ;;;
          result <- execute (nth 0 (split " " buildCommand) EmptyString)
                      (tl (split " " buildCommand))
                      (Project.path project) (buildEnv options) ;;
          if negb (CommandRunner.success result) then
            let failed : M unit :=
              throw ("Build failed: " +:+ CommandRunner.stderr result) in
            (* Detect error and attempt recovery *)
            errorSignature <- detectError (CommandRunner.stderr result)
                                (CommandRunner.stdout result) ;;
            match errorSignature with
            | Some errorSignature =>
                recoveryAction <- getRecoveryAction errorSignature ;;
                match recoveryAction with
                | Some recoveryAction =>
                    if PrimFloat.ltb 0.7%float
                         (RecoveryEngine.confidence recoveryAction)
                    then
                      emit (task_recovery taskId errorSignature recoveryAction) ;;;
                      (* auto-apply high-confidence fixes *)
                      if PrimFloat.ltb 0.9%float
                           (RecoveryEngine.confidence recoveryAction)
                      then
                        executeRecoveryAction taskId recoveryAction ;;;
                        (* Retry build *)
                        buildProject fuel' taskId options
                      else failed
                    else failed
                | None => failed
                end
            | None => failed
            end
          else
            updateTaskStatus taskId running (Some 60%Z) None None ;;;
            emit (task_log taskId "Build completed successfully")
      end
  end.

End Workflow.

(** [cancelTask(taskId)] *)
Definition cancelTask (taskId : string) : M bool :=
  fun w =>
    match activeTasks w !! taskId with
    | None => (Done false, w)
    | Some task =>
        (updateTaskStatus taskId cancelled None None None ;;;
         (fun w' => setActiveTasks (delete taskId (activeTasks w')) w') ;;;
         emit (task_cancelled taskId) ;;;
         ret true) w
    end.

(** The [finally] of [executeDeployment]: the run is over. *)
Definition executeDeployment_finally (taskId : string) : M unit :=
  fun w => setActiveTasks (delete taskId (activeTasks w)) w.

(** The head of [executeDeployment]: the task record is entered in
    [activeTasks] and announced. *)
Definition registerTask (taskId : string) (options : DeploymentOptions)
    : M Task.t :=
  fun w =>
    let task :=
      Task.mk taskId (projectId options) "deploy" (platform options) pending 0
        EmptyString None None None (clock w) (clock w) in
    (setActiveTasks (<[taskId := task]> (activeTasks w)) ;;;
     emit (task_created taskId task) ;;;
     ret task) w.

(** ** The other phases *)

(** [await new Promise(resolve => setTimeout(resolve, ms))] *)
Definition sleep (ms : Z) : M unit :=
  fun w =>
    (Done tt,
     mk (database w) (commandRunner w) (errorDetector w) (recoveryEngine w)
       (activeTasks w) (events w) (clock w + ms)%Z (children w)).

(** [try { c } catch (error) { handler(error.message) }] *)
Definition tryCatch {A : Type} (c : M A) (handler : string -> M A) : M A :=
  fun w =>
    match c w with
    | (Throw e, w') => handler e w'
    | other => other
    end.

(** Awaiting what an adapter answers. *)
Definition await {A : Type} (a : PluginManager.Answer A) : M A :=
  match a with
  | PluginManager.Returns x => ret x
  | PluginManager.Rejects e => throw e
  end.

(** [await this.database.getTask(id)] *)
Definition getTask (id : string) : M (option Task.t) :=
  fun w =>
    match DatabaseService.getTask id (database w) with
    | inr task => (Done task, w)
    | inl e => (Throw e, w)
    end.

(** [await this.database.updateTask(id, { logs })] *)
Definition updateTask_logs (id logs : string) : M unit :=
  fun w =>
    match DatabaseService.updateTask_logs id logs (clock w) (database w) with
    | inr db =>
        (Done tt,
         mk db (commandRunner w) (errorDetector w) (recoveryEngine w)
           (activeTasks w) (events w) (clock w) (children w))
    | inl e => (Throw e, w)
    end.

(** [await this.database.updateTask(id, { result })] *)
Definition updateTask_result (id result : string) : M unit :=
  fun w =>
    match DatabaseService.updateTask_result id result (clock w) (database w) with
    | inr db =>
        (Done tt,
         mk db (commandRunner w) (errorDetector w) (recoveryEngine w)
           (activeTasks w) (events w) (clock w) (children w))
    | inl e => (Throw e, w)
    end.

(** [a || b] on optional strings. *)
Definition orOpt (a b : option string) : option string :=
  if truthyOpt a then a else b.


Definition maxAttempts : nat := 30. (* 5 minutes with 10-second intervals *)

Section Phases.

(** The collaborators of the phases: the hash of the classifier, the
    registry of adapters, and [JSON]: [stringify] for the two records the
    workflow stores, [parse] for the metadata, with
    [parsePackageManager text] for
    [JSON.parse(text).projectConfig?.packageManager], [inl] when that
    throws. *)
Variable sha256_hex : string -> string.
Variable pluginManager : PluginManager.PluginManager.
Variable JSON_parse : string -> option Metadata.
Variable parsePackageManager : string -> string + option string.
Variable stringifyMetadata :
  PluginManager.ProjectConfig -> option string -> option string -> string.
Variable stringifyResult : option string -> option string -> string -> string.

Definition detectProject (taskId : string) (options : DeploymentOptions)
    : M unit :=
  project <- getProject (projectId options) ;;
  match project with
  | None => throw "Project not found"
  | Some project =>
      match PluginManager.getPlugin (platform options) pluginManager with
      | None =>
          throw ("Plugin not found for platform: " +:+ platform options)
      | Some plugin =>
          projectConfig <-
            await (PluginManager.detectProject plugin (Project.path project)) ;;
          match projectConfig with
          | None => throw "Failed to detect project configuration"
          | Some projectConfig =>
              (* Update task with detected configuration *)
              updateTaskStatus taskId running (Some 10%Z) None None ;;;
              emit (task_log taskId
                      ("Detected "
                         +:+ showOpt (PluginManager.framework projectConfig)
                         +:+ " project")) ;;;
              (* Store project config in task metadata *)
              updateTask_logs taskId
                (stringifyMetadata projectConfig
                   (orOpt (buildCommand options)
                      (PluginManager.buildCommand projectConfig))
                   (orOpt (outputDir options)
                      (PluginManager.outputDir projectConfig)))
          end
      end
  end.



(** The loop of [pollDeploymentStatus] and what follows it; [fuel] bounds
    the number of times the loop condition is tested. *)
Fixpoint pollLoop (fuel : nat) (attempts : nat) (taskId : string)
    (plugin : PluginManager.Plugin) (deployId : option string) : M unit :=
  match fuel with
  | O => fun w => (OutOfFuel, w)
  | S fuel' =>
      if (attempts <? maxAttempts)%nat then
        status <- await (PluginManager.getStatus plugin deployId attempts) ;;
        let s := PluginManager.status status in
        if String.eqb s "ready" || String.eqb s "live" then
          (* Update task with final result *)
          updateTask_result taskId
            (stringifyResult deployId (PluginManager.url status) s) ;;;
          emit (task_log taskId
                  ("Deployment successful: "
                     +:+ showOpt (PluginManager.url status)))
          (* break: [attempts] is below [maxAttempts] *)
        else if String.eqb s "error" || String.eqb s "failed" then
          throw ("Deployment failed: "
                   +:+ or_else (default "" (PluginManager.error status))
                         "Unknown error")
        else
          emit (task_log taskId ("Deployment status: " +:+ s)) ;;;
          (* Wait 10 seconds before next check *)
          sleep 10000 ;;;
          pollLoop fuel' (S attempts) taskId plugin deployId
      else
        (* [attempts >= maxAttempts] *)
        throw "Deployment timeout - status check exceeded maximum attempts"
  end.

Definition pollDeploymentStatus (taskId : string)
    (plugin : PluginManager.Plugin) (deployId : option string) : M unit :=
  pollLoop (S maxAttempts) 0 taskId plugin deployId.

Definition deployProject (taskId : string) (options : DeploymentOptions)
    : M unit :=
  project <- getProject (projectId options) ;;
  match project with
  | None => throw "Project not found"
  | Some project =>
      task <- getActive taskId ;;
      metadata <- parseMetadata JSON_parse (Task.logs task) ;;
      match PluginManager.getPlugin (platform options) pluginManager with
      | None => throw typeError
      | Some plugin =>
          (* Authenticate with platform *)
          authResult <- await (PluginManager.authenticate plugin) ;;
          if negb (PluginManager.auth_success authResult) then
            throw ("Authentication failed: "
                     +:+ showOpt (PluginManager.auth_error authResult))
          else
            emit (task_log taskId
                    ("Deploying to " +:+ platform options +:+ "...")) ;;;
            (* Deploy to platform *)
            deployResult <-
              await (PluginManager.deploy plugin (Project.path project)
                       (PluginManager.mkDeployOptions
                          (md_outputDir metadata)
                          (Some (or_else
                                   (default ""
                                      (PluginManager.auth_token authResult))
                                   ""))
                          (Some (or_else (default "" (environment options))
                                   "production"))
                          (envVars options))) ;;
            if negb (PluginManager.deploy_success deployResult) then
              throw ("Deployment failed: "
                       +:+ showOpt (PluginManager.deploy_error deployResult))
            else
              updateTaskStatus taskId running (Some 80%Z) None None ;;;
              emit (task_log taskId
                      ("Deployment created: "
                         +:+ showOpt (PluginManager.deployId deployResult))) ;;;
              (* Poll for deployment completion *)
              pollDeploymentStatus taskId plugin
                (PluginManager.deployId deployResult)
      end
  end.

(** [attemptRecovery(taskId, error)], for an [error] of that message. *)
Definition attemptRecovery (taskId : string) (message : string) : M unit :=
  tryCatch
    (errorSignature <- detectError sha256_hex message EmptyString ;;
     match errorSignature with
     | None => ret tt
     | Some errorSignature =>
         recoveryAction <- getRecoveryAction errorSignature ;;
         match recoveryAction with
         | None => ret tt
         | Some recoveryAction =>
             if PrimFloat.ltb (RecoveryEngine.confidence recoveryAction)
                  0.5%float
             then ret tt
             else
               emit (task_recovery taskId errorSignature recoveryAction)
               (* the suggested recovery is logged *)
         end
     end)
    (fun recoveryError => ret tt).

(** [executePhase(taskId, phase, phaseFunction)] *)
Definition executePhase (taskId : string) (phase : TaskPhase)
    (phaseFunction : M unit) : M unit :=
  tryCatch
    (updateTaskStatus taskId running None None (Some phase) ;;;
     emit (task_phase taskId phase) ;;;
     phaseFunction)
    (fun error => throw error).

End Phases.

(** [getTaskStatus(taskId)]: the active run first, then the record store. *)
Definition getTaskStatus (taskId : string) : M (option Task.t) :=
  fun w =>
    match activeTasks w !! taskId with
    | Some task => (Done (Some task), w)
    | None => getTask taskId w
    end.

End DeploymentWorkflow.

(* ------------------------------------------------------------------ *)
(** * The rule-based recovery of the task service: [RecoveryService.ts] *)
(* ------------------------------------------------------------------ *)

Module RecoveryService.
Import JS.
Import RecoveryEngine(Value, VStr, VNum, VBool, Params).
Import DeploymentWorkflow(Outcome, Done, Throw, Hang).

Record ErrorSignature : Type := mkErrorSignature {
  type : string;
  hash : string;
  message : string;
  lines : list string;
  context : Params
}.

Inductive RecoveryAction : Type := mkRecoveryAction {
  action : string;
  params : Params;
  expectedEffect : string;
  confidence : float;
  fallback : option (list RecoveryAction)
}.

Record RecoveryRule : Type := mkRecoveryRule {
  patterns : list RegExp;
  actions : list RecoveryAction
}.

(** [rlModel] is [null] until a model is loaded: here, whether it is set. *)
Record RecoveryService : Type := mkRecoveryService {
  recoveryRules : OrderedMap.t RecoveryRule;
  rlModel : bool
}.

Definition plain (text : string) : RegExp := re (lit text) 0.

Definition initializeRecoveryRules (s : RecoveryService) : RecoveryService :=
  let set := @OrderedMap.set RecoveryRule in
  let rules := recoveryRules s in
  (* Build errors *)
  let rules :=
    set "build_error"
      (mkRecoveryRule
         [plain "Module not found: Can't resolve";
          plain "Cannot find module";
          plain "Package not found";
          plain "Dependency not found"]
         [mkRecoveryAction "install_dependencies"
            [("command", VStr "npm install")]
            "Install missing dependencies" 0.8%float None;
          mkRecoveryAction "clear_cache"
            [("command", VStr "npm cache clean --force")]
            "Clear npm cache" 0.6%float None])
      rules in
  (* Network errors *)
  let rules :=
    set "network_error"
      (mkRecoveryRule
         [plain "ECONNREFUSED";
          plain "ETIMEDOUT";
          plain "Network error";
          plain "Connection refused"]
         [mkRecoveryAction "retry_with_backoff"
            [("maxRetries", VNum 3); ("backoffMs", VNum 1000)]
            "Retry with exponential backoff" 0.7%float None;
          mkRecoveryAction "check_network" []
            "Verify network connectivity" 0.5%float None])
      rules in
  (* Authentication errors *)
  let rules :=
    set "auth_error"
      (mkRecoveryRule
         [plain "Unauthorized";
          plain "Invalid token";
          plain "Authentication failed";
          plain "Token expired"]
         [mkRecoveryAction "refresh_token" []
            "Refresh authentication token" 0.9%float None;
          mkRecoveryAction "reauthenticate" []
            "Re-authenticate with platform" 0.8%float None])
      rules in
  (* Build timeout errors *)
  let rules :=
    set "timeout_error"
      (mkRecoveryRule
         [plain "Build timeout";
          plain "Process timeout";
          plain "Execution timeout"]
         [mkRecoveryAction "increase_timeout"
            [("timeoutMs", VNum 300000)] (* 5 minutes *)
            "Increase build timeout" 0.7%float None;
          mkRecoveryAction "optimize_build"
            [("parallel", VBool true); ("cache", VBool true)]
            "Optimize build process" 0.6%float None])
      rules in
  (* Memory errors *)
  let rules :=
    set "memory_error"
      (mkRecoveryRule
         [plain "Out of memory";
          plain "Memory limit exceeded";
          plain "Heap out of memory"]
         [mkRecoveryAction "increase_memory"
            [("memoryLimit", VStr "2g")]
            "Increase memory limit" 0.8%float None;
          mkRecoveryAction "optimize_memory"
            [("parallel", VBool false); ("cache", VBool false)]
            "Optimize memory usage" 0.6%float None])
      rules in
  mkRecoveryService rules (rlModel s).

(** [new RecoveryService()] *)
Definition new : RecoveryService :=
  initializeRecoveryRules (mkRecoveryService [] false).

(** [initialize()]: the rules are set once more; no model is loaded. *)
Definition initialize (s : RecoveryService) : RecoveryService :=
  initializeRecoveryRules s.

(** [actions.reduce((best, current) =>
       current.confidence > best.confidence ? current : best)]: [None] when
    it throws, on an empty array. *)
Definition bestOf (actions : list RecoveryAction) : option RecoveryAction :=
  match actions with
  | [] => None
  | first :: rest =>
      Some (fold_left
              (fun best current =>
                 if PrimFloat.ltb (confidence best) (confidence current)
                 then current else best)
              rest first)
  end.

(** The two loops of [getRuleBasedRecovery], over the rules and over the
    patterns of a rule; [inl] is what is thrown. *)
Fixpoint ruleLoop (rules : OrderedMap.t RecoveryRule) (message : string)
    : string + option RecoveryAction :=
  match rules with
  | [] => inr None
  | (ruleName, rule) :: rest =>
      if existsb (fun pattern => test pattern message) (patterns rule) then
        (* Return the highest confidence action *)
        match bestOf (actions rule) with
        | Some bestAction =>
            inr (Some (mkRecoveryAction
                         (ruleName +:+ "_" +:+ action bestAction)
                         (params bestAction) (expectedEffect bestAction)
                         (confidence bestAction) (fallback bestAction)))
        | None =>
            inl "TypeError: Reduce of empty array with no initial value"
        end
      else ruleLoop rest message
  end.

Definition getRuleBasedRecovery (s : RecoveryService)
    (errorSignature : ErrorSignature) : string + option RecoveryAction :=
  let message := toLowerCase (message errorSignature) in
  ruleLoop (recoveryRules s) message.

Definition getRLRecovery (s : RecoveryService)
    (errorSignature : ErrorSignature) : option RecoveryAction :=
  if negb (rlModel s) then None else None.

Definition getGenericRecovery (errorSignature : ErrorSignature)
    : RecoveryAction :=
  mkRecoveryAction "retry_clean"
    [("cleanCache", VBool true); ("cleanDependencies", VBool false);
     ("maxRetries", VNum 2)]
    "Clean retry with cache clearing" 0.3%float None.

(** [recover(errorSignature)]; [None] is [null]. *)
Definition recover (s : RecoveryService) (errorSignature : ErrorSignature)
    : option RecoveryAction :=
  match getRuleBasedRecovery s errorSignature with
  | inl _ => (* caught and logged *) None
  | inr (Some ruleBasedAction) => Some ruleBasedAction
  | inr None =>
      (* Try RL-based recovery if model is available *)
      match (if rlModel s then getRLRecovery s errorSignature else None) with
      | Some rlAction => Some rlAction
      | None =>
          (* Fallback to generic recovery *)
          Some (getGenericRecovery errorSignature)
      end
  end.

(** ** Running the remedial commands *)

(** How a spawned command ends: it closes with a code, [None] for [null];
    it cannot be spawned; or it never ends. *)
Inductive ChildEnd : Type :=
| closes (code : option Z)
| fails (message : string)
| runs_on.

(** The commands spawned so far, each with its arguments and working
    directory, and how the commands spawned next will end. *)
Record World : Type := mkWorld {
  spawned : list (string * list string * option Value);
  children : list ChildEnd
}.

Definition showCode (code : option Z) : string :=
  match code with
  | Some c => CommandRunner.ztoString c
  | None => "null"
  end.

(** [runCommand(command, cwd)] *)
Definition runCommand (command : string) (cwd : option Value) (w : World)
    : Outcome unit * World :=
  let cmd := nth 0 (split " " command) EmptyString in
  let args := tl (split " " command) in
  let w' := mkWorld (spawned w ++ [(cmd, args, cwd)]) (tl (children w)) in
  match hd runs_on (children w) with
  | closes code =>
      if CommandRunner.isZero code then (Done tt, w')
      else (Throw ("Command failed with code " +:+ showCode code), w')
  | fails message => (Throw message, w')
  | runs_on => (Hang, w')
  end.

Record Result : Type := mkResult {
  success : bool;
  error : option string
}.

(** [params.command || fallback], which has to be a string for [split]. *)
Definition commandOf (params : Params) (fallback : string) : string + string :=
  match RecoveryEngine.get "command" params with
  | Some (VStr s) => inr (or_else s fallback)
  | Some v =>
      if RecoveryEngine.isTruthy (Some v)
      then inl "TypeError: command.split is not a function"
      else inr fallback
  | None => inr fallback
  end.

Definition clearCache (projectPath : option Value) (params : Params)
    (w : World) : Outcome Result * World :=
  match commandOf params "npm cache clean --force" with
  | inl e => (Done (mkResult false (Some e)), w)
  | inr command =>
      match runCommand command projectPath w with
      | (Done _, w') => (Done (mkResult true None), w')
      | (Throw e, w') => (Done (mkResult false (Some e)), w')
      | (_, w') => (Hang, w')
      end
  end.

Definition retryClean (context params : Params) (w : World)
    : Outcome Result * World :=
  let projectPath := RecoveryEngine.get "projectPath" context in
  let afterCache :=
    if RecoveryEngine.isTruthy (RecoveryEngine.get "cleanCache" params)
    then match clearCache projectPath [] w with
         | (Done _, w') => (Done tt, w')
         | (Throw e, w') => (Throw e, w')
         | (_, w') => (Hang, w')
         end
    else (Done tt, w) in
  match afterCache with
  | (Done _, w1) =>
      if RecoveryEngine.isTruthy
           (RecoveryEngine.get "cleanDependencies" params)
      then
        (* Remove node_modules and reinstall *)
        match runCommand "rm -rf node_modules" projectPath w1 with
        | (Done _, w2) =>
            match runCommand "npm install" projectPath w2 with
            | (Done _, w3) => (Done (mkResult true None), w3)
            | (Throw e, w3) => (Done (mkResult false (Some e)), w3)
            | (_, w3) => (Hang, w3)
            end
        | (Throw e, w2) => (Done (mkResult false (Some e)), w2)
        | (_, w2) => (Hang, w2)
        end
      else (Done (mkResult true None), w1)
  | (Throw e, w1) => (Done (mkResult false (Some e)), w1)
  | (_, w1) => (Hang, w1)
  end.

End RecoveryService.

(* ------------------------------------------------------------------ *)
(** * The task service that spawns the build itself: [TaskService.ts] *)
(* ------------------------------------------------------------------ *)

Module TaskService.
Import JS.

(** [ToInt32]: the integer modulo 2^32, read as a signed 32-bit one. *)
Definition toInt32 (z : Z) : Z :=
  ((z + 2147483648) mod 4294967296 - 2147483648)%Z.

(** [a << n] *)
Definition shl (a n : Z) : Z := toInt32 (Z.shiftl (toInt32 a) n).

(** [a & b] *)
Definition and_ (a b : Z) : Z := toInt32 (Z.land (toInt32 a) (toInt32 b)).

(** The digit of a value below 36. *)
Definition digit36 (d : N) : ascii :=
  if (d <? 10)%N then ascii_of_N (48 + d) else ascii_of_N (87 + d).

Fixpoint toBase36 (fuel : nat) (n : N) (acc : string) : string :=
  match fuel with
  | O => acc
  | S fuel' =>
      let acc := String (digit36 (n mod 36)) acc in
      if (n / 36 =? 0)%N then acc else toBase36 fuel' (n / 36)%N acc
  end.

(** [n.toString(36)] for a natural number: it has no more digits than
    bits. *)
Definition toString36 (n : N) : string :=
  toBase36 (S (N.to_nat (N.log2 n))) n EmptyString.

(** The loop of [generateErrorHash] from the code unit at [i] on. *)
Fixpoint hashLoop (hash : Z) (message : string) : Z :=
  match message with
  | EmptyString => hash
  | String c rest =>
      let char := Z.of_N (code c) in
      let hash := (shl hash 5 - hash + char)%Z in
      let hash := and_ hash hash in (* Convert to 32-bit integer *)
      hashLoop hash rest
  end.

(** Simple hash function for error signatures. *)
Definition generateErrorHash (message : string) : string :=
  let hash := hashLoop 0 message in
  toString36 (Z.to_N (Z.abs hash)).

End TaskService.

(* ------------------------------------------------------------------ *)
(** * The vocabulary of the specification *)
(* ------------------------------------------------------------------ *)

Module Spec.
Import JS.

(** A confidence within [0.1, 1.0]. *)
Definition inRange (c : float) : Prop :=
  PrimFloat.leb 0.1%float c = true /\ PrimFloat.leb c 1.0%float = true.

(** Clamping into [0.1, 1.0]: the nearer bound for a value outside, the
    value itself otherwise. *)
Definition clamp (x : float) : float :=
  if PrimFloat.ltb 1.0%float x then 1.0%float
  else if PrimFloat.ltb x 0.1%float then 0.1%float
  else x.

(** The severity factor: critical x0.9, high x1.0, medium x1.1, low x1.2. *)
Definition severityFactor (s : ErrorDetector.Severity) : float :=
  match s with
  | ErrorDetector.critical => 0.9%float
  | ErrorDetector.high => 1.0%float
  | ErrorDetector.medium => 1.1%float
  | ErrorDetector.low => 1.2%float
  end.

Definition knownFrameworks : list string :=
  ["react"; "vue"; "angular"; "next"; "nuxt"].

(** The framework-compatibility factor: a known framework x1.0, any other
    x0.8. *)
Definition frameworkFactor (framework : string) : float :=
  if ErrorDetector.in_list framework knownFrameworks
  then 1.0%float else 0.8%float.

(** The action carries a package parameter. *)
Definition carriesPackage (a : RecoveryEngine.RecoveryAction) : bool :=
  RecoveryEngine.isTruthy (RecoveryEngine.get "package" (RecoveryEngine.params a)).

(** The framework the signature carries, if it carries one. *)
Definition carriedFramework (sig : ErrorDetector.ErrorSignature)
    : option string :=
  match ErrorDetector.framework (ErrorDetector.context sig) with
  | Some f => if truthy f then Some f else None
  | None => None
  end.

(** The framework of the signature, if it carries one, is not the name of
    a member that every object inherits. *)
Definition plainFramework (sig : ErrorDetector.ErrorSignature) : Prop :=
  match carriedFramework sig with
  | Some framework =>
      ErrorDetector.in_list framework RecoveryEngine.Object_prototype_names
      = false
  | None => True
  end.

(** The confidence the specification gives the action a rule generated. *)
Definition expectedConfidence (a : RecoveryEngine.RecoveryAction)
    (sig : ErrorDetector.ErrorSignature) : float :=
  let product :=
    (RecoveryEngine.confidence a
       * severityFactor (ErrorDetector.severity sig))%float in
  let product :=
    match carriedFramework sig with
    | Some framework =>
        if carriesPackage a
        then (product * frameworkFactor framework)%float
        else product
    | None => product
    end in
  clamp product.

(** A signature to try the engine on. *)
Definition sampleSignature (message : string) (severity : ErrorDetector.Severity)
    (framework : option string) : ErrorDetector.ErrorSignature :=
  ErrorDetector.mkErrorSignature ErrorDetector.build_error "0123456789abcdef"
    message None None "unknown" 1
    (ErrorDetector.mkContext framework None None) severity [].

(** No enabled rule of the engine matches the message of the signature. *)
Definition noRuleMatches (e : RecoveryEngine.RecoveryEngine)
    (sig : ErrorDetector.ErrorSignature) : Prop :=
  Forall (fun rule =>
            RecoveryEngine.enabled rule = true ->
            exec (RecoveryEngine.errorPattern rule) (ErrorDetector.message sig)
              = None)
    (RecoveryEngine.recoveryRules e).

(** No rule answers: the enabled rules that match all have generators that
    throw. *)
Definition noRuleFires (e : RecoveryEngine.RecoveryEngine)
    (sig : ErrorDetector.ErrorSignature) : Prop :=
  RecoveryEngine.firstAction
    (RecoveryEngine.sortRules (RecoveryEngine.recoveryRules e)) sig = None.

(** The rules the engine sets up itself. *)
Definition builtinRules : list RecoveryEngine.RecoveryRule :=
  RecoveryEngine.recoveryRules (RecoveryEngine.initialize RecoveryEngine.new).

(** A rule whose generator is one of the built-in ones. *)
Definition builtinGenerator (rule : RecoveryEngine.RecoveryRule) : Prop :=
  In (RecoveryEngine.actionGenerator rule)
     (map RecoveryEngine.actionGenerator builtinRules).

(** The base confidences of the built-in rules. *)
Definition baseConfidences : list float :=
  [0.95%float; 0.90%float; 0.85%float; 0.80%float; 0.70%float; 0.75%float;
   0.60%float].

(** The action the engine generates for the module [left-pad] that cannot
    be found. *)
Definition leftPadAction : RecoveryEngine.RecoveryAction :=
  RecoveryEngine.mkRecoveryAction "install_dependency"
    [("package", RecoveryEngine.VStr "left-pad")]
    0.95%float
    "Install missing package: left-pad"
    30 RecoveryEngine.low
    (Some ["npm"; "yarn"; "pnpm"])
    (Some [RecoveryEngine.mkRecoveryAction "install_dev_dependency"
             [("package", RecoveryEngine.VStr "left-pad")]
             0.80%float
             "Install as dev dependency: left-pad"
             30 RecoveryEngine.low None None]).

(** ** Texts of the same shape *)

Fixpoint every (p : ascii -> bool) (s : string) : bool :=
  match s with
  | EmptyString => true
  | String c s' => p c && every p s'
  end.

(** A digit run: one or more decimal digits. *)
Definition digitRun (d : string) : bool := truthy d && every isDigit d.

(** A path-like token: a slash and one or more characters that are not
    white space. *)
Definition pathToken (t : string) : bool :=
  match t with
  | String c t' =>
      Ascii.eqb c "/"%char && truthy t' && every ErrorDetector.notSpace t'
  | EmptyString => false
  end.

(** Where a token ends: at white space, or with the text. *)
Definition tokenEnd (s : string) : bool :=
  match s with
  | EmptyString => true
  | String c _ => isSpace c
  end.

(** Two texts that differ only in digit runs or in path-like tokens. *)
Inductive sameShape : string -> string -> Prop :=
| same_text (s : string) : sameShape s s
| same_digits (x d1 d2 y : string) :
    digitRun d1 = true -> digitRun d2 = true ->
    sameShape (x +:+ d1 +:+ y) (x +:+ d2 +:+ y)
| same_path (x t1 t2 y : string) :
    pathToken t1 = true -> pathToken t2 = true -> tokenEnd y = true ->
    sameShape (x +:+ t1 +:+ y) (x +:+ t2 +:+ y)
| same_trans (a b c : string) :
    sameShape a b -> sameShape b c -> sameShape a c.

(** Every digit run replaced by one placeholder digit; [inRun] says that
    the text before ended in a digit. *)
Fixpoint squeezeDigits (inRun : bool) (s : string) : string :=
  match s with
  | EmptyString => EmptyString
  | String c s' =>
      if isDigit c
      then if inRun then squeezeDigits true s'
           else String "0" (squeezeDigits true s')
      else String c (squeezeDigits false s')
  end.

(** Every path-like token replaced by a placeholder; [inToken] says that
    the text before is a token that has not yet ended. *)
Fixpoint maskPaths (inToken : bool) (s : string) : string :=
  match s with
  | EmptyString => EmptyString
  | String c s' =>
      if inToken
      then if isSpace c then String c (maskPaths false s')
           else maskPaths true s'
      else if Ascii.eqb c "/"%char && negb (tokenEnd s')
           then "/path" +:+ maskPaths true s'
           else String c (maskPaths false s')
  end.

(** The length of the run of [p] at the head of [s]. *)
Fixpoint runLength (p : ascii -> bool) (s : string) : nat :=
  match s with
  | String c s' => if p c then S (runLength p s') else O
  | EmptyString => O
  end.

(** Whether a text, read after a text that ended in a digit or not, ends
    in a digit. *)
Fixpoint endsInDigit (inRun : bool) (s : string) : bool :=
  match s with
  | EmptyString => inRun
  | String c s' => endsInDigit (isDigit c) s'
  end.

(** ** Lines *)

(** The first line of a text. *)
Definition firstLine (s : string) : string := nth 0 (split LF s) EmptyString.

(** The first line of a text that is not empty. *)
Definition firstNonEmptyLine (s : string) : option string :=
  List.find truthy (split LF s).

(** ** Traces of a child process *)

(** The events that settle the promise of a run: [close] and [error]. *)
Definition settles (ev : CommandRunner.ChildEvent) : bool :=
  match ev with
  | CommandRunner.close _ _ | CommandRunner.error _ => true
  | _ => false
  end.

(** A stretch of a trace in which the child neither closes nor fails. *)
Definition quiet (t : CommandRunner.Trace) : bool :=
  forallb (fun e => negb (settles (snd e))) t.

(** What the child wrote to its standard output in a trace. *)
Fixpoint stdoutOf (t : CommandRunner.Trace) : string :=
  match t with
  | [] => EmptyString
  | (_, CommandRunner.stdout_data data) :: t' => data +:+ stdoutOf t'
  | _ :: t' => stdoutOf t'
  end.

(** What the child wrote to its standard error in a trace. *)
Fixpoint stderrOf (t : CommandRunner.Trace) : string :=
  match t with
  | [] => EmptyString
  | (_, CommandRunner.stderr_data data) :: t' => data +:+ stderrOf t'
  | _ :: t' => stderrOf t'
  end.

(** ** Workflows to try the phases on *)

Definition sampleOptions : DeploymentWorkflow.DeploymentOptions :=
  DeploymentWorkflow.mkDeploymentOptions "project_1" "vercel" None [] None None.

(** An initialized workflow at time 1000, before any run, whose store
    holds one project. *)
Definition idleWorkflow (children : list CommandRunner.Trace)
    : DeploymentWorkflow.DeploymentWorkflow :=
  DeploymentWorkflow.mk
    (DatabaseService.mk true
       {[ "project_1" := Project.mk "project_1" "demo" "/srv/demo" ]} ∅)
    CommandRunner.new
    (ErrorDetector.initialize ErrorDetector.new)
    (RecoveryEngine.initialize RecoveryEngine.new)
    ∅ [] 1000 children.

(** The same workflow once a run for [task_1] has started. *)
Definition startedWorkflow (children : list CommandRunner.Trace)
    : DeploymentWorkflow.DeploymentWorkflow :=
  snd (DeploymentWorkflow.registerTask "task_1" sampleOptions
         (idleWorkflow children)).

(** The same workflow while the build command of [task_1] is running: the
    child has been spawned and has not closed. *)
Definition buildingWorkflow : DeploymentWorkflow.DeploymentWorkflow :=
  let w := startedWorkflow [] in
  DeploymentWorkflow.mk (DeploymentWorkflow.database w)
    (fst (CommandRunner.spawn (DeploymentWorkflow.commandRunner w)
            "npm" ["run"; "build"] (DeploymentWorkflow.clock w)))
    (DeploymentWorkflow.errorDetector w) (DeploymentWorkflow.recoveryEngine w)
    (DeploymentWorkflow.activeTasks w) (DeploymentWorkflow.events w)
    (DeploymentWorkflow.clock w) (DeploymentWorkflow.children w).

(** A child that writes [text] to its standard error and exits with
    [code]. *)
Definition failingChild (text : string) (code : Z) : CommandRunner.Trace :=
  [(1010%Z, CommandRunner.stderr_data text);
   (1020%Z, CommandRunner.close (Some code) None)].

(** A child that exits with code 0. *)
Definition passingChild : CommandRunner.Trace :=
  [(1110%Z, CommandRunner.stdout_data "done");
   (1120%Z, CommandRunner.close (Some 0%Z) None)].

(** The build command of [task_1] run against the next child: how it
    ends, and the workflow afterwards. *)
Definition buildRun (children : list CommandRunner.Trace)
    : DeploymentWorkflow.Outcome CommandRunner.CommandResult
      * DeploymentWorkflow.DeploymentWorkflow :=
  DeploymentWorkflow.bind
    (DeploymentWorkflow.emit
       (DeploymentWorkflow.task_log "task_1" "Building project: npm run build"))
    (fun _ =>
       DeploymentWorkflow.execute "npm" ["run"; "build"] "/srv/demo"
         (DeploymentWorkflow.buildEnv sampleOptions))
    (startedWorkflow children).

(** The result of a build that wrote [text] to its standard error and
    exited with [code] after 20 ms. *)
Definition failedBuild (text : string) (code : Z)
    : CommandRunner.CommandResult :=
  CommandRunner.mkCommandResult false EmptyString text code 20.

(** The signature the initialized classifier gives that result, with the
    identity for the hash function. *)
Definition signatureOf (result : CommandRunner.CommandResult)
    : ErrorDetector.ErrorSignature :=
  default (sampleSignature EmptyString ErrorDetector.medium None)
    (ErrorDetector.detectError (fun s => s)
       (ErrorDetector.initialize ErrorDetector.new)
       (CommandRunner.stderr result) (CommandRunner.stdout result)).

(** The action the initialized engine suggests for a signature. *)
Definition actionFor (sig : ErrorDetector.ErrorSignature)
    : RecoveryEngine.RecoveryAction :=
  default (RecoveryEngine.getGenericRecoveryAction sig)
    (RecoveryEngine.getRecoveryAction
       (RecoveryEngine.initialize RecoveryEngine.new) sig).

End Spec.

(* ------------------------------------------------------------------ *)
(** * Notions the further properties are stated with *)
(* ------------------------------------------------------------------ *)

Module Notions.
Import JS.

(** A capital letter of the basic alphabet. *)
Definition isCapital (c : ascii) : bool := in_range 65 90 c.

(** A text without capital letters of the basic alphabet. *)
Definition noCapital (s : string) : bool :=
  Spec.every (fun c => negb (isCapital c)) s.

(** A pattern [rx] asks for the text [s] at the place where it matches. *)
Definition asksFor (rx : RegExp) (s : string) : Prop :=
  forall t pos, startsWith s t = false -> matchAt rx t pos = None.

(** The polynomial in 31 whose coefficients are the code units of a text,
    the first one with the highest power, as an integer; [acc] is the
    value for the text read so far. *)
Fixpoint poly31 (acc : Z) (s : string) : Z :=
  match s with
  | EmptyString => acc
  | String c rest => poly31 (31 * acc + Z.of_N (code c))%Z rest
  end.

(** ** The Error Classifier *)

(** [map.get(k)] on the pattern table; [None] is [undefined]. *)
Fixpoint Map_get (k : string) (mp : ErrorDetector.PatternMap)
    : option RegExp :=
  match mp with
  | [] => None
  | (k', v') :: mp' => if String.eqb k k' then Some v' else Map_get k mp'
  end.

(** Setting the entries of [l] one after the other. *)
Definition setAll (l mp : ErrorDetector.PatternMap) : ErrorDetector.PatternMap :=
  fold_left (fun mp kv => ErrorDetector.Map_set (fst kv) (snd kv) mp) l mp.

(** The table the classifier sets up itself. *)
Definition builtinPatterns : ErrorDetector.PatternMap :=
  ErrorDetector.errorPatterns (ErrorDetector.initialize ErrorDetector.new).

(** The kinds of error [createErrorSignature] has a case for. *)
Definition casedKinds : list string :=
  ["missing_dependency"; "missing_package"; "peer_dependency";
   "version_mismatch"; "typescript_error"; "syntax_error"; "missing_env_var";
   "auth_failed"; "token_expired"; "invalid_token"; "network_timeout";
   "connection_refused"; "dns_error"; "permission_denied";
   "read_only_filesystem"].

(** The suggestions of the default case. *)
Definition defaultSuggestions : list string :=
  ["Check error logs for more details"; "Try rebuilding the project"].

(** ** The Recovery Engine *)

(** Descending priority. *)
Definition byPriority (a b : RecoveryEngine.RecoveryRule) : Prop :=
  (RecoveryEngine.priority b <= RecoveryEngine.priority a)%Z.

(** What a rule answers a signature: the action its generator makes of
    the match, with the adjusted confidence; nothing when the rule is
    disabled, when its pattern does not match the message, or when its
    generator throws. *)
Definition answer (rule : RecoveryEngine.RecoveryRule)
    (sig : ErrorDetector.ErrorSignature) : option RecoveryEngine.RecoveryAction :=
  if RecoveryEngine.enabled rule then
    match exec (RecoveryEngine.errorPattern rule) (ErrorDetector.message sig) with
    | Some match_ =>
        match RecoveryEngine.actionGenerator rule match_ sig with
        | Some a =>
            Some (RecoveryEngine.withConfidence a
                    (RecoveryEngine.adjustConfidence a sig))
        | None => None
        end
    | None => None
    end
  else None.

Definition answers (rule : RecoveryEngine.RecoveryRule)
    (sig : ErrorDetector.ErrorSignature) : bool :=
  match answer rule sig with Some _ => true | None => false end.

(** The first rule of a list that answers. *)
Fixpoint firstRule (rules : list RecoveryEngine.RecoveryRule)
    (sig : ErrorDetector.ErrorSignature) : option RecoveryEngine.RecoveryRule :=
  match rules with
  | [] => None
  | rule :: rest => if answers rule sig then Some rule else firstRule rest sig
  end.

(** Going through the rules in the order of registration and keeping the
    best one so far: a rule that answers takes the place of the one kept
    when its priority is strictly higher. *)
Definition keepBest (sig : ErrorDetector.ErrorSignature)
    (best : option RecoveryEngine.RecoveryRule)
    (rule : RecoveryEngine.RecoveryRule) : option RecoveryEngine.RecoveryRule :=
  if answers rule sig then
    match best with
    | None => Some rule
    | Some b =>
        if (RecoveryEngine.priority b <? RecoveryEngine.priority rule)%Z
        then Some rule else best
    end
  else best.

Definition choose (rules : list RecoveryEngine.RecoveryRule)
    (sig : ErrorDetector.ErrorSignature) : option RecoveryEngine.RecoveryRule :=
  fold_left (keepBest sig) rules None.

(** A rule with its [enabled] flag set to [value]. *)
Definition withEnabled (value : bool) (rule : RecoveryEngine.RecoveryRule)
    : RecoveryEngine.RecoveryRule :=
  RecoveryEngine.mkRecoveryRule (RecoveryEngine.errorPattern rule)
    (RecoveryEngine.actionGenerator rule) (RecoveryEngine.priority rule) value.

(** The names of the actions the built-in rules generate, and of the
    generic one. *)
Definition builtinActions : list string :=
  ["install_dependency"; "install_peer_dependency"; "set_env_variable";
   "create_env_file"; "clear_cache_and_retry"; "fix_typescript_config";
   "fix_typescript_errors"; "refresh_auth_token"; "retry_with_backoff";
   "fix_permissions"; "upgrade_dependency"; "generic_retry"].

(** ** The Process Supervisor *)

(** What the runner emits for the output of a child, chunk by chunk, for
    the run [processId] of [command]. *)
Fixpoint forwarded (processId command : string) (t : CommandRunner.Trace)
    : list CommandRunner.Emitted :=
  match t with
  | [] => []
  | (now, CommandRunner.stdout_data output) :: t' =>
      CommandRunner.emit_stdout processId command output now
        :: forwarded processId command t'
  | (now, CommandRunner.stderr_data output) :: t' =>
      CommandRunner.emit_stderr processId command output now
        :: forwarded processId command t'
  | _ :: t' => forwarded processId command t'
  end.

(** The identifier [execute] gives the run it starts on the runner [r] at
    time [now]. *)
Definition nextProcessId (r : CommandRunner.CommandRunner) (now : Z) : string :=
  CommandRunner.processId (snd (CommandRunner.spawn r EmptyString [] now)).

(** The runner [r'] is the runner [r] at a later time: the signals that
    were sent have been sent. *)
Definition later (r r' : CommandRunner.CommandRunner) : Prop :=
  exists more,
    CommandRunner.signalsSent r' = CommandRunner.signalsSent r ++ more.

(** The processes of [ids] that have not been sent a signal. *)
Definition neverSignalled (ids : list string) (r : CommandRunner.CommandRunner)
    : list string :=
  List.filter (fun id => negb (CommandRunner.killed id r)) ids.

(** ** The Deployment Workflow *)

(** A status that ends the poll with success, with failure, and one that
    does not end it. *)
Definition readyStatus (s : string) : bool :=
  String.eqb s "ready" || String.eqb s "live".

Definition failedStatus (s : string) : bool :=
  String.eqb s "error" || String.eqb s "failed".

Definition pendingStatus (s : string) : bool :=
  negb (readyStatus s) && negb (failedStatus s).

(** The status an adapter answers the [i]-th call of a poll with, the
    empty text when the call is rejected. *)
Definition statusAt (plugin : PluginManager.Plugin) (deployId : option string)
    (i : nat) : string :=
  match PluginManager.getStatus plugin deployId i with
  | PluginManager.Returns st => PluginManager.status st
  | PluginManager.Rejects _ => EmptyString
  end.

(** The answers to the calls [from], ..., [from + n - 1] do not end the
    poll. *)
Definition pendingFrom (plugin : PluginManager.Plugin)
    (deployId : option string) (from n : nat) : Prop :=
  forall i, (from <= i < from + n)%nat ->
    exists st,
      PluginManager.getStatus plugin deployId i = PluginManager.Returns st
      /\ pendingStatus (PluginManager.status st) = true.

(** An adapter that answers [building] to the first [n] calls of a poll
    and [ready] from then on, and that detects a project with [config]. *)
Definition samplePlugin (n : nat) (config : option PluginManager.ProjectConfig)
    : PluginManager.Plugin :=
  PluginManager.mkPlugin "Vercel" "vercel"
    (fun _ => PluginManager.Returns config)
    (PluginManager.Returns
       (PluginManager.mkAuthResult true (Some "token") None))
    (fun _ _ =>
       PluginManager.Returns
         (PluginManager.mkDeployResult true (Some "dpl_1")
            (Some "https://demo.example") None))
    (fun _ i =>
       PluginManager.Returns
         (if (i <? n)%nat
          then PluginManager.mkDeployStatus "building" None None
          else PluginManager.mkDeployStatus "ready"
                 (Some "https://demo.example") None)).

(** The workflow after [n] rounds of the poll from the attempt [from] on,
    in which the adapter answered with the statuses [status from],
    [status (from + 1)], ..., none of which ended the poll: each round
    logs the status and waits ten seconds. *)
Definition polled (taskId : string) (status : nat -> string) (from n : nat)
    (w : DeploymentWorkflow.DeploymentWorkflow)
    : DeploymentWorkflow.DeploymentWorkflow :=
  DeploymentWorkflow.mk (DeploymentWorkflow.database w)
    (DeploymentWorkflow.commandRunner w) (DeploymentWorkflow.errorDetector w)
    (DeploymentWorkflow.recoveryEngine w) (DeploymentWorkflow.activeTasks w)
    (DeploymentWorkflow.events w
       ++ map (fun i =>
                 DeploymentWorkflow.task_log taskId
                   ("Deployment status: " +:+ status i))
            (List.seq from n))
    (DeploymentWorkflow.clock w + 10000 * Z.of_nat n)%Z
    (DeploymentWorkflow.children w).

(** ** The building phase *)

(** A child that closes with [code] after it has written, trimmed, [out]
    to its standard output and [err] to its standard error. *)
Definition closesWith (t : CommandRunner.Trace) (code : option Z)
    (out err : string) : Prop :=
  exists pre at_ signal post,
    t = pre ++ (at_, CommandRunner.close code signal) :: post
    /\ Spec.quiet pre = true
    /\ JS.trim (Spec.stdoutOf pre) = out
    /\ JS.trim (Spec.stderrOf pre) = err.

(** The actions [executeRecoveryAction] has a case for. *)
Definition executedActions : list string :=
  ["install_dependency"; "clear_cache"; "retry_with_clean"].

(** A build command that fails in a way for which the engine suggests,
    with a confidence above 0.9, an action that the workflow has no case
    for. *)
Definition failsWithoutRemedy (sha256_hex : string -> string)
    (detector : ErrorDetector.ErrorDetector)
    (engine : RecoveryEngine.RecoveryEngine) (t : CommandRunner.Trace)
    : Prop :=
  exists code out err sig a,
    closesWith t code out err
    /\ CommandRunner.isZero code = false
    /\ ErrorDetector.detectError sha256_hex detector err out = Some sig
    /\ RecoveryEngine.getRecoveryAction engine sig = Some a
    /\ PrimFloat.ltb 0.9%float (RecoveryEngine.confidence a) = true
    /\ ~ In (RecoveryEngine.action a) executedActions.

(** A child that starts at [start], complains of a peer dependency ten
    milliseconds later and exits with code 1 after ten more. *)
Definition peerComplaint (start : Z) : CommandRunner.Trace :=
  [((start + 10)%Z,
    CommandRunner.stderr_data "npm ERR! requires a peer of react@18.2.0");
   ((start + 20)%Z, CommandRunner.close (Some 1%Z) None)].

(** ** The detecting phase *)


(** ** The Platform Adapter Registry *)

(** The confidences [detectProjectType] can give: the base 0.5 with 0.2
    and up to three times 0.1 added, in binary64. *)
Definition confidenceLevels : list float :=
  [0.5%float; 0.6%float; 0.7%float; 0.7999999999999999%float;
   0.8999999999999999%float; 0.9999999999999999%float].

(** [a] is listed before [b]: its confidence is not below that of [b]. *)
Definition ranked (a b : PluginManager.Detection) : Prop :=
  PrimFloat.leb (PluginManager.d_confidence b) (PluginManager.d_confidence a)
  = true.

(** An adapter for [platform] that detects [config] and fails at
    everything else. *)
Definition detecting (platform : string)
    (config : option PluginManager.ProjectConfig) : PluginManager.Plugin :=
  PluginManager.mkPlugin platform platform
    (fun _ => PluginManager.Returns config)
    (PluginManager.Rejects "not signed in")
    (fun _ _ => PluginManager.Rejects "not signed in")
    (fun _ _ => PluginManager.Rejects "not signed in").

(** A detection whose confidence is one of the levels. *)
Definition leveled (d : PluginManager.Detection) : Prop :=
  In (PluginManager.d_confidence d) confidenceLevels.

End Notions.

(* ------------------------------------------------------------------ *)
(** * Facts about binary64 comparisons *)
(* ------------------------------------------------------------------ *)

Module FloatFacts.

Lemma SFcompare_antisym (x y : SpecFloat.spec_float) (c : comparison) :
  SpecFloat.SFcompare x y = Some c ->
  SpecFloat.SFcompare y x = Some (CompOpp c).
Proof.
  destruct x as [sx| sx | |sx mx ex], y as [sy|sy| |sy my ey]; simpl;
    try discriminate;
    try (destruct sx; intros [= <-]; reflexivity);
    try (destruct sy; intros [= <-]; reflexivity);
    try (intros [= <-]; reflexivity).
  - destruct sx, sy; intros [= <-]; reflexivity.
  - destruct sx, sy; intros [= <-]; try reflexivity;
      rewrite (Z.compare_antisym ex ey);
      destruct (ex ?= ey)%Z; simpl; try reflexivity;
      rewrite ?(Pos.compare_cont_antisym mx my Eq); simpl;
      rewrite ?CompOpp_involutive; reflexivity.
Qed.

Lemma ltb_leb (x y : float) :
  PrimFloat.ltb x y = true -> PrimFloat.leb x y = true.
Proof.
  rewrite ltb_spec, leb_spec. unfold SpecFloat.SFltb, SpecFloat.SFleb.
  destruct (SpecFloat.SFcompare _ _) as [[] | ]; congruence.
Qed.

Lemma leb_not_gt (x y : float) :
  PrimFloat.leb x y = true -> PrimFloat.ltb y x = false.
Proof.
  rewrite ltb_spec, leb_spec. unfold SpecFloat.SFltb, SpecFloat.SFleb.
  destruct (SpecFloat.SFcompare (Prim2SF x) (Prim2SF y)) as [c | ] eqn:E;
    [|discriminate].
  rewrite (SFcompare_antisym _ _ _ E). destruct c; simpl; congruence.
Qed.

Lemma SFcompare_refl (x : SpecFloat.spec_float) :
  x <> SpecFloat.S754_nan -> SpecFloat.SFcompare x x = Some Eq.
Proof.
  destruct x as [s|s| |s mx ex]; simpl; intros Hx; try congruence.
  - destruct s; reflexivity.
  - rewrite Z.compare_refl, Pos.compare_cont_refl. destruct s; reflexivity.
Qed.

(** Comparing equal against a finite number is being that number. *)
Lemma SFcompare_Eq_finite (x : SpecFloat.spec_float) s m e :
  SpecFloat.SFcompare x (SpecFloat.S754_finite s m e) = Some Eq ->
  x = SpecFloat.S754_finite s m e.
Proof.
  destruct x as [sx|sx| |sx mx ex]; simpl; try discriminate.
  - destruct s; discriminate.
  - destruct sx; discriminate.
  - destruct sx, s; try discriminate;
      destruct (ex ?= e)%Z eqn:Ee; try discriminate;
      apply Z.compare_eq in Ee; subst;
      intros [= Hm];
      [apply (f_equal CompOpp) in Hm; rewrite CompOpp_involutive in Hm;
       simpl in Hm | ];
      apply (Pos.compare_eq mx m) in Hm; subst; reflexivity.
Qed.

Lemma is_nan_spec (x : float) :
  PrimFloat.is_nan x = true <-> Prim2SF x = SpecFloat.S754_nan.
Proof.
  unfold PrimFloat.is_nan. rewrite FloatAxioms.eqb_spec. unfold SpecFloat.SFeqb. split.
  - intros H. destruct (Prim2SF x) eqn:E; try reflexivity;
      rewrite SFcompare_refl in H by discriminate; discriminate.
  - intros ->. reflexivity.
Qed.

Lemma is_nan_eq (x : float) : PrimFloat.is_nan x = true -> x = PrimFloat.nan.
Proof.
  intros H%is_nan_spec. rewrite <- (SF2Prim_Prim2SF x), H. reflexivity.
Qed.

Lemma not_nan_compare (x y : float) :
  PrimFloat.is_nan x = false -> PrimFloat.is_nan y = false ->
  exists c, SpecFloat.SFcompare (Prim2SF x) (Prim2SF y) = Some c.
Proof.
  intros Hx Hy.
  assert (Prim2SF x <> SpecFloat.S754_nan) as Nx
    by (intros E%is_nan_spec; congruence).
  assert (Prim2SF y <> SpecFloat.S754_nan) as Ny
    by (intros E%is_nan_spec; congruence).
  destruct (Prim2SF x), (Prim2SF y); simpl; try congruence; eauto.
Qed.

Lemma ltb_asym (x y : float) :
  PrimFloat.ltb x y = true -> PrimFloat.ltb y x = false.
Proof. intros H%ltb_leb. now apply leb_not_gt. Qed.

(** Neither below nor above a finite number, and a number: that number. *)
Lemma eq_of_not_lt (x y : float) s m e :
  Prim2SF y = SpecFloat.S754_finite s m e ->
  PrimFloat.is_nan x = false ->
  PrimFloat.ltb x y = false -> PrimFloat.ltb y x = false -> x = y.
Proof.
  intros Hy Hx Hxy Hyx.
  assert (PrimFloat.is_nan y = false) as Ny.
  { destruct (PrimFloat.is_nan y) eqn:E; [|reflexivity].
    apply is_nan_spec in E. congruence. }
  destruct (not_nan_compare x y Hx Ny) as [c Hc].
  rewrite ltb_spec in Hxy, Hyx. unfold SpecFloat.SFltb in Hxy, Hyx.
  rewrite (SFcompare_antisym _ _ _ Hc) in Hyx. rewrite Hc in Hxy.
  destruct c; simpl in *; try discriminate.
  rewrite Hy in Hc. apply SFcompare_Eq_finite in Hc.
  rewrite <- (SF2Prim_Prim2SF x), <- (SF2Prim_Prim2SF y). congruence.
Qed.

Lemma SFcompare_Lt_trans (x y z : SpecFloat.spec_float) :
  SpecFloat.SFcompare x y = Some Lt -> SpecFloat.SFcompare y z = Some Lt ->
  SpecFloat.SFcompare x z = Some Lt.
Proof.
  destruct x as [sx | sx | | sx mx ex], y as [sy | sy | | sy my ey],
    z as [sz | sz | | sz mz ez]; simpl; try discriminate;
    try (destruct sx; discriminate); try (destruct sy; discriminate);
    try (destruct sz; discriminate);
    try (destruct sx, sy; discriminate); try (destruct sy, sz; discriminate);
    try (destruct sx, sz; try discriminate; reflexivity);
    try (destruct sx, sy, sz; try discriminate; reflexivity).
  destruct sx, sy, sz; try discriminate; try reflexivity;
    rewrite !Pos.compare_cont_spec; simpl Pos.switch_Eq;
    destruct (Z.compare_spec ex ey), (Z.compare_spec ey ez),
      (Z.compare_spec ex ez); try discriminate; try lia; try reflexivity;
    destruct (Pos.compare_spec mx my), (Pos.compare_spec my mz),
      (Pos.compare_spec mx mz); simpl; try discriminate; try lia;
    try reflexivity.
Qed.

Lemma ltb_trans (x y z : float) :
  PrimFloat.ltb x y = true -> PrimFloat.ltb y z = true ->
  PrimFloat.ltb x z = true.
Proof.
  rewrite !ltb_spec. unfold SpecFloat.SFltb.
  destruct (SpecFloat.SFcompare (Prim2SF x) (Prim2SF y)) as [[] | ] eqn:E1;
    try discriminate.
  destruct (SpecFloat.SFcompare (Prim2SF y) (Prim2SF z)) as [[] | ] eqn:E2;
    try discriminate.
  now rewrite (SFcompare_Lt_trans _ _ _ E1 E2).
Qed.

End FloatFacts.

(* ------------------------------------------------------------------ *)
(** * The Recovery Engine: confidence and validation *)
(* ------------------------------------------------------------------ *)

Module EngineFacts.
Import JS RecoveryEngine.

Ltac float_const := vm_compute; reflexivity.

(** [Math.max(0.1, Math.min(1.0, x))] is clamping into [0.1, 1.0]. *)
Lemma clamp_refines (x : float) :
  Math_max 0.1%float (Math_min 1.0%float x) = Spec.clamp x.
Proof.
  destruct (PrimFloat.is_nan x) eqn:Hn.
  - apply FloatFacts.is_nan_eq in Hn. subst x. float_const.
  - unfold Math_min, Spec.clamp.
    change (PrimFloat.is_nan 1.0%float) with false. rewrite Hn. simpl.
    destruct (PrimFloat.ltb x 1.0%float) eqn:L1.
    + rewrite (FloatFacts.ltb_asym _ _ L1).
      unfold Math_max. change (PrimFloat.is_nan 0.1%float) with false.
      rewrite Hn. simpl.
      destruct (PrimFloat.ltb 0.1%float x) eqn:L2.
      * now rewrite (FloatFacts.ltb_asym _ _ L2).
      * destruct (PrimFloat.ltb x 0.1%float) eqn:L3; [reflexivity | ].
        symmetry. eapply FloatFacts.eq_of_not_lt; eauto; float_const.
    + destruct (PrimFloat.ltb 1.0%float x) eqn:L4; [float_const | ].
      assert (x = 1.0%float) as ->
        by (eapply FloatFacts.eq_of_not_lt; eauto; float_const).
      float_const.
Qed.

Lemma not_lt_leb (x y : float) :
  PrimFloat.is_nan x = false -> PrimFloat.is_nan y = false ->
  PrimFloat.ltb y x = false -> PrimFloat.leb x y = true.
Proof.
  intros Hx Hy. destruct (FloatFacts.not_nan_compare x y Hx Hy) as [c Hc].
  rewrite ltb_spec, leb_spec. unfold SpecFloat.SFltb, SpecFloat.SFleb.
  rewrite (FloatFacts.SFcompare_antisym _ _ _ Hc), Hc.
  destruct c; simpl; congruence.
Qed.

(** Clamping a number lands in [0.1, 1.0]. *)
Lemma clamp_inRange (x : float) :
  PrimFloat.is_nan x = false -> Spec.inRange (Spec.clamp x).
Proof.
  intros Hn. unfold Spec.clamp, Spec.inRange.
  destruct (PrimFloat.ltb 1.0%float x) eqn:L1; [split; float_const | ].
  destruct (PrimFloat.ltb x 0.1%float) eqn:L2; [split; float_const | ].
  split; apply not_lt_leb; auto.
Qed.

(** A product with NaN is NaN. *)
Lemma mul_nan (x : float) : (x * PrimFloat.nan)%float = PrimFloat.nan.
Proof.
  apply FloatFacts.is_nan_eq, FloatFacts.is_nan_spec.
  rewrite mul_spec.
  change (Prim2SF PrimFloat.nan) with SpecFloat.S754_nan.
  now destruct (Prim2SF x).
Qed.

(** For a framework that is not the name of an inherited member, the
    compatibility table gives the factor of the specification. *)
Lemma checkFrameworkCompatibility_spec (framework : string)
    (packageName : option Value) :
  ErrorDetector.in_list framework Object_prototype_names = false ->
  toNumber (checkFrameworkCompatibility framework packageName)
  = Spec.frameworkFactor framework.
Proof.
  intros Hplain.
  unfold checkFrameworkCompatibility, compatibilityMap_get,
    Spec.frameworkFactor, compatibilityMap.
  unfold ErrorDetector.in_list at 2. unfold Spec.knownFrameworks.
  simpl existsb.
  destruct (String.eqb_spec framework "react") as [->|N1]; [float_const | ].
  destruct (String.eqb_spec framework "vue") as [->|N2]; [float_const | ].
  destruct (String.eqb_spec framework "angular") as [->|N3]; [float_const | ].
  destruct (String.eqb_spec framework "next") as [->|N4]; [float_const | ].
  destruct (String.eqb_spec framework "nuxt") as [->|N5]; [float_const | ].
  rewrite !lookup_insert_ne, lookup_singleton_ne by congruence.
  now rewrite Hplain.
Qed.

(** For the name of an inherited member, it gives that member. *)
Lemma checkFrameworkCompatibility_inherited (framework : string)
    (packageName : option Value) :
  ErrorDetector.in_list framework Object_prototype_names = true ->
  checkFrameworkCompatibility framework packageName = member_inherited.
Proof.
  unfold ErrorDetector.in_list, Object_prototype_names. cbn [existsb].
  rewrite !orb_true_iff. intros H.
  repeat (destruct H as [H | H];
          [apply String.eqb_eq in H; subst framework; reflexivity | ]).
  discriminate.
Qed.

(** A known framework is no inherited name. *)
Lemma known_is_plain (framework : string) :
  ErrorDetector.in_list framework Spec.knownFrameworks = true ->
  ErrorDetector.in_list framework Object_prototype_names = false.
Proof.
  unfold ErrorDetector.in_list at 1. unfold Spec.knownFrameworks.
  cbn [existsb]. rewrite !orb_true_iff. intros H.
  repeat (destruct H as [H | H];
          [apply String.eqb_eq in H; subst framework; reflexivity | ]).
  discriminate.
Qed.

(** [adjustConfidence] computes the confidence of the specification,
    unless the signature carries the name of an inherited member for a
    framework and the action a package: then it computes NaN. *)
Lemma adjustConfidence_cases (a : RecoveryAction)
    (sig : ErrorDetector.ErrorSignature) :
  match Spec.carriedFramework sig with
  | Some framework =>
      if ErrorDetector.in_list framework Object_prototype_names
         && Spec.carriesPackage a
      then adjustConfidence a sig = PrimFloat.nan
      else adjustConfidence a sig = Spec.expectedConfidence a sig
  | None => adjustConfidence a sig = Spec.expectedConfidence a sig
  end.
Proof.
  assert (forall x y, x = y ->
            Math_max 0.1%float (Math_min 1.0%float x) = Spec.clamp y) as Hclamp
    by (intros x y ->; apply clamp_refines).
  unfold Spec.carriedFramework.
  destruct (ErrorDetector.framework (ErrorDetector.context sig)) as [f | ] eqn:Hf;
    [destruct (truthy f) eqn:Ht | ].
  - destruct (ErrorDetector.in_list f Object_prototype_names) eqn:Hin;
      [destruct (Spec.carriesPackage a) eqn:Hp | ]; cbn [andb].
    + unfold adjustConfidence. rewrite Hf. change (default "" (Some f)) with f. rewrite Ht.
      unfold Spec.carriesPackage in Hp. rewrite Hp. cbn [andb].
      rewrite (checkFrameworkCompatibility_inherited _ _ Hin).
      cbn [toNumber]. rewrite mul_nan. float_const.
    + unfold adjustConfidence, Spec.expectedConfidence, Spec.carriedFramework.
      rewrite Hf. change (default "" (Some f)) with f. rewrite Ht, Hp.
      unfold Spec.carriesPackage in Hp. rewrite Hp. cbn [andb].
      apply Hclamp. destruct (ErrorDetector.severity sig); reflexivity.
    + unfold adjustConfidence, Spec.expectedConfidence, Spec.carriedFramework.
      rewrite Hf. change (default "" (Some f)) with f. rewrite Ht.
      unfold Spec.carriesPackage.
      destruct (isTruthy (get "package" (params a))); cbn [andb];
        apply Hclamp; [ | destruct (ErrorDetector.severity sig); reflexivity].
      rewrite (checkFrameworkCompatibility_spec _ _ Hin).
      destruct (ErrorDetector.severity sig); reflexivity.
  - unfold adjustConfidence, Spec.expectedConfidence, Spec.carriedFramework.
    rewrite Hf. change (default "" (Some f)) with f. rewrite Ht. cbn [andb].
    apply Hclamp. destruct (ErrorDetector.severity sig); reflexivity.
  - unfold adjustConfidence, Spec.expectedConfidence, Spec.carriedFramework.
    rewrite Hf. change (truthy (default "" None)) with false. cbn [andb].
    apply Hclamp. destruct (ErrorDetector.severity sig); reflexivity.
Qed.

Lemma adjustConfidence_spec (a : RecoveryAction)
    (sig : ErrorDetector.ErrorSignature) :
  Spec.plainFramework sig ->
  adjustConfidence a sig = Spec.expectedConfidence a sig.
Proof.
  unfold Spec.plainFramework. intros Hplain.
  pose proof (adjustConfidence_cases a sig) as H.
  destruct (Spec.carriedFramework sig) as [f | ]; [ | exact H].
  now rewrite Hplain in H.
Qed.

(** ** The sorted rule table *)

Lemma insertRule_In (x r : RecoveryRule) (l : list RecoveryRule) :
  In x (insertRule r l) <-> x = r \/ In x l.
Proof.
  induction l as [|y l IH]; simpl.
  - intuition congruence.
  - destruct (priority r <=? priority y)%Z; simpl; rewrite ?IH;
      intuition congruence.
Qed.

Lemma sortRules_In (x : RecoveryRule) (rules : list RecoveryRule) :
  In x (sortRules rules) <-> In x rules.
Proof.
  unfold sortRules.
  enough (forall acc, In x (fold_left (fun s r => insertRule r s) rules acc)
                      <-> In x rules \/ In x acc) as H
    by (rewrite H; simpl; tauto).
  induction rules as [|r rules IH]; intros acc; simpl.
  - tauto.
  - rewrite IH, insertRule_In. intuition congruence.
Qed.

Lemma firstAction_Some (rules : list RecoveryRule)
    (sig : ErrorDetector.ErrorSignature) (r : RecoveryAction) :
  firstAction rules sig = Some r ->
  exists rule match_ a,
    In rule rules /\ enabled rule = true
    /\ exec (errorPattern rule) (ErrorDetector.message sig) = Some match_
    /\ actionGenerator rule match_ sig = Some a
    /\ r = withConfidence a (adjustConfidence a sig).
Proof.
  induction rules as [|rule rules IH]; simpl; [discriminate | ].
  destruct (enabled rule) eqn:En; simpl.
  - destruct (exec (errorPattern rule) (ErrorDetector.message sig))
      as [match_ | ] eqn:Ex.
    + destruct (actionGenerator rule match_ sig) as [a | ] eqn:Gen.
      * intros [= <-]. exists rule, match_, a. auto.
      * intros H. destruct (IH H) as (rule' & m' & a' & ? & ?).
        exists rule', m', a'. auto.
    + intros H. destruct (IH H) as (rule' & m' & a' & ? & ?).
      exists rule', m', a'. auto.
  - intros H. destruct (IH H) as (rule' & m' & a' & ? & ?).
    exists rule', m', a'. auto.
Qed.

Lemma firstAction_None (rules : list RecoveryRule)
    (sig : ErrorDetector.ErrorSignature) :
  Forall (fun rule =>
            enabled rule = true ->
            exec (errorPattern rule) (ErrorDetector.message sig) = None)
    rules ->
  firstAction rules sig = None.
Proof.
  induction 1 as [|rule rules Hr _ IH]; simpl; [reflexivity | ].
  destruct (enabled rule); simpl; [|exact IH].
  now rewrite Hr.
Qed.

(** ** The confidences of the built-in rules *)

Lemma builtin_confidence (rule : RecoveryRule) (match_ : MatchArray)
    (sig : ErrorDetector.ErrorSignature) (a : RecoveryAction) :
  Spec.builtinGenerator rule ->
  actionGenerator rule match_ sig = Some a ->
  In (confidence a) Spec.baseConfidences.
Proof.
  unfold Spec.builtinGenerator, Spec.builtinRules. simpl.
  intros H Gen.
  repeat (destruct H as [H|H];
          [rewrite <- H in Gen; simpl in Gen;
           repeat match type of Gen with
                  | context [if ?b then _ else _] => destruct b
                  end;
           injection Gen as <-; simpl; tauto | ]).
  destruct H.
Qed.

Lemma expected_inRange (a : RecoveryAction)
    (sig : ErrorDetector.ErrorSignature) :
  In (confidence a) Spec.baseConfidences ->
  Spec.inRange (Spec.expectedConfidence a sig).
Proof.
  intros Hc.
  unfold Spec.expectedConfidence, Spec.frameworkFactor.
  apply clamp_inRange.
  destruct (Spec.carriedFramework sig) as [f | ];
    [destruct (Spec.carriesPackage a);
     [destruct (ErrorDetector.in_list f Spec.knownFrameworks) | ] | ];
    destruct (ErrorDetector.severity sig); simpl in Hc;
    repeat (destruct Hc as [<-|Hc]; [float_const | ]); destruct Hc.
Qed.

Lemma adjust_inRange (a : RecoveryAction) (sig : ErrorDetector.ErrorSignature) :
  In (confidence a) Spec.baseConfidences ->
  Spec.plainFramework sig ->
  Spec.inRange (adjustConfidence a sig).
Proof.
  intros Hc Hplain. rewrite (adjustConfidence_spec a sig Hplain).
  now apply expected_inRange.
Qed.

(** Without the restriction, the adjusted confidence is in the range or
    NaN. *)
Lemma adjust_inRange_or_nan (a : RecoveryAction)
    (sig : ErrorDetector.ErrorSignature) :
  In (confidence a) Spec.baseConfidences ->
  Spec.inRange (adjustConfidence a sig)
  \/ adjustConfidence a sig = PrimFloat.nan.
Proof.
  intros Hc. pose proof (adjustConfidence_cases a sig) as H.
  destruct (Spec.carriedFramework sig) as [f | ];
    [destruct (_ && _); [now right | ] | ];
    left; rewrite H; now apply expected_inRange.
Qed.

Lemma suggest_left_pad (sig : ErrorDetector.ErrorSignature) :
  ErrorDetector.message sig = "Cannot find module 'left-pad'" ->
  getRecoveryAction (initialize new) sig
  = Some (withConfidence Spec.leftPadAction (adjustConfidence Spec.leftPadAction sig)).
Proof.
  destruct sig; simpl; intros ->. vm_compute. reflexivity.
Qed.

(** With a known framework, or none, a high severity leaves 0.95. *)
Lemma expected_left_pad (sig : ErrorDetector.ErrorSignature) :
  ErrorDetector.severity sig = ErrorDetector.high ->
  match ErrorDetector.framework (ErrorDetector.context sig) with
  | Some f => ErrorDetector.in_list f Spec.knownFrameworks = true
  | None => True
  end ->
  PrimFloat.leb 0.8%float (adjustConfidence Spec.leftPadAction sig) = true.
Proof.
  intros Hsev Hfw. rewrite adjustConfidence_spec.
  2: { unfold Spec.plainFramework, Spec.carriedFramework.
       destruct (ErrorDetector.framework (ErrorDetector.context sig))
         as [f | ]; [ | exact I].
       destruct (truthy f); [now apply known_is_plain | exact I]. }
  unfold Spec.expectedConfidence, Spec.carriedFramework, Spec.frameworkFactor.
  rewrite Hsev.
  destruct (ErrorDetector.framework (ErrorDetector.context sig)) as [f | ];
    [ | float_const].
  destruct (truthy f); [ | float_const].
  change (Spec.carriesPackage Spec.leftPadAction) with true. cbv iota.
  rewrite Hfw. float_const.
Qed.

(** ** The engine at work *)

Example sorted_priorities :
  map priority (sortRules (recoveryRules (initialize new)))
  = [3; 3; 2; 2; 2; 2; 2; 1; 1; 1]%Z.
Proof. reflexivity. Qed.

(** A low severity lifts 0.95 above the range: 0.95 x 1.2 is clamped. *)
Example low_severity_is_clamped :
  confidence
    <$> getRecoveryAction (initialize new)
          (Spec.sampleSignature "Cannot find module 'left-pad'"
             ErrorDetector.low None)
  = Some 1.0%float.
Proof. vm_compute. reflexivity. Qed.

(** A compiler error in the module-resolution range, and one outside. *)
Example typescript_codes :
  action
    <$> getRecoveryAction (initialize new)
          (Spec.sampleSignature "error TS2307:" ErrorDetector.high None)
  = Some "fix_typescript_config"
  /\ action
       <$> getRecoveryAction (initialize new)
             (Spec.sampleSignature "error TS1005:" ErrorDetector.high None)
     = Some "fix_typescript_errors".
Proof. split; vm_compute; reflexivity. Qed.

End EngineFacts.

(* ------------------------------------------------------------------ *)
(** * The Error Classifier: which rule answers *)
(* ------------------------------------------------------------------ *)

Module DetectorFacts.
Import JS ErrorDetector.

(** The framework of an extracted context is one of the known ones. *)
Lemma extractContext_framework (output : string) :
  match framework (extractContext output) with
  | Some f => in_list f Spec.knownFrameworks = true
  | None => True
  end.
Proof.
  unfold extractContext; simpl.
  repeat match goal with
         | |- context [if ?b then _ else _] => destruct b; [reflexivity | ]
         end.
  exact I.
Qed.

(** The greedy group of the position pattern gives back what the two
    numbers after it need. *)
Example position_in_a_stack_line :
  exec filePattern "    at build (/srv/app/index.js:10:3)"
  = Some ["at build (/srv/app/index.js:10:3"; "build (/srv/app/index.js";
          "10"; "3"].
Proof. vm_compute. reflexivity. Qed.

Example normalize_a_line :
  normalize "  Error at line 42 in /usr/lib/x.js:33 after 1500ms  "
  = "error at line 0 in /path after 0ms".
Proof. vm_compute. reflexivity. Qed.

(** The table answers in its order: [missing_dependency] stands before
    [import_error] and before [docker_error]. *)
Example first_rule_answers :
  fst <$> firstMatch (errorPatterns (initialize new))
            "docker error: Cannot find module 'x'"
  = Some "missing_dependency".
Proof. vm_compute. reflexivity. Qed.

Section WithHash.
Variable sha256_hex : string -> string.

(** Whatever answers, the hash is the hash of the combined output. *)
Lemma detectError_hash (d : ErrorDetector) (stderr stdout : string)
    (sig : ErrorSignature) :
  detectError sha256_hex d stderr stdout = Some sig ->
  hash sig = generateErrorHash sha256_hex (stderr +:+ nl +:+ stdout).
Proof.
  unfold detectError.
  destruct (initialized d); simpl; [ | discriminate].
  destruct (firstMatch _ _) as [[errorType match_] | ].
  - intros [= <-]. unfold createErrorSignature.
    repeat match goal with
           | |- context [if ?b then _ else _] => destruct b
           end;
      destruct (findFileLine _); reflexivity.
  - destruct (truthy (trim stderr)); [ | discriminate].
    intros [= <-]. reflexivity.
Qed.

(** The table in front of an entry does not match, and the entry does:
    the entry answers. *)
Lemma firstMatch_app (pre post : PatternMap) (name : string) (p : RegExp)
    (output : string) (match_ : MatchArray) :
  Forall (fun kv => exec (snd kv) output = None) pre ->
  exec p output = Some match_ ->
  firstMatch (pre ++ (name, p) :: post) output = Some (name, match_).
Proof.
  induction 1 as [ | [k v] pre Hkv _ IH]; simpl; intros Hp.
  - now rewrite Hp.
  - simpl in Hkv. rewrite Hkv. auto.
Qed.

Lemma firstMatch_None (patterns : PatternMap) (output : string) :
  firstMatch patterns output = None
  <-> Forall (fun kv => exec (snd kv) output = None) patterns.
Proof.
  induction patterns as [ | [k v] patterns IH]; simpl.
  - split; auto.
  - destruct (exec v output) eqn:E.
    + split; [discriminate | ]. inversion 1; simpl in *; congruence.
    + rewrite IH. split; [constructor; auto | inversion 1; auto].
Qed.

(** The module that cannot be found, whatever the standard output. *)
Lemma detect_left_pad (stdout : string) :
  let stderr := "Cannot find module 'left-pad'" in
  let full := stderr +:+ nl +:+ stdout in
  detectError sha256_hex (initialize new) stderr stdout
  = Some (createErrorSignature sha256_hex "missing_dependency"
            ["Cannot find module 'left-pad'"; "left-pad"]
            full (split LF full)).
Proof.
  intros stderr full. unfold detectError.
  change (initialized (initialize new)) with true. simpl negb. cbv iota.
  match goal with
  | |- context [firstMatch ?p ?o] =>
      assert (firstMatch p o
              = Some ("missing_dependency",
                      ["Cannot find module 'left-pad'"; "left-pad"])) as ->
        by (vm_compute; reflexivity)
  end.
  reflexivity.
Qed.

End WithHash.

End DetectorFacts.

(* ------------------------------------------------------------------ *)
(** * The Error Classifier: the hash and the normalized text *)
(* ------------------------------------------------------------------ *)

Module HashFacts.
Import JS ErrorDetector.

Lemma append_cons (c : ascii) (s t : string) :
  String c s +:+ t = String c (s +:+ t).
Proof. reflexivity. Qed.

Lemma append_nil (t : string) : EmptyString +:+ t = t.
Proof. reflexivity. Qed.

Lemma append_nil_r (t : string) : t +:+ EmptyString = t.
Proof. induction t as [ | c t IH]; [reflexivity | ]. now rewrite append_cons, IH. Qed.

Lemma append_assoc (a b c : string) : (a +:+ b) +:+ c = a +:+ b +:+ c.
Proof.
  induction a as [ | x a IH]; [reflexivity | ].
  rewrite !append_cons. now rewrite IH.
Qed.

(** A greedy star in front of the end of the pattern takes the whole run. *)
Lemma star_final (p : ascii -> bool) (s : string) (pos : nat)
    (caps : captures) :
  star false p s pos caps (fun _ e c => Some (e, c))
  = Some (pos + Spec.runLength p s, caps).
Proof.
  revert pos. induction s as [ | c s IH]; intros pos; simpl.
  - now rewrite Nat.add_0_r.
  - destruct (p c).
    + rewrite IH. now rewrite Nat.add_succ_r.
    + now rewrite Nat.add_0_r.
Qed.

Lemma matchAt_digits (c : ascii) (s : string) :
  matchAt digitsPattern (String c s) 0
  = if isDigit c then Some (S (Spec.runLength isDigit s), []) else None.
Proof.
  unfold matchAt, digitsPattern, re, Plus.
  cbn [m source ignoreCase seq chr_eq cls_in].
  destruct (isDigit c); [ | reflexivity].
  now rewrite star_final.
Qed.

Lemma matchAt_path (c : ascii) (s : string) :
  matchAt pathPattern (String c s) 0
  = if Ascii.eqb c "/"%char && negb (Spec.tokenEnd s)
    then Some (S (Spec.runLength notSpace s), [])
    else None.
Proof.
  unfold matchAt, pathPattern, re, Plus.
  cbn [m source ignoreCase seq chr_eq cls_in].
  rewrite (Ascii.eqb_sym "/"%char c).
  destruct (Ascii.eqb c "/"%char); [ | reflexivity]. cbn [andb].
  destruct s as [ | c2 s2]; [reflexivity | ].
  cbn [Spec.tokenEnd Spec.runLength]. unfold notSpace at 1 3.
  destruct (isSpace c2); [reflexivity | ]. cbn [negb].
  now rewrite star_final.
Qed.

(** [replace(/\d+/g, '0')] squeezes the digit runs. *)
Lemma replace_digits (s : string) :
  replaceFrom digitsPattern "0" s 0 = Spec.squeezeDigits false s
  /\ replaceFrom digitsPattern "0" s (Spec.runLength isDigit s)
     = Spec.squeezeDigits true s.
Proof.
  induction s as [ | c s [IH0 IHrun]]; [split; reflexivity | ].
  assert (replaceFrom digitsPattern "0" (String c s) 0
          = Spec.squeezeDigits false (String c s)) as H0.
  { cbn [replaceFrom]. rewrite matchAt_digits. cbn [Spec.squeezeDigits].
    destruct (isDigit c).
    - now rewrite IHrun.
    - now rewrite IH0. }
  split; [exact H0 | ].
  cbn [Spec.runLength Spec.squeezeDigits]. destruct (isDigit c) eqn:Hc.
  - cbn [replaceFrom]. exact IHrun.
  - rewrite H0. cbn [Spec.squeezeDigits]. now rewrite Hc.
Qed.

Lemma slash_not_space (c : ascii) :
  Ascii.eqb c "/"%char = true -> isSpace c = false.
Proof. intros ->%Ascii.eqb_eq. reflexivity. Qed.

(** [replace(/\/[^\s]+/g, '/path')] masks the path-like tokens. *)
Lemma replace_paths (s : string) :
  replaceFrom pathPattern "/path" s 0 = Spec.maskPaths false s
  /\ replaceFrom pathPattern "/path" s (Spec.runLength notSpace s)
     = Spec.maskPaths true s.
Proof.
  induction s as [ | c s [IH0 IHrun]]; [split; reflexivity | ].
  assert (replaceFrom pathPattern "/path" (String c s) 0
          = Spec.maskPaths false (String c s)) as H0.
  { cbn [replaceFrom]. rewrite matchAt_path. cbn [Spec.maskPaths].
    destruct (Ascii.eqb c "/"%char && negb (Spec.tokenEnd s)).
    - now rewrite IHrun.
    - now rewrite IH0. }
  split; [exact H0 | ].
  cbn [Spec.runLength Spec.maskPaths]. unfold notSpace at 1.
  destruct (isSpace c) eqn:Hc; cbn [negb].
  - rewrite H0. cbn [Spec.maskPaths].
    destruct (Ascii.eqb c "/"%char) eqn:Hs; [ | reflexivity].
    apply slash_not_space in Hs. congruence.
  - cbn [replaceFrom]. exact IHrun.
Qed.

(** ** Digit runs *)

Lemma squeeze_app (b : bool) (x z : string) :
  Spec.squeezeDigits b (x +:+ z)
  = Spec.squeezeDigits b x +:+ Spec.squeezeDigits (Spec.endsInDigit b x) z.
Proof.
  revert b. induction x as [ | c x IH]; intros b; [reflexivity | ].
  rewrite append_cons. cbn [Spec.squeezeDigits Spec.endsInDigit].
  destruct (isDigit c); [destruct b | ]; rewrite IH; reflexivity.
Qed.

Lemma squeeze_run (b : bool) (d y : string) :
  Spec.digitRun d = true ->
  Spec.squeezeDigits b (d +:+ y)
  = (if b then EmptyString else "0") +:+ Spec.squeezeDigits true y.
Proof.
  unfold Spec.digitRun. destruct d as [ | c d]; [discriminate | ]. simpl truthy.
  cbn [andb]. revert b c. induction d as [ | c' d IH]; intros b c.
  - cbn [Spec.every]. rewrite andb_true_r. intros Hc.
    rewrite append_cons, append_nil. cbn [Spec.squeezeDigits]. rewrite Hc.
    destruct b; reflexivity.
  - cbn [Spec.every]. intros [Hc Hd]%andb_true_iff.
    rewrite append_cons. cbn [Spec.squeezeDigits]. rewrite Hc.
    rewrite (IH true c' Hd). destruct b; reflexivity.
Qed.

Lemma squeeze_digits_same (x d1 d2 y : string) :
  Spec.digitRun d1 = true -> Spec.digitRun d2 = true ->
  Spec.squeezeDigits false (x +:+ d1 +:+ y)
  = Spec.squeezeDigits false (x +:+ d2 +:+ y).
Proof.
  intros H1 H2.
  rewrite (squeeze_app false x (d1 +:+ y)), (squeeze_app false x (d2 +:+ y)).
  now rewrite (squeeze_run _ d1 y H1), (squeeze_run _ d2 y H2).
Qed.

(** ** Path-like tokens *)

Lemma space_not_digit (c : ascii) : isSpace c = true -> isDigit c = false.
Proof.
  unfold isSpace, isDigit, in_range.
  destruct (code c) as [ | p]; [reflexivity | ].
  intros H. destruct (48 <=? N.pos p)%N eqn:H1; [ | reflexivity].
  destruct (N.pos p <=? 57)%N eqn:H2; [ | reflexivity].
  apply N.leb_le in H1, H2.
  apply orb_true_iff in H as [H | H%N.eqb_eq]; [ | lia].
  apply orb_true_iff in H as [H | H%N.eqb_eq]; [ | lia].
  apply andb_true_iff in H as [_ H%N.leb_le]. lia.
Qed.

Lemma squeeze_tokenEnd (b : bool) (y : string) :
  Spec.tokenEnd y = true ->
  Spec.squeezeDigits b y = Spec.squeezeDigits false y
  /\ Spec.tokenEnd (Spec.squeezeDigits false y) = true.
Proof.
  destruct y as [ | c y]; [split; reflexivity | ].
  cbn [Spec.tokenEnd Spec.squeezeDigits]. intros Hc.
  rewrite (space_not_digit c Hc). split; [reflexivity | exact Hc].
Qed.

Lemma squeeze_notSpace (b : bool) (t : string) :
  Spec.every notSpace t = true ->
  Spec.every notSpace (Spec.squeezeDigits b t) = true.
Proof.
  revert b. induction t as [ | c t IH]; intros b; [reflexivity | ].
  cbn [Spec.every Spec.squeezeDigits]. intros [Hc Ht]%andb_true_iff.
  destruct (isDigit c); [destruct b | ]; cbn [Spec.every];
    rewrite ?Hc, IH by exact Ht; reflexivity.
Qed.

Lemma squeeze_truthy (t : string) :
  truthy t = true -> truthy (Spec.squeezeDigits false t) = true.
Proof.
  destruct t as [ | c t]; [discriminate | ]. intros _.
  cbn [Spec.squeezeDigits]. destruct (isDigit c); reflexivity.
Qed.

Lemma slash_not_digit (c : ascii) :
  Ascii.eqb c "/"%char = true -> isDigit c = false.
Proof. intros ->%Ascii.eqb_eq. reflexivity. Qed.

(** Squeezing the digits of a text around a token leaves a token there. *)
Lemma squeeze_token (x t y : string) :
  Spec.pathToken t = true -> Spec.tokenEnd y = true ->
  exists t',
    Spec.pathToken t' = true
    /\ Spec.tokenEnd (Spec.squeezeDigits false y) = true
    /\ Spec.squeezeDigits false (x +:+ t +:+ y)
       = Spec.squeezeDigits false x +:+ t' +:+ Spec.squeezeDigits false y.
Proof.
  intros Ht Hy. destruct t as [ | c t]; [discriminate | ].
  cbn [Spec.pathToken] in Ht.
  apply andb_true_iff in Ht as [[Hc Hne]%andb_true_iff Hns].
  exists (String c (Spec.squeezeDigits false t)).
  destruct (squeeze_tokenEnd (Spec.endsInDigit (Spec.endsInDigit false x) (String c t))
              y Hy) as [Hy1 Hy2].
  split; [ | split; [exact Hy2 | ] ].
  - cbn [Spec.pathToken].
    now rewrite Hc, (squeeze_truthy t Hne), (squeeze_notSpace false t Hns).
  - rewrite (squeeze_app false x), (squeeze_app _ (String c t) y), Hy1.
    cbn [Spec.squeezeDigits]. now rewrite (slash_not_digit c Hc).
Qed.

Lemma mask_skip (t y : string) :
  Spec.every notSpace t = true ->
  Spec.maskPaths true (t +:+ y) = Spec.maskPaths true y.
Proof.
  induction t as [ | c t IH]; [reflexivity | ].
  cbn [Spec.every]. unfold notSpace at 1.
  intros [Hc Ht]%andb_true_iff. rewrite append_cons. cbn [Spec.maskPaths].
  apply negb_true_iff in Hc. rewrite Hc. auto.
Qed.

Lemma mask_token (b : bool) (t y : string) :
  Spec.pathToken t = true ->
  Spec.maskPaths b (t +:+ y)
  = (if b then EmptyString else "/path") +:+ Spec.maskPaths true y.
Proof.
  destruct t as [ | c t]; [discriminate | ]. cbn [Spec.pathToken].
  intros [[Hc Hne]%andb_true_iff Hns]%andb_true_iff.
  rewrite append_cons. cbn [Spec.maskPaths].
  rewrite Hc, (slash_not_space c Hc).
  destruct t as [ | c2 t]; [discriminate | ].
  rewrite append_cons. cbn [Spec.tokenEnd].
  rewrite <- append_cons, (mask_skip _ y Hns).
  cbn [Spec.every] in Hns. unfold notSpace at 1 in Hns.
  apply andb_true_iff in Hns as [Hc2 _]. rewrite Hc2.
  destruct b; reflexivity.
Qed.

Lemma tokenEnd_before_token (x t1 t2 y : string) :
  Spec.pathToken t1 = true -> Spec.pathToken t2 = true ->
  Spec.tokenEnd (x +:+ t1 +:+ y) = Spec.tokenEnd (x +:+ t2 +:+ y).
Proof.
  intros H1 H2. destruct x as [ | c x]; [ | reflexivity].
  destruct t1 as [ | c1 t1], t2 as [ | c2 t2]; try discriminate.
  cbn [Spec.pathToken] in H1, H2.
  apply andb_true_iff in H1 as [[H1 _]%andb_true_iff _].
  apply andb_true_iff in H2 as [[H2 _]%andb_true_iff _].
  rewrite !append_nil, !append_cons. cbn [Spec.tokenEnd].
  now rewrite (slash_not_space _ H1), (slash_not_space _ H2).
Qed.

Lemma mask_paths_same (x t1 t2 y : string) (b : bool) :
  Spec.pathToken t1 = true -> Spec.pathToken t2 = true ->
  Spec.maskPaths b (x +:+ t1 +:+ y) = Spec.maskPaths b (x +:+ t2 +:+ y).
Proof.
  intros H1 H2. revert b. induction x as [ | c x IH]; intros b.
  - rewrite !append_nil.
    now rewrite (mask_token b t1 y H1), (mask_token b t2 y H2).
  - rewrite !append_cons. cbn [Spec.maskPaths].
    rewrite (tokenEnd_before_token x t1 t2 y H1 H2).
    now rewrite !IH.
Qed.

(** ** The normalized text *)

Lemma normalize_spec (content : string) :
  normalize content
  = trim (toLowerCase
            (replaceAll atLinePattern "at line 0"
               (Spec.maskPaths false (Spec.squeezeDigits false content)))).
Proof.
  unfold normalize, replaceAll.
  rewrite (proj1 (replace_digits content)).
  now rewrite (proj1 (replace_paths _)).
Qed.

(** Texts of the same shape have the same normalized text. *)
Lemma sameShape_normalize (a b : string) :
  Spec.sameShape a b -> normalize a = normalize b.
Proof.
  induction 1 as [s | x d1 d2 y H1 H2 | x t1 t2 y H1 H2 Hy | a b c _ IH1 _ IH2].
  - reflexivity.
  - rewrite !normalize_spec. now rewrite (squeeze_digits_same x d1 d2 y H1 H2).
  - rewrite !normalize_spec.
    destruct (squeeze_token x t1 y H1 Hy) as (t1' & Ht1 & _ & ->).
    destruct (squeeze_token x t2 y H2 Hy) as (t2' & Ht2 & _ & ->).
    now rewrite (mask_paths_same _ t1' t2' _ false Ht1 Ht2).
  - congruence.
Qed.

(** ** The shape of the combined output *)

Lemma tokenEnd_app (y z : string) :
  Spec.tokenEnd y = true -> Spec.tokenEnd z = true ->
  Spec.tokenEnd (y +:+ z) = true.
Proof. destruct y; auto. Qed.

Lemma sameShape_app_r (a a' z : string) :
  Spec.tokenEnd z = true ->
  Spec.sameShape a a' -> Spec.sameShape (a +:+ z) (a' +:+ z).
Proof.
  intros Hz. induction 1 as [s | x d1 d2 y H1 H2 | x t1 t2 y H1 H2 Hy | a b c _ IH1 _ IH2].
  - constructor.
  - rewrite !append_assoc. now apply Spec.same_digits.
  - rewrite !append_assoc. apply Spec.same_path; auto using tokenEnd_app.
  - eapply Spec.same_trans; eauto.
Qed.

Lemma sameShape_app_l (p b b' : string) :
  Spec.sameShape b b' -> Spec.sameShape (p +:+ b) (p +:+ b').
Proof.
  induction 1 as [s | x d1 d2 y H1 H2 | x t1 t2 y H1 H2 Hy | a b c _ IH1 _ IH2].
  - constructor.
  - rewrite <- !(append_assoc p x). now apply Spec.same_digits.
  - rewrite <- !(append_assoc p x). now apply Spec.same_path.
  - eapply Spec.same_trans; eauto.
Qed.

(** The standard error, a line feed, the standard output. *)
Lemma sameShape_combined (stderr1 stderr2 stdout1 stdout2 : string) :
  Spec.sameShape stderr1 stderr2 -> Spec.sameShape stdout1 stdout2 ->
  Spec.sameShape (stderr1 +:+ nl +:+ stdout1) (stderr2 +:+ nl +:+ stdout2).
Proof.
  intros He Ho. apply Spec.same_trans with (stderr2 +:+ nl +:+ stdout1).
  - apply sameShape_app_r; [reflexivity | exact He].
  - rewrite <- !(append_assoc stderr2). now apply sameShape_app_l.
Qed.

End HashFacts.

(* ------------------------------------------------------------------ *)
(** * The Process Supervisor: how a run settles *)
(* ------------------------------------------------------------------ *)

Module RunnerFacts.
Import JS CommandRunner.

Lemma deliver_app (a b : Trace) (r : CommandRunner) (run : Run) :
  deliver (a ++ b) r run
  = let '(r', run') := deliver a r run in deliver b r' run'.
Proof.
  revert r run. induction a as [ | [now ev] a IH]; intros r run; simpl.
  - reflexivity.
  - destruct (handle now ev r run) as [r' run']. apply IH.
Qed.

(** Output is collected, and nothing else of the run changes, while the
    child neither closes nor fails. *)
Lemma deliver_quiet (pre : Trace) (r : CommandRunner) (run : Run) :
  Spec.quiet pre = true ->
  exists r',
    deliver pre r run
    = (r', mkRun (processId run) (command run) (args run) (startTime run)
             (stdout_ run +:+ Spec.stdoutOf pre)
             (stderr_ run +:+ Spec.stderrOf pre) (promise run))
    /\ errorListeners r' = errorListeners r
    /\ uncaught r' = uncaught r.
Proof.
  revert r run. induction pre as [ | [now ev] pre IH]; intros r run Hq.
  - exists r. simpl. destruct run; simpl.
    rewrite !(HashFacts.append_nil_r). auto.
  - simpl in Hq. apply andb_true_iff in Hq as [Hev Hq].
    destruct ev as [data | data | code signal | message | code signal];
      try discriminate; simpl;
      match goal with
      | |- context [deliver pre ?r1 ?run1] =>
          destruct (IH r1 run1 Hq) as (r' & -> & Hl & Hu)
      end; exists r'; simpl in *;
      rewrite ?HashFacts.append_assoc; auto.
Qed.

(** A settled promise stays as it is. *)
Lemma deliver_settled (t : Trace) (r : CommandRunner) (run : Run) :
  promise run <> Pending ->
  promise (snd (deliver t r run)) = promise run.
Proof.
  revert r run. induction t as [ | [now ev] t IH]; intros r run Hp;
    [reflexivity | ].
  simpl. destruct (handle now ev r run) as [r' run'] eqn:Hh.
  assert (promise run' = promise run) as Hsame.
  { destruct ev; simpl in Hh; unfold onClose, onError in Hh;
      try destruct (errorListeners _); injection Hh as <- <-; simpl;
      try reflexivity; destruct (promise run); simpl; congruence. }
  rewrite IH by congruence. exact Hsame.
Qed.

(** While the child neither closes nor fails, the runner emits one event
    for each chunk of output, in the order of arrival. *)
Lemma deliver_quiet_emitted (pre : Trace) (r : CommandRunner) (run : Run) :
  Spec.quiet pre = true ->
  emitted (fst (deliver pre r run))
  = emitted r ++ Notions.forwarded (processId run) (command run) pre.
Proof.
  revert r run. induction pre as [ | [now ev] pre IH]; intros r run Hq.
  - cbn. now rewrite app_nil_r.
  - unfold Spec.quiet in Hq. cbn [forallb snd] in Hq.
    apply andb_true_iff in Hq as [Hev Hq].
    destruct ev as [data | data | code signal | message | code signal];
      try discriminate; cbn [deliver handle Notions.forwarded];
      rewrite (IH _ _ Hq); cbn [processId command emit emitted];
      rewrite <- ?app_assoc; reflexivity.
Qed.

Lemma trace_not_nil (pre post : Trace) (e : Z * ChildEvent) :
  pre ++ e :: post <> [].
Proof. intros H. symmetry in H. exact (app_cons_not_nil _ _ _ H). Qed.

(** A run with a child: the command is one that [spawn] accepts, or the
    child has left an event. *)
Lemma execute_with_child (r : CommandRunner) (command : string)
    (args : list string) (cwd : string) (options : CommandOptions) (now : Z)
    (t : Trace) :
  command <> EmptyString \/ t <> [] ->
  execute r command args cwd options now t
  = (fst (deliver t (fst (spawn r command args now))
            (snd (spawn r command args now))),
     promise (snd (deliver t (fst (spawn r command args now))
                     (snd (spawn r command args now))))).
Proof.
  intros H. unfold execute, spawnThrows.
  destruct (String.eqb_spec command EmptyString) as [-> | Hc].
  - destruct t as [ | e t]; [destruct H; congruence | ].
    destruct (spawn r EmptyString args now) as [r1 run1]. cbn [fst snd].
    now destruct (deliver (e :: t) r1 run1).
  - destruct (spawn r command args now) as [r1 run1]. cbn [fst snd].
    now destruct (deliver t r1 run1).
Qed.

Lemma execute_with_child_let (r : CommandRunner) (command : string)
    (args : list string) (cwd : string) (options : CommandOptions) (now : Z)
    (t : Trace) :
  command <> EmptyString \/ t <> [] ->
  execute r command args cwd options now t
  = (let '(r, run) := spawn r command args now in
     let '(r, run) := deliver t r run in
     (r, promise run)).
Proof.
  intros H. rewrite (execute_with_child _ _ _ _ _ _ _ H).
  destruct (spawn r command args now) as [r1 run1]. cbn [fst snd].
  now destruct (deliver t r1 run1).
Qed.

(** A run without a child: [spawn] refuses the empty command. *)
Lemma execute_without_child (r : CommandRunner) (args : list string)
    (cwd : string) (options : CommandOptions) (now : Z) :
  execute r EmptyString args cwd options now []
  = (countOnly r, Rejected "The argument 'file' cannot be empty. Received ''").
Proof. reflexivity. Qed.

(** The streaming variant hands out the identifier of the run and settles
    its inner promise as [execute] settles its promise. *)
Lemma executeWithStream_promise (r : CommandRunner) (command : string)
    (args : list string) (cwd : string) (options : CommandOptions) (now : Z)
    (t : Trace) :
  command <> EmptyString \/ t <> [] ->
  snd (executeWithStream r command args cwd options now t)
  = Fulfilled (processId (snd (spawn r command args now)),
               snd (execute r command args cwd options now t)).
Proof.
  intros H. rewrite (execute_with_child _ _ _ _ _ _ _ H).
  unfold executeWithStream, spawnThrows.
  destruct (String.eqb_spec command EmptyString) as [-> | Hc].
  - destruct t as [ | e t]; [destruct H; congruence | ].
    destruct (spawn r EmptyString args now) as [r1 run1]. cbn [fst snd].
    now destruct (deliver (e :: t) r1 run1).
  - destruct (spawn r command args now) as [r1 run1]. cbn [fst snd].
    now destruct (deliver t r1 run1).
Qed.

End RunnerFacts.

(* ------------------------------------------------------------------ *)
(** * The Deployment Workflow: the building phase *)
(* ------------------------------------------------------------------ *)

Module WorkflowFacts.
Import JS DeploymentWorkflow.

(** Emitting an event and running a command leave the classifier and the
    engine as they were. *)
Lemma emit_execute_keeps_engines (e : Event) (command : string)
    (args : list string) (cwd : string)
    (options : CommandRunner.CommandOptions)
    (w w1 : DeploymentWorkflow) (result : CommandRunner.CommandResult) :
  bind (emit e) (fun _ => execute command args cwd options) w
  = (Done result, w1) ->
  errorDetector w1 = errorDetector w
  /\ recoveryEngine w1 = recoveryEngine w
  /\ activeTasks w1 = activeTasks w
  /\ database w1 = database w.
Proof.
  unfold bind, emit, execute. cbn [clock children commandRunner hd tl].
  match goal with
  | |- context [CommandRunner.execute ?r ?c ?a ?d ?o ?n ?t] =>
      destruct (CommandRunner.execute r c a d o n t) as [runner p]
  end.
  destruct p; intros [= <- <-]; cbn; auto.
Qed.

(** [executeRecoveryAction] on an action it has no case for: the warning
    is logged, and nothing else is done. *)
Lemma executeRecoveryAction_no_case (taskId : string)
    (a : RecoveryEngine.RecoveryAction) (w : DeploymentWorkflow)
    (task : Task.t) (project : Project.t) :
  activeTasks w !! taskId = Some task ->
  DatabaseService.getProject (Task.projectId task) (database w)
  = inr (Some project) ->
  RecoveryEngine.action a <> "install_dependency" ->
  RecoveryEngine.action a <> "clear_cache" ->
  RecoveryEngine.action a <> "retry_with_clean" ->
  executeRecoveryAction taskId a w = (Done tt, w).
Proof.
  intros Htask Hproject Hi Hc Hr. unfold executeRecoveryAction.
  unfold bind at 1. unfold getActive at 1. rewrite Htask.
  unfold bind at 1. unfold getProject at 1. rewrite Hproject.
  apply String.eqb_neq in Hi, Hc, Hr. now rewrite Hi, Hc, Hr.
Qed.

End WorkflowFacts.

(* ------------------------------------------------------------------ *)
(** * The properties of the specification *)
(* ------------------------------------------------------------------ *)

Module Claims.
Import JS.

(** ** The Error Classifier *)

(** C2: the hash of a signature is a function of the normalized combined
    output.  Two inputs whose standard error and standard output are
    identical, or differ only in digit runs or in path-like tokens, and
    that both get a signature, get signatures with the same hash. *)
Theorem C2_hash_is_stable (sha256_hex : string -> string)
    (d : ErrorDetector.ErrorDetector)
    (stderr1 stdout1 stderr2 stdout2 : string)
    (sig1 sig2 : ErrorDetector.ErrorSignature) :
  Spec.sameShape stderr1 stderr2 ->
  Spec.sameShape stdout1 stdout2 ->
  ErrorDetector.detectError sha256_hex d stderr1 stdout1 = Some sig1 ->
  ErrorDetector.detectError sha256_hex d stderr2 stdout2 = Some sig2 ->
  ErrorDetector.hash sig1 = ErrorDetector.hash sig2.
Proof.
  intros He Ho H1 H2.
  rewrite (DetectorFacts.detectError_hash _ _ _ _ _ H1),
    (DetectorFacts.detectError_hash _ _ _ _ _ H2).
  unfold ErrorDetector.generateErrorHash.
  now rewrite (HashFacts.sameShape_normalize _ _
                 (HashFacts.sameShape_combined _ _ _ _ He Ho)).
Qed.

(** C2: line 42 of a file under one directory, line 7 of a file under
    another. *)
Lemma C2_hash_witness :
  exists sig1 sig2,
    ErrorDetector.detectError (fun s => s)
      (ErrorDetector.initialize ErrorDetector.new)
      "SyntaxError: boom at line 42 in /home/ann/app/index.js" "built 3 files"
    = Some sig1
    /\ ErrorDetector.detectError (fun s => s)
         (ErrorDetector.initialize ErrorDetector.new)
         "SyntaxError: boom at line 7 in /srv/build/index.js" "built 12 files"
       = Some sig2
    /\ ErrorDetector.hash sig1 = ErrorDetector.hash sig2.
Proof.
  eexists. eexists. split; [vm_compute; reflexivity | ].
  split; [vm_compute; reflexivity | ].
  apply (C2_hash_is_stable (fun s => s)
           (ErrorDetector.initialize ErrorDetector.new)
           "SyntaxError: boom at line 42 in /home/ann/app/index.js"
           "built 3 files"
           "SyntaxError: boom at line 7 in /srv/build/index.js"
           "built 12 files").
  - apply Spec.same_trans
      with "SyntaxError: boom at line 7 in /home/ann/app/index.js".
    + exact (Spec.same_digits "SyntaxError: boom at line " "42" "7"
               " in /home/ann/app/index.js" eq_refl eq_refl).
    + exact (Spec.same_path "SyntaxError: boom at line 7 in "
               "/home/ann/app/index.js" "/srv/build/index.js" ""
               eq_refl eq_refl eq_refl).
  - exact (Spec.same_digits "built " "3" "12" " files" eq_refl eq_refl).
  - vm_compute. reflexivity.
  - vm_compute. reflexivity.
Defined.

(** C9, as stated, fails: no rule matches a standard error whose first
    line is empty and whose second is [boom]; the message of the generic
    signature is then [Unknown error], not the first non-empty line. *)
Lemma C9_message_is_not_the_first_non_empty_line :
  ErrorDetector.firstMatch
    (ErrorDetector.errorPatterns (ErrorDetector.initialize ErrorDetector.new))
    ((ErrorDetector.nl +:+ "boom") +:+ ErrorDetector.nl +:+ "") = None
  /\ trim (ErrorDetector.nl +:+ "boom") = "boom"
  /\ Spec.firstNonEmptyLine (ErrorDetector.nl +:+ "boom") = Some "boom"
  /\ ErrorDetector.message
       <$> ErrorDetector.detectError (fun s => s)
             (ErrorDetector.initialize ErrorDetector.new)
             (ErrorDetector.nl +:+ "boom") ""
     = Some "Unknown error".
Proof. repeat split; vm_compute; reflexivity. Qed.

(** C9, amended: an initialized classifier answers with the signature of
    the first rule, in the order of the pattern table, that matches the
    standard error, a line feed and the standard output.  When no rule
    matches and the standard error is not empty after trimming, it answers
    with a generic signature: a build error of medium severity whose
    message is the first line of the standard error, or [Unknown error]
    when that line is empty.  It answers none exactly when no rule matches
    and the standard error is empty after trimming. *)
Theorem C9_first_rule_or_generic (sha256_hex : string -> string)
    (d : ErrorDetector.ErrorDetector) (stderr stdout : string) :
  ErrorDetector.initialized d = true ->
  let output := stderr +:+ ErrorDetector.nl +:+ stdout in
  let noneMatches :=
    Forall (fun kv => exec (snd kv) output = None)
      (ErrorDetector.errorPatterns d) in
  (forall pre name p post match_,
      ErrorDetector.errorPatterns d = pre ++ (name, p) :: post ->
      Forall (fun kv => exec (snd kv) output = None) pre ->
      exec p output = Some match_ ->
      ErrorDetector.detectError sha256_hex d stderr stdout
      = Some (ErrorDetector.createErrorSignature sha256_hex name match_
                output (split LF output)))
  /\ (noneMatches -> trim stderr <> EmptyString ->
      exists sig,
        ErrorDetector.detectError sha256_hex d stderr stdout = Some sig
        /\ ErrorDetector.type sig = ErrorDetector.build_error
        /\ ErrorDetector.severity sig = ErrorDetector.medium
        /\ ErrorDetector.message sig
           = (if truthy (Spec.firstLine stderr) then Spec.firstLine stderr
              else "Unknown error"))
  /\ (ErrorDetector.detectError sha256_hex d stderr stdout = None
      <-> noneMatches /\ trim stderr = EmptyString).
Proof.
  intros Hinit output noneMatches. unfold ErrorDetector.detectError.
  rewrite Hinit. cbn [negb]. fold output. split; [ | split].
  - intros pre name p post match_ Htable Hpre Hp.
    now rewrite Htable, (DetectorFacts.firstMatch_app _ _ _ _ _ _ Hpre Hp).
  - intros Hnone Hne.
    rewrite (proj2 (DetectorFacts.firstMatch_None _ _) Hnone).
    destruct (trim stderr) eqn:Ht; [congruence | ]. cbn [truthy].
    eexists. split; [reflexivity | ]. repeat split.
  - destruct (ErrorDetector.firstMatch _ output) as [[name match_] | ] eqn:Hm.
    + split; [discriminate | ]. intros [Hnone _].
      apply DetectorFacts.firstMatch_None in Hnone. congruence.
    + apply DetectorFacts.firstMatch_None in Hm.
      destruct (trim stderr); cbn [truthy]; split; try discriminate; auto.
      intros [_ ?]. discriminate.
Qed.

(** C9: the two lines of the counterexample, on the initialized
    classifier: no rule matches them, and the generic signature answers. *)
Lemma C9_first_rule_or_generic_witness :
  exists sig,
    ErrorDetector.detectError (fun s => s)
      (ErrorDetector.initialize ErrorDetector.new)
      (ErrorDetector.nl +:+ "boom") "" = Some sig
    /\ ErrorDetector.type sig = ErrorDetector.build_error
    /\ ErrorDetector.severity sig = ErrorDetector.medium
    /\ ErrorDetector.message sig
       = (if truthy (Spec.firstLine (ErrorDetector.nl +:+ "boom"))
          then Spec.firstLine (ErrorDetector.nl +:+ "boom")
          else "Unknown error").
Proof.
  apply (proj1 (proj2 (C9_first_rule_or_generic (fun s => s)
                         (ErrorDetector.initialize ErrorDetector.new)
                         (ErrorDetector.nl +:+ "boom") "" eq_refl))).
  - apply DetectorFacts.firstMatch_None. vm_compute. reflexivity.
  - vm_compute. discriminate.
Defined.

(** ** The Recovery Engine *)

(** C1, as stated, fails: an engine on which [initialize] has not run
    answers every signature with [null]. *)
Lemma C1_uninitialized_engine_returns_null :
  RecoveryEngine.getRecoveryAction RecoveryEngine.new
    (Spec.sampleSignature "Cannot find module 'left-pad'"
       ErrorDetector.high None)
  = None.
Proof. reflexivity. Qed.

(** C1, amended: an initialized engine that holds rules of the built-in
    table answers every error signature with an action, never with [null];
    the confidence of that action lies in [0.1, 1.0] for every signature
    whose framework, if it carries one, is not the name of a member that
    every object inherits; when no enabled rule matches the message of the
    signature, the action is the generic low-confidence one. *)
Theorem C1_initialized_engine_suggests_in_range
    (e : RecoveryEngine.RecoveryEngine) (sig : ErrorDetector.ErrorSignature) :
  RecoveryEngine.initialized e = true ->
  Forall Spec.builtinGenerator (RecoveryEngine.recoveryRules e) ->
  exists a,
    RecoveryEngine.getRecoveryAction e sig = Some a
    /\ (Spec.plainFramework sig -> Spec.inRange (RecoveryEngine.confidence a))
    /\ (Spec.noRuleMatches e sig ->
        a = RecoveryEngine.getGenericRecoveryAction sig).
Proof.
  intros Hinit Hrules. unfold RecoveryEngine.getRecoveryAction.
  rewrite Hinit. simpl.
  destruct (RecoveryEngine.firstAction _ sig) as [r | ] eqn:Hfirst.
  - exists r. split; [reflexivity | ].
    destruct (EngineFacts.firstAction_Some _ _ _ Hfirst)
      as (rule & match_ & a & Hin & Hen & Hex & Hgen & ->).
    apply (proj1 (EngineFacts.sortRules_In _ _)) in Hin. split.
    + intros Hplain. simpl. apply EngineFacts.adjust_inRange; [ | exact Hplain].
      rewrite List.Forall_forall in Hrules.
      eapply EngineFacts.builtin_confidence; eauto.
    + intros Hnone. unfold Spec.noRuleMatches in Hnone.
      rewrite List.Forall_forall in Hnone. rewrite (Hnone rule Hin Hen) in Hex.
      discriminate.
  - eexists. split; [reflexivity | ]. split; [ | reflexivity].
    intros _. split; vm_compute; reflexivity.
Qed.

(** C1: the engine after [initialize], on a message no rule knows. *)
Lemma C1_initialized_engine_witness :
  exists a,
    RecoveryEngine.getRecoveryAction
      (RecoveryEngine.initialize RecoveryEngine.new)
      (Spec.sampleSignature "something went wrong" ErrorDetector.low None)
    = Some a
    /\ (Spec.plainFramework
          (Spec.sampleSignature "something went wrong" ErrorDetector.low None) ->
        Spec.inRange (RecoveryEngine.confidence a))
    /\ (Spec.noRuleMatches (RecoveryEngine.initialize RecoveryEngine.new)
          (Spec.sampleSignature "something went wrong" ErrorDetector.low None) ->
        a = RecoveryEngine.getGenericRecoveryAction
              (Spec.sampleSignature "something went wrong" ErrorDetector.low
                 None)).
Proof.
  apply (C1_initialized_engine_suggests_in_range
           (RecoveryEngine.initialize RecoveryEngine.new)).
  - reflexivity.
  - apply List.Forall_forall. intros rule Hin.
    exact (in_map RecoveryEngine.actionGenerator _ _ Hin).
Defined.

(** When a rule answers a signature whose framework, if it carries one,
    is not the name of an inherited member, the confidence of the returned
    action is the base confidence of the generated action times the
    severity factor, times the framework factor when the action carries a
    package and the signature a framework, clamped into [0.1, 1.0]. *)
Lemma confidence_is_adjusted_product
    (e : RecoveryEngine.RecoveryEngine) (sig : ErrorDetector.ErrorSignature)
    (r : RecoveryEngine.RecoveryAction) :
  Spec.plainFramework sig ->
  RecoveryEngine.getRecoveryAction e sig = Some r ->
  (Spec.noRuleFires e sig
   /\ r = RecoveryEngine.getGenericRecoveryAction sig)
  \/ (exists rule match_ a,
        In rule (RecoveryEngine.recoveryRules e)
        /\ RecoveryEngine.enabled rule = true
        /\ exec (RecoveryEngine.errorPattern rule) (ErrorDetector.message sig)
           = Some match_
        /\ RecoveryEngine.actionGenerator rule match_ sig = Some a
        /\ r = RecoveryEngine.withConfidence a (Spec.expectedConfidence a sig)).
Proof.
  intros Hplain.
  unfold RecoveryEngine.getRecoveryAction, Spec.noRuleFires.
  destruct (RecoveryEngine.initialized e); simpl; [ | discriminate].
  destruct (RecoveryEngine.firstAction _ sig) as [r' | ] eqn:Hfirst;
    intros [= <-].
  - right.
    destruct (EngineFacts.firstAction_Some _ _ _ Hfirst)
      as (rule & match_ & a & Hin & Hen & Hex & Hgen & ->).
    apply (proj1 (EngineFacts.sortRules_In _ _)) in Hin.
    exists rule, match_, a.
    rewrite <- (EngineFacts.adjustConfidence_spec a sig Hplain). auto.
  - left. auto.
Qed.

(** An unknown framework and a package: 0.95 x 1.0 x 0.8. *)
Example unknown_framework_svelte :
  exists r,
    RecoveryEngine.getRecoveryAction
      (RecoveryEngine.initialize RecoveryEngine.new)
      (Spec.sampleSignature "Cannot find module 'left-pad'"
         ErrorDetector.high (Some "svelte"))
    = Some r
    /\ RecoveryEngine.confidence r = (0.95 * 1.0 * 0.8)%float.
Proof. eexists. split; vm_compute; reflexivity. Qed.

(** C8 fails on the code: for a framework that is the name of a member
    every object inherits, here [constructor], the compatibility table
    does not answer with the factor 0.8 of an unknown framework but with
    the inherited member, and the product is NaN, which the clamping
    keeps: the confidence of the returned action is not the clamped
    product 0.95 x 1.0 x 0.8, and it is not within [0.1, 1.0]. *)
Theorem C8_inherited_framework_gives_nan :
  exists r,
    RecoveryEngine.getRecoveryAction
      (RecoveryEngine.initialize RecoveryEngine.new)
      (Spec.sampleSignature "Cannot find module 'left-pad'"
         ErrorDetector.high (Some "constructor"))
    = Some r
    /\ RecoveryEngine.action r = "install_dependency"
    /\ RecoveryEngine.get "package" (RecoveryEngine.params r)
       = Some (RecoveryEngine.VStr "left-pad")
    /\ Spec.expectedConfidence Spec.leftPadAction
         (Spec.sampleSignature "Cannot find module 'left-pad'"
            ErrorDetector.high (Some "constructor"))
       = (0.95 * 1.0 * 0.8)%float
    /\ PrimFloat.is_nan (RecoveryEngine.confidence r) = true
    /\ RecoveryEngine.confidence r
       <> Spec.expectedConfidence Spec.leftPadAction
            (Spec.sampleSignature "Cannot find module 'left-pad'"
               ErrorDetector.high (Some "constructor"))
    /\ ~ Spec.inRange (RecoveryEngine.confidence r).
Proof.
  eexists. split; [vm_compute; reflexivity | ].
  split; [reflexivity | ]. split; [reflexivity | ].
  split; [vm_compute; reflexivity | ].
  split; [vm_compute; reflexivity | ].
  split.
  - intros H. apply (f_equal PrimFloat.is_nan) in H. vm_compute in H.
    discriminate.
  - intros [H _]. vm_compute in H. discriminate.
Qed.

(** C3: the module that cannot be found, end to end.  Whatever the
    standard output, the classifier answers with a dependency error of high
    severity, and the engine answers that signature with
    [install_dependency] for the package [left-pad] at a confidence of at
    least 0.8. *)
Theorem C3_missing_module_end_to_end (sha256_hex : string -> string)
    (stdout : string) :
  exists sig a,
    ErrorDetector.detectError sha256_hex
      (ErrorDetector.initialize ErrorDetector.new)
      "Cannot find module 'left-pad'" stdout = Some sig
    /\ ErrorDetector.type sig = ErrorDetector.dependency_error
    /\ ErrorDetector.severity sig = ErrorDetector.high
    /\ RecoveryEngine.getRecoveryAction
         (RecoveryEngine.initialize RecoveryEngine.new) sig = Some a
    /\ RecoveryEngine.action a = "install_dependency"
    /\ RecoveryEngine.get "package" (RecoveryEngine.params a)
       = Some (RecoveryEngine.VStr "left-pad")
    /\ PrimFloat.leb 0.8%float (RecoveryEngine.confidence a) = true.
Proof.
  pose proof (DetectorFacts.detect_left_pad sha256_hex stdout) as Hdetect.
  cbv zeta in Hdetect.
  set (full := "Cannot find module 'left-pad'" +:+ ErrorDetector.nl +:+ stdout)
    in Hdetect.
  set (sig := ErrorDetector.createErrorSignature _ _ _ _ _) in Hdetect.
  assert (ErrorDetector.message sig = "Cannot find module 'left-pad'") as Hmsg.
  { subst sig. unfold ErrorDetector.createErrorSignature. simpl.
    destruct (ErrorDetector.findFileLine _). reflexivity. }
  assert (ErrorDetector.severity sig = ErrorDetector.high) as Hsev.
  { subst sig. unfold ErrorDetector.createErrorSignature. simpl.
    destruct (ErrorDetector.findFileLine _). reflexivity. }
  assert (ErrorDetector.context sig = ErrorDetector.extractContext full)
    as Hctx.
  { subst sig. unfold ErrorDetector.createErrorSignature. simpl.
    destruct (ErrorDetector.findFileLine _). reflexivity. }
  exists sig, (RecoveryEngine.withConfidence Spec.leftPadAction
                 (RecoveryEngine.adjustConfidence Spec.leftPadAction
                    sig)).
  split; [exact Hdetect | ].
  split.
  { subst sig. unfold ErrorDetector.createErrorSignature. simpl.
    destruct (ErrorDetector.findFileLine _). reflexivity. }
  split; [exact Hsev | ].
  split; [exact (EngineFacts.suggest_left_pad sig Hmsg) | ].
  split; [reflexivity | ]. split; [reflexivity | ].
  simpl. apply EngineFacts.expected_left_pad; [exact Hsev | ].
  rewrite Hctx. apply DetectorFacts.extractContext_framework.
Qed.

(** C7, on the code: every prerequisite is taken as met, so validation is
    the parameter check alone. *)
Lemma validateRecoveryAction_ignores_prerequisites
    (a : RecoveryEngine.RecoveryAction) :
  RecoveryEngine.validateRecoveryAction a
  = RecoveryEngine.validateActionParameters a.
Proof.
  unfold RecoveryEngine.validateRecoveryAction.
  assert (forall ps, RecoveryEngine.prerequisitesMet ps = true) as Hmet.
  { induction ps as [ | p ps IH]; simpl; [reflexivity | ].
    assert (RecoveryEngine.checkPrerequisite p = true) as ->; [ | exact IH].
    unfold RecoveryEngine.checkPrerequisite,
      RecoveryEngine.checkPackageManager, RecoveryEngine.checkTypeScriptConfig,
      RecoveryEngine.checkAdminAccess.
    repeat match goal with
           | |- context [if ?b then _ else _] => destruct b
           end; reflexivity. }
  destruct (RecoveryEngine.prerequisites a) as [ps | ]; rewrite ?Hmet; simpl;
    destruct (RecoveryEngine.validateActionParameters a); reflexivity.
Qed.

(** C7 fails on the code: the action the engine itself suggests for an
    undefined environment variable requires [user_input], and passes the
    automatic validation. *)
Theorem C7_user_input_action_passes_validation :
  exists a,
    RecoveryEngine.getRecoveryAction
      (RecoveryEngine.initialize RecoveryEngine.new)
      (Spec.sampleSignature "'API_KEY' is not defined" ErrorDetector.medium
         None)
    = Some a
    /\ RecoveryEngine.action a = "set_env_variable"
    /\ RecoveryEngine.prerequisites a = Some ["user_input"]
    /\ RecoveryEngine.validateRecoveryAction a = true.
Proof. eexists. repeat split; vm_compute; reflexivity. Qed.

(** ** The Process Supervisor *)

(** The first event of a run that settles its promise, after a quiet
    stretch [pre] in which output was collected. *)
Lemma execute_first_settling_event (r : CommandRunner.CommandRunner)
    (command : string) (args : list string) (cwd : string)
    (options : CommandRunner.CommandOptions) (now : Z)
    (pre post : CommandRunner.Trace) (at_ : Z) (ev : CommandRunner.ChildEvent) :
  Spec.quiet pre = true ->
  exists r1 r2,
    CommandRunner.errorListeners r1 = CommandRunner.errorListeners r
    /\ CommandRunner.uncaught r1 = CommandRunner.uncaught r
    /\ CommandRunner.execute r command args cwd options now
         (pre ++ (at_, ev) :: post)
       = (fst (CommandRunner.deliver post (fst r2) (snd r2)),
          CommandRunner.promise
            (snd (CommandRunner.deliver post (fst r2) (snd r2))))
    /\ r2 = CommandRunner.handle at_ ev r1
              (CommandRunner.mkRun
                 (CommandRunner.processId
                    (snd (CommandRunner.spawn r command args now)))
                 command args now (Spec.stdoutOf pre) (Spec.stderrOf pre)
                 CommandRunner.Pending).
Proof.
  intros Hq.
  rewrite RunnerFacts.execute_with_child
    by (right; apply RunnerFacts.trace_not_nil).
  destruct (CommandRunner.spawn r command args now) as [r0 run0] eqn:Hs.
  cbn [fst snd]. rewrite RunnerFacts.deliver_app.
  destruct (RunnerFacts.deliver_quiet pre r0 run0 Hq) as (r1 & -> & Hl & Hu).
  unfold CommandRunner.spawn in Hs. injection Hs as <- <-.
  cbn [CommandRunner.deliver CommandRunner.processId CommandRunner.command
       CommandRunner.args CommandRunner.startTime CommandRunner.stdout_
       CommandRunner.stderr_ CommandRunner.promise].
  rewrite !HashFacts.append_nil.
  eexists r1, _. split; [exact Hl | ]. split; [exact Hu | ].
  split; [ | reflexivity].
  destruct (CommandRunner.handle _ _ _ _) as [ra runa]. cbn [fst snd].
  destruct (CommandRunner.deliver post ra runa). reflexivity.
Qed.

(** What the handler of [error] emits, on a runner that has a listener
    for its [error] event, after a quiet stretch [pre]. *)
Lemma execute_error_emitted (r : CommandRunner.CommandRunner)
    (command : string) (args : list string) (cwd : string)
    (options : CommandRunner.CommandOptions) (now : Z)
    (pre : CommandRunner.Trace) (at_ : Z) (message : string) :
  Spec.quiet pre = true ->
  CommandRunner.errorListeners r <> O ->
  CommandRunner.emitted
    (fst (CommandRunner.execute r command args cwd options now
            (pre ++ [(at_, CommandRunner.error message)])))
  = CommandRunner.emitted r
      ++ Notions.forwarded (Notions.nextProcessId r now) command pre
      ++ [CommandRunner.emit_error (Notions.nextProcessId r now) command
            message
            (CommandRunner.mkCommandResult false (trim (Spec.stdoutOf pre))
               (trim (Spec.stderrOf pre)
                  +:+ (if truthy (Spec.stderrOf pre)
                       then ErrorDetector.nl else EmptyString)
                  +:+ message)
               (-1) (at_ - now))
            at_].
Proof.
  intros Hq Hl.
  rewrite RunnerFacts.execute_with_child
    by (right; apply RunnerFacts.trace_not_nil).
  destruct (CommandRunner.spawn r command args now) as [r0 run0] eqn:Hs.
  cbn [fst snd].
  assert (CommandRunner.emitted r0 = CommandRunner.emitted r
          /\ CommandRunner.errorListeners r0 = CommandRunner.errorListeners r
          /\ CommandRunner.processId run0 = Notions.nextProcessId r now
          /\ CommandRunner.command run0 = command
          /\ CommandRunner.startTime run0 = now
          /\ CommandRunner.stdout_ run0 = EmptyString
          /\ CommandRunner.stderr_ run0 = EmptyString)
    as (He & Hl0 & Hid & Hc & Ht & Ho & Hr).
  { unfold CommandRunner.spawn in Hs. injection Hs as <- <-. repeat split. }
  rewrite RunnerFacts.deliver_app.
  pose proof (RunnerFacts.deliver_quiet_emitted pre r0 run0 Hq) as Hem.
  destruct (RunnerFacts.deliver_quiet pre r0 run0 Hq) as (r1 & Hd & Hl1 & _).
  rewrite Hd in Hem |- *. cbn [fst] in Hem.
  cbn [CommandRunner.deliver CommandRunner.handle].
  unfold CommandRunner.onError.
  cbn [CommandRunner.setActive CommandRunner.errorListeners].
  rewrite Hl1, Hl0.
  destruct (CommandRunner.errorListeners r); [congruence | ].
  cbn [fst snd CommandRunner.processId CommandRunner.command
       CommandRunner.startTime CommandRunner.stdout_ CommandRunner.stderr_
       CommandRunner.emit CommandRunner.emitted CommandRunner.setActive].
  rewrite Hem, He, Hid, Hc, Ht, Ho, Hr, !HashFacts.append_nil.
  now rewrite <- app_assoc.
Qed.

(** C4, as stated, fails: a spawn-level error does not fulfil the promise
    of [execute], or of [executeWithStream], with a failure result: the
    promise is rejected with the error. *)
Lemma C4_spawn_error_does_not_resolve :
  snd (CommandRunner.execute (CommandRunner.onError_ CommandRunner.new)
         "npm" ["run"; "build"] "/srv/app" CommandRunner.noOptions 1000
         [(1005%Z, CommandRunner.error "spawn npm ENOENT")])
  = CommandRunner.Rejected "spawn npm ENOENT"
  /\ snd (CommandRunner.executeWithStream
            (CommandRunner.onError_ CommandRunner.new)
            "npm" ["run"; "build"] "/srv/app" CommandRunner.noOptions 1000
            [(1005%Z, CommandRunner.error "spawn npm ENOENT")])
     = CommandRunner.Fulfilled
         ("cmd_1_1000", CommandRunner.Rejected "spawn npm ENOENT").
Proof. split; vm_compute; reflexivity. Qed.

(** C4, amended: when the first event that settles a run is the [close] of
    the child, the promise of [execute] is fulfilled, never rejected, with
    a result whose [success] says that the exit code is 0, and that carries
    the trimmed output captured so far: a non-zero exit is a failure
    result, and exit code 0 is the sole success criterion.  When that first
    event is an [error] of the child, on a runner that has a listener for
    its [error] event, the promise is not fulfilled but rejected with the
    error; the failure result, with [success = false], the exit code -1,
    the trimmed output captured so far and the message of the error added
    to the standard error, is what the runner emits in its [error] event,
    after the output it has forwarded.  [executeWithStream] hands out the
    identifier of the run and settles its inner promise in the same
    way. *)
Theorem C4_close_resolves_error_rejects (r : CommandRunner.CommandRunner)
    (command : string) (args : list string) (cwd : string)
    (options : CommandRunner.CommandOptions) (now : Z)
    (pre post : CommandRunner.Trace) (at_ : Z) :
  Spec.quiet pre = true ->
  (forall code signal,
      snd (CommandRunner.execute r command args cwd options now
             (pre ++ (at_, CommandRunner.close code signal) :: post))
      = CommandRunner.Fulfilled
          (CommandRunner.mkCommandResult
             (CommandRunner.isZero code)
             (trim (Spec.stdoutOf pre)) (trim (Spec.stderrOf pre))
             (CommandRunner.codeOrZero code) (at_ - now))
      /\ (CommandRunner.isZero code = true <-> code = Some 0%Z))
  /\ (forall message,
        CommandRunner.errorListeners r <> O ->
        snd (CommandRunner.execute r command args cwd options now
               (pre ++ (at_, CommandRunner.error message) :: post))
        = CommandRunner.Rejected message
        /\ CommandRunner.emitted
             (fst (CommandRunner.execute r command args cwd options now
                     (pre ++ [(at_, CommandRunner.error message)])))
           = CommandRunner.emitted r
               ++ Notions.forwarded (Notions.nextProcessId r now) command pre
               ++ [CommandRunner.emit_error (Notions.nextProcessId r now)
                     command message
                     (CommandRunner.mkCommandResult false
                        (trim (Spec.stdoutOf pre))
                        (trim (Spec.stderrOf pre)
                           +:+ (if truthy (Spec.stderrOf pre)
                                then ErrorDetector.nl else EmptyString)
                           +:+ message)
                        (-1) (at_ - now))
                     at_])
  /\ (forall ev,
        snd (CommandRunner.executeWithStream r command args cwd options now
               (pre ++ (at_, ev) :: post))
        = CommandRunner.Fulfilled
            (Notions.nextProcessId r now,
             snd (CommandRunner.execute r command args cwd options now
                    (pre ++ (at_, ev) :: post)))).
Proof.
  intros Hq. split; [ | split].
  - intros code signal.
    destruct (execute_first_settling_event r command args cwd options now
                pre post at_ (CommandRunner.close code signal) Hq)
      as (r1 & r2 & _ & _ & -> & ->).
    cbn [snd]. split.
    + rewrite RunnerFacts.deliver_settled; [reflexivity | discriminate].
    + destruct code as [c | ]; cbn [CommandRunner.isZero].
      * rewrite Z.eqb_eq. split; congruence.
      * split; discriminate.
  - intros message Hl. split.
    + destruct (execute_first_settling_event r command args cwd options now
                  pre post at_ (CommandRunner.error message) Hq)
        as (r1 & r2 & Hl1 & _ & -> & ->).
      cbn [snd CommandRunner.handle]. unfold CommandRunner.onError.
      cbn [CommandRunner.setActive CommandRunner.errorListeners].
      rewrite Hl1. destruct (CommandRunner.errorListeners r); [congruence | ].
      cbn [fst snd].
      rewrite RunnerFacts.deliver_settled; [reflexivity | discriminate].
    + exact (execute_error_emitted r command args cwd options now pre at_
               message Hq Hl).
  - intros ev.
    rewrite RunnerFacts.executeWithStream_promise
      by (right; apply RunnerFacts.trace_not_nil).
    reflexivity.
Qed.

(** C4: a build that writes to both streams, then exits with code 1 or
    cannot be spawned at all. *)
Lemma C4_close_resolves_error_rejects_witness :
  snd (CommandRunner.execute (CommandRunner.onError_ CommandRunner.new)
         "npm" ["run"; "build"] "/srv/app" CommandRunner.noOptions 1000
         ([(1001%Z, CommandRunner.stdout_data "compiling ");
           (1002%Z, CommandRunner.stderr_data "Build failed with errors ")]
          ++ [(1003%Z, CommandRunner.close (Some 1%Z) None)]))
  = CommandRunner.Fulfilled
      (CommandRunner.mkCommandResult false "compiling"
         "Build failed with errors" 1 3)
  /\ snd (CommandRunner.execute (CommandRunner.onError_ CommandRunner.new)
            "npm" ["run"; "build"] "/srv/app" CommandRunner.noOptions 1000
            ([(1001%Z, CommandRunner.stdout_data "compiling ");
              (1002%Z, CommandRunner.stderr_data "Build failed with errors ")]
             ++ [(1003%Z, CommandRunner.error "spawn npm ENOENT")]))
     = CommandRunner.Rejected "spawn npm ENOENT"
  /\ CommandRunner.emitted
       (fst (CommandRunner.execute (CommandRunner.onError_ CommandRunner.new)
               "npm" ["run"; "build"] "/srv/app" CommandRunner.noOptions 1000
               ([(1001%Z, CommandRunner.stdout_data "compiling ");
                 (1002%Z,
                  CommandRunner.stderr_data "Build failed with errors ")]
                ++ [(1003%Z, CommandRunner.error "spawn npm ENOENT")])))
     = [CommandRunner.emit_stdout "cmd_1_1000" "npm" "compiling " 1001;
        CommandRunner.emit_stderr "cmd_1_1000" "npm"
          "Build failed with errors " 1002;
        CommandRunner.emit_error "cmd_1_1000" "npm" "spawn npm ENOENT"
          (CommandRunner.mkCommandResult false "compiling"
             ("Build failed with errors" +:+ ErrorDetector.nl
                +:+ "spawn npm ENOENT")
             (-1) 3)
          1003].
Proof.
  pose proof (C4_close_resolves_error_rejects
                (CommandRunner.onError_ CommandRunner.new)
                "npm" ["run"; "build"] "/srv/app" CommandRunner.noOptions 1000
                [(1001%Z, CommandRunner.stdout_data "compiling ");
                 (1002%Z, CommandRunner.stderr_data "Build failed with errors ")]
                [] 1003 eq_refl) as (Hclose & Herror & _).
  split; [exact (proj1 (Hclose (Some 1%Z) None)) | ].
  split; [apply Herror; discriminate | ].
  exact (proj2 (Herror "spawn npm ENOENT" ltac:(discriminate))).
Defined.

(** C10: a child that closes with a null exit code, as one that a signal
    ended, yields a result with [success = false] and [exitCode = 0]. *)
Theorem C10_null_exit_code_reports_zero (r : CommandRunner.CommandRunner)
    (command : string) (args : list string) (cwd : string)
    (options : CommandRunner.CommandOptions) (now : Z)
    (pre post : CommandRunner.Trace) (at_ : Z) (signal : option string) :
  Spec.quiet pre = true ->
  exists result,
    snd (CommandRunner.execute r command args cwd options now
           (pre ++ (at_, CommandRunner.close None signal) :: post))
    = CommandRunner.Fulfilled result
    /\ CommandRunner.success result = false
    /\ CommandRunner.exitCode result = 0%Z.
Proof.
  intros Hq.
  destruct (execute_first_settling_event r command args cwd options now
              pre post at_ (CommandRunner.close None signal) Hq)
    as (r1 & r2 & _ & _ & -> & ->).
  cbn [snd]. eexists. split.
  - rewrite RunnerFacts.deliver_settled; [reflexivity | discriminate].
  - split; reflexivity.
Qed.

(** C10: a build that the timeout ended with SIGTERM. *)
Lemma C10_null_exit_code_witness :
  exists result,
    snd (CommandRunner.execute CommandRunner.new
           "npm" ["run"; "build"] "/srv/app"
           (CommandRunner.mkCommandOptions [] (Some 5000%Z) None) 1000
           ([(1001%Z, CommandRunner.stdout_data "compiling ")]
            ++ (6001%Z, CommandRunner.close None (Some "SIGTERM"))
               :: [(6001%Z, CommandRunner.exit None (Some "SIGTERM"))]))
    = CommandRunner.Fulfilled result
    /\ CommandRunner.success result = false
    /\ CommandRunner.exitCode result = 0%Z.
Proof.
  apply (C10_null_exit_code_reports_zero CommandRunner.new
           "npm" ["run"; "build"] "/srv/app"
           (CommandRunner.mkCommandOptions [] (Some 5000%Z) None) 1000
           [(1001%Z, CommandRunner.stdout_data "compiling ")]
           [(6001%Z, CommandRunner.exit None (Some "SIGTERM"))]
           6001 (Some "SIGTERM")).
  reflexivity.
Defined.

(** ** The Deployment Workflow *)

(** C6 fails on the code: cancelling a task whose build command is running
    marks the task cancelled and returns true, and the child process stays
    as it was, active and with no signal sent to it. *)
Theorem C6_cancel_leaves_the_child_running :
  CommandRunner.isProcessActive "cmd_1_1000"
    (DeploymentWorkflow.commandRunner Spec.buildingWorkflow) = true
  /\ fst (DeploymentWorkflow.cancelTask "task_1" Spec.buildingWorkflow)
     = DeploymentWorkflow.Done true
  /\ CommandRunner.isProcessActive "cmd_1_1000"
       (DeploymentWorkflow.commandRunner
          (snd (DeploymentWorkflow.cancelTask "task_1" Spec.buildingWorkflow)))
     = true
  /\ CommandRunner.signalsSent
       (DeploymentWorkflow.commandRunner
          (snd (DeploymentWorkflow.cancelTask "task_1" Spec.buildingWorkflow)))
     = [].
Proof. repeat split; vm_compute; reflexivity. Qed.

(** What [cancelTask] does.  Cancelling a task identifier with no active
    run returns false and changes nothing.  Cancelling a task with an active
    run, the record store being reachable, marks the task cancelled (in
    memory, in the store and by a status event), removes it from the active
    tasks, announces the cancellation and returns true; the command runner
    and its child processes are left untouched.  A second cancellation, or
    a cancellation after the run has ended, returns false and changes
    nothing. *)
Lemma cancelTask_spec (w : DeploymentWorkflow.DeploymentWorkflow)
    (taskId : string) :
  (DeploymentWorkflow.activeTasks w !! taskId = None ->
   DeploymentWorkflow.cancelTask taskId w = (DeploymentWorkflow.Done false, w))
  /\ (forall task,
        DeploymentWorkflow.activeTasks w !! taskId = Some task ->
        DatabaseService.connected (DeploymentWorkflow.database w) = true ->
        exists w1 w',
          DeploymentWorkflow.updateTaskStatus taskId cancelled None None None w
          = (DeploymentWorkflow.Done tt, w1)
          /\ Task.status <$> (DeploymentWorkflow.activeTasks w1 !! taskId)
             = Some cancelled
          /\ Task.status
               <$> (DatabaseService.tasks (DeploymentWorkflow.database w1)
                    !! taskId)
             = (fun _ => cancelled)
               <$> (DatabaseService.tasks (DeploymentWorkflow.database w)
                    !! taskId)
          /\ DeploymentWorkflow.cancelTask taskId w
             = (DeploymentWorkflow.Done true, w')
          /\ DeploymentWorkflow.database w' = DeploymentWorkflow.database w1
          /\ DeploymentWorkflow.activeTasks w'
             = delete taskId (DeploymentWorkflow.activeTasks w)
          /\ DeploymentWorkflow.events w'
             = DeploymentWorkflow.events w
               ++ [DeploymentWorkflow.task_status taskId cancelled None None;
                   DeploymentWorkflow.task_cancelled taskId]
          /\ DeploymentWorkflow.commandRunner w'
             = DeploymentWorkflow.commandRunner w
          /\ DeploymentWorkflow.cancelTask taskId w'
             = (DeploymentWorkflow.Done false, w'))
  /\ DeploymentWorkflow.cancelTask taskId
       (snd (DeploymentWorkflow.executeDeployment_finally taskId w))
     = (DeploymentWorkflow.Done false,
        snd (DeploymentWorkflow.executeDeployment_finally taskId w)).
Proof.
  split; [ | split].
  - intros Hnone. unfold DeploymentWorkflow.cancelTask. now rewrite Hnone.
  - intros task Hsome Hdb.
    unfold DeploymentWorkflow.cancelTask. rewrite Hsome.
    unfold DeploymentWorkflow.updateTaskStatus, DeploymentWorkflow.bind,
      DeploymentWorkflow.updateTask, DatabaseService.updateTask,
      DeploymentWorkflow.setActiveTasks, DeploymentWorkflow.emit,
      DeploymentWorkflow.ret.
    rewrite Hdb. cbn.
    eexists. eexists. split; [reflexivity | ]. cbn.
    split; [now rewrite lookup_alter_eq, Hsome | ].
    split; [rewrite lookup_alter_eq;
            now destruct (DatabaseService.tasks _ !! taskId) | ].
    split; [reflexivity | ]. cbn.
    split; [reflexivity | ].
    split; [now rewrite delete_alter_eq | ].
    split; [now rewrite <- app_assoc | ].
    split; [reflexivity | ].
    now rewrite delete_alter_eq, lookup_delete_eq.
  - unfold DeploymentWorkflow.executeDeployment_finally,
      DeploymentWorkflow.setActiveTasks, DeploymentWorkflow.cancelTask.
    cbn. now rewrite lookup_delete_eq.
Qed.

(** The task whose build command is running, cancelled twice. *)
Lemma cancelTask_twice :
  exists w',
    DeploymentWorkflow.cancelTask "task_1" Spec.buildingWorkflow
    = (DeploymentWorkflow.Done true, w')
    /\ DeploymentWorkflow.activeTasks w'
       = delete "task_1" (DeploymentWorkflow.activeTasks Spec.buildingWorkflow)
    /\ DeploymentWorkflow.commandRunner w'
       = DeploymentWorkflow.commandRunner Spec.buildingWorkflow
    /\ DeploymentWorkflow.cancelTask "task_1" w'
       = (DeploymentWorkflow.Done false, w').
Proof.
  destruct (proj1 (proj2 (cancelTask_spec Spec.buildingWorkflow "task_1"))
              (Task.mk "task_1" "project_1" "deploy" "vercel" pending 0
                 EmptyString None None None 1000 1000)
              eq_refl eq_refl)
    as (w1 & w' & _ & _ & _ & Hc & _ & Ha & _ & Hr & Hagain).
  exists w'. auto.
Qed.

(** The thresholds of the building phase, after a build failure that the
    classifier gives a signature and the engine an action of confidence
    [c].  Above 0.9 the workflow announces the recovery, calls
    [executeRecoveryAction] and enters the building phase again; above 0.7
    and not above 0.9 it announces the recovery, executes nothing and the
    phase fails; at or below 0.7 the phase fails and no recovery is
    announced. *)
Lemma build_failure_thresholds
    (sha256_hex : string -> string)
    (JSON_parse : string -> option DeploymentWorkflow.Metadata)
    (fuel : nat) (taskId : string)
    (options : DeploymentWorkflow.DeploymentOptions)
    (w w1 : DeploymentWorkflow.DeploymentWorkflow)
    (project : Project.t) (task : Task.t)
    (metadata : DeploymentWorkflow.Metadata)
    (result : CommandRunner.CommandResult)
    (sig : ErrorDetector.ErrorSignature) (a : RecoveryEngine.RecoveryAction) :
  DeploymentWorkflow.getProject (DeploymentWorkflow.projectId options) w
  = (DeploymentWorkflow.Done (Some project), w) ->
  DeploymentWorkflow.activeTasks w !! taskId = Some task ->
  DeploymentWorkflow.parseMetadata JSON_parse (Task.logs task) w
  = (DeploymentWorkflow.Done metadata, w) ->
  let buildCommand := DeploymentWorkflow.buildCommandOf options metadata in
  DeploymentWorkflow.bind
    (DeploymentWorkflow.emit
       (DeploymentWorkflow.task_log taskId
          ("Building project: " +:+ buildCommand)))
    (fun _ =>
       DeploymentWorkflow.execute (nth 0 (split " " buildCommand) EmptyString)
         (tl (split " " buildCommand)) (Project.path project)
         (DeploymentWorkflow.buildEnv options)) w
  = (DeploymentWorkflow.Done result, w1) ->
  CommandRunner.success result = false ->
  ErrorDetector.detectError sha256_hex (DeploymentWorkflow.errorDetector w)
    (CommandRunner.stderr result) (CommandRunner.stdout result) = Some sig ->
  RecoveryEngine.getRecoveryAction (DeploymentWorkflow.recoveryEngine w) sig
  = Some a ->
  let c := RecoveryEngine.confidence a in
  let failure :=
    DeploymentWorkflow.Throw ("Build failed: " +:+ CommandRunner.stderr result) in
  let announced :=
    snd (DeploymentWorkflow.emit
           (DeploymentWorkflow.task_recovery taskId sig a) w1) in
  (PrimFloat.ltb 0.9%float c = true ->
   DeploymentWorkflow.buildProject sha256_hex JSON_parse (S fuel) taskId
     options w
   = DeploymentWorkflow.bind
       (DeploymentWorkflow.executeRecoveryAction taskId a)
       (fun _ =>
          DeploymentWorkflow.buildProject sha256_hex JSON_parse fuel taskId
            options)
       announced)
  /\ (PrimFloat.ltb 0.7%float c = true -> PrimFloat.ltb 0.9%float c = false ->
      DeploymentWorkflow.buildProject sha256_hex JSON_parse (S fuel) taskId
        options w
      = (failure, announced))
  /\ (PrimFloat.leb c 0.7%float = true ->
      DeploymentWorkflow.buildProject sha256_hex JSON_parse (S fuel) taskId
        options w
      = (failure, w1)).
Proof.
  intros Hproject Htask Hmeta buildCommand Hrun Hfail Hsig Haction c failure
    announced.
  destruct (WorkflowFacts.emit_execute_keeps_engines _ _ _ _ _ _ _ _ Hrun)
    as (Hd & He & _ & _).
  assert (DeploymentWorkflow.buildProject sha256_hex JSON_parse (S fuel)
            taskId options w
          = (if PrimFloat.ltb 0.7%float c
             then DeploymentWorkflow.bind
                    (DeploymentWorkflow.emit
                       (DeploymentWorkflow.task_recovery taskId sig a))
                    (fun _ =>
                       if PrimFloat.ltb 0.9%float c
                       then DeploymentWorkflow.bind
                              (DeploymentWorkflow.executeRecoveryAction taskId a)
                              (fun _ =>
                                 DeploymentWorkflow.buildProject sha256_hex
                                   JSON_parse fuel taskId options)
                       else DeploymentWorkflow.throw
                              ("Build failed: "
                                 +:+ CommandRunner.stderr result))
             else DeploymentWorkflow.throw
                    ("Build failed: " +:+ CommandRunner.stderr result)) w1)
    as Hstep.
  { cbn [DeploymentWorkflow.buildProject].
    unfold DeploymentWorkflow.bind at 1. rewrite Hproject.
    unfold DeploymentWorkflow.bind at 1.
    unfold DeploymentWorkflow.getActive at 1. rewrite Htask.
    unfold DeploymentWorkflow.bind at 1. rewrite Hmeta.
    fold buildCommand.
    unfold DeploymentWorkflow.bind at 1.
    unfold DeploymentWorkflow.bind in Hrun.
    destruct (DeploymentWorkflow.emit _ w) as [[ [] | m | | ] w0] eqn:Hemit;
      try discriminate.
    unfold DeploymentWorkflow.bind at 1. rewrite Hrun. rewrite Hfail.
    cbn [negb]. unfold DeploymentWorkflow.bind at 1.
    unfold DeploymentWorkflow.detectError at 1. rewrite Hd, Hsig.
    unfold DeploymentWorkflow.bind at 1.
    unfold DeploymentWorkflow.getRecoveryAction at 1. rewrite He, Haction.
    fold c. reflexivity. }
  rewrite Hstep. split; [ | split].
  - intros H9.
    assert (PrimFloat.ltb 0.7%float c = true) as ->
      by (apply FloatFacts.ltb_trans with 0.9%float; [reflexivity | exact H9]).
    unfold DeploymentWorkflow.bind at 1. unfold DeploymentWorkflow.emit at 1.
    rewrite H9. reflexivity.
  - intros H7 H9. rewrite H7.
    unfold DeploymentWorkflow.bind at 1. unfold DeploymentWorkflow.emit at 1.
    rewrite H9. reflexivity.
  - intros H7. now rewrite (FloatFacts.leb_not_gt _ _ H7).
Qed.

(** Three builds that fail.  A module that cannot be found (0.95) is
    above 0.9; a failed authentication (0.81) is above 0.7 and not above
    0.9; an unknown failure (0.3) is not above 0.7. *)
Example build_failure_thresholds_examples :
  let property text code rest fuel :=
    let w := Spec.startedWorkflow (Spec.failingChild text code :: rest) in
    let w1 := snd (Spec.buildRun (Spec.failingChild text code :: rest)) in
    let result := Spec.failedBuild text code in
    let sig := Spec.signatureOf result in
    let a := Spec.actionFor sig in
    let c := RecoveryEngine.confidence a in
    let failure :=
      DeploymentWorkflow.Throw
        ("Build failed: " +:+ CommandRunner.stderr result) in
    let announced :=
      snd (DeploymentWorkflow.emit
             (DeploymentWorkflow.task_recovery "task_1" sig a) w1) in
    (PrimFloat.ltb 0.9%float c = true ->
     DeploymentWorkflow.buildProject (fun s => s) (fun _ => None) (S fuel)
       "task_1" Spec.sampleOptions w
     = DeploymentWorkflow.bind
         (DeploymentWorkflow.executeRecoveryAction "task_1" a)
         (fun _ =>
            DeploymentWorkflow.buildProject (fun s => s) (fun _ => None) fuel
              "task_1" Spec.sampleOptions)
         announced)
    /\ (PrimFloat.ltb 0.7%float c = true ->
        PrimFloat.ltb 0.9%float c = false ->
        DeploymentWorkflow.buildProject (fun s => s) (fun _ => None) (S fuel)
          "task_1" Spec.sampleOptions w
        = (failure, announced))
    /\ (PrimFloat.leb c 0.7%float = true ->
        DeploymentWorkflow.buildProject (fun s => s) (fun _ => None) (S fuel)
          "task_1" Spec.sampleOptions w
        = (failure, w1)) in
  let confidenceFor text code :=
    RecoveryEngine.confidence
      (Spec.actionFor (Spec.signatureOf (Spec.failedBuild text code))) in
  (property "Cannot find module 'left-pad'" 1%Z
     [Spec.passingChild; Spec.passingChild] 1%nat
   /\ PrimFloat.ltb 0.9%float
        (confidenceFor "Cannot find module 'left-pad'" 1%Z) = true)
  /\ (property "Authentication failed" 1%Z [] 0%nat
      /\ PrimFloat.ltb 0.7%float (confidenceFor "Authentication failed" 1%Z)
         = true
      /\ PrimFloat.ltb 0.9%float (confidenceFor "Authentication failed" 1%Z)
         = false)
  /\ (property "segmentation fault" 139%Z [] 0%nat
      /\ PrimFloat.leb (confidenceFor "segmentation fault" 139%Z) 0.7%float
         = true).
Proof.
  cbv zeta beta.
  split; [ | split]; (split; [ | repeat split; vm_compute; reflexivity]).
  - exact (build_failure_thresholds (fun s => s) (fun _ => None) 1
             "task_1" Spec.sampleOptions
             (Spec.startedWorkflow
                (Spec.failingChild "Cannot find module 'left-pad'" 1
                   :: [Spec.passingChild; Spec.passingChild]))
             (snd (Spec.buildRun
                     (Spec.failingChild "Cannot find module 'left-pad'" 1
                        :: [Spec.passingChild; Spec.passingChild])))
             (Project.mk "project_1" "demo" "/srv/demo")
             (Task.mk "task_1" "project_1" "deploy" "vercel" pending 0
                EmptyString None None None 1000 1000)
             (DeploymentWorkflow.mkMetadata None None)
             (Spec.failedBuild "Cannot find module 'left-pad'" 1)
             (Spec.signatureOf
                (Spec.failedBuild "Cannot find module 'left-pad'" 1))
             (Spec.actionFor
                (Spec.signatureOf
                   (Spec.failedBuild "Cannot find module 'left-pad'" 1)))
             eq_refl eq_refl eq_refl eq_refl eq_refl
             ltac:(vm_compute; reflexivity) ltac:(vm_compute; reflexivity)).
  - exact (build_failure_thresholds (fun s => s) (fun _ => None) 0
             "task_1" Spec.sampleOptions
             (Spec.startedWorkflow
                (Spec.failingChild "Authentication failed" 1 :: []))
             (snd (Spec.buildRun
                     (Spec.failingChild "Authentication failed" 1 :: [])))
             (Project.mk "project_1" "demo" "/srv/demo")
             (Task.mk "task_1" "project_1" "deploy" "vercel" pending 0
                EmptyString None None None 1000 1000)
             (DeploymentWorkflow.mkMetadata None None)
             (Spec.failedBuild "Authentication failed" 1)
             (Spec.signatureOf (Spec.failedBuild "Authentication failed" 1))
             (Spec.actionFor
                (Spec.signatureOf
                   (Spec.failedBuild "Authentication failed" 1)))
             eq_refl eq_refl eq_refl eq_refl eq_refl
             ltac:(vm_compute; reflexivity) ltac:(vm_compute; reflexivity)).
  - exact (build_failure_thresholds (fun s => s) (fun _ => None) 0
             "task_1" Spec.sampleOptions
             (Spec.startedWorkflow
                (Spec.failingChild "segmentation fault" 139 :: []))
             (snd (Spec.buildRun
                     (Spec.failingChild "segmentation fault" 139 :: [])))
             (Project.mk "project_1" "demo" "/srv/demo")
             (Task.mk "task_1" "project_1" "deploy" "vercel" pending 0
                EmptyString None None None 1000 1000)
             (DeploymentWorkflow.mkMetadata None None)
             (Spec.failedBuild "segmentation fault" 139)
             (Spec.signatureOf (Spec.failedBuild "segmentation fault" 139))
             (Spec.actionFor
                (Spec.signatureOf (Spec.failedBuild "segmentation fault" 139)))
             eq_refl eq_refl eq_refl eq_refl eq_refl
             ltac:(vm_compute; reflexivity) ltac:(vm_compute; reflexivity)).
Qed.

(** C5 fails on the code: a build that fails with the complaint of a
    missing peer dependency.  The engine suggests
    [install_peer_dependency] with a confidence above 0.9, and the
    workflow announces the recovery; but [executeRecoveryAction] has no
    case for that action: it executes nothing, and the building phase is
    entered again on a workflow in which, since the build command was
    spawned, no command was spawned, no child was used, nothing was
    logged and nothing was stored. *)
Theorem C5_suggested_action_is_not_executed (fuel : nat)
    (rest : list CommandRunner.Trace) :
  let text := "npm ERR! requires a peer of react@18.2.0" in
  let w := Spec.startedWorkflow (Spec.failingChild text 1 :: rest) in
  let sig := Spec.signatureOf (Spec.failedBuild text 1) in
  let a := Spec.actionFor sig in
  let built := snd (Spec.buildRun (Spec.failingChild text 1 :: rest)) in
  let announced :=
    snd (DeploymentWorkflow.emit
           (DeploymentWorkflow.task_recovery "task_1" sig a) built) in
  fst (Spec.buildRun (Spec.failingChild text 1 :: rest))
  = DeploymentWorkflow.Done (Spec.failedBuild text 1)
  /\ RecoveryEngine.action a = "install_peer_dependency"
  /\ RecoveryEngine.get "package" (RecoveryEngine.params a)
     = Some (RecoveryEngine.VStr "react@18.2.0")
  /\ PrimFloat.ltb 0.9%float (RecoveryEngine.confidence a) = true
  /\ DeploymentWorkflow.executeRecoveryAction "task_1" a announced
     = (DeploymentWorkflow.Done tt, announced)
  /\ DeploymentWorkflow.buildProject (fun s => s) (fun _ => None) (S fuel)
       "task_1" Spec.sampleOptions w
     = DeploymentWorkflow.buildProject (fun s => s) (fun _ => None) fuel
         "task_1" Spec.sampleOptions announced
  /\ DeploymentWorkflow.events announced
     = DeploymentWorkflow.events w
         ++ [DeploymentWorkflow.task_log "task_1"
               "Building project: npm run build";
             DeploymentWorkflow.task_recovery "task_1" sig a]
  /\ DeploymentWorkflow.children announced = rest
  /\ CommandRunner.processCounter (DeploymentWorkflow.commandRunner announced)
     = 1%N
  /\ DeploymentWorkflow.database announced = DeploymentWorkflow.database w.
Proof.
  intros text w sig a built announced.
  assert (DeploymentWorkflow.executeRecoveryAction "task_1" a announced
          = (DeploymentWorkflow.Done tt, announced)) as Hnothing.
  { apply (WorkflowFacts.executeRecoveryAction_no_case "task_1" a announced
             (Task.mk "task_1" "project_1" "deploy" "vercel" pending 0
                EmptyString None None None 1000 1000)
             (Project.mk "project_1" "demo" "/srv/demo"));
      [reflexivity | reflexivity | | | ];
      vm_compute; discriminate. }
  split; [reflexivity | ].
  split; [vm_compute; reflexivity | ].
  split; [vm_compute; reflexivity | ].
  split; [vm_compute; reflexivity | ].
  split; [exact Hnothing | ].
  split; [ | repeat split].
  rewrite (proj1 (build_failure_thresholds (fun s => s) (fun _ => None) fuel
                    "task_1" Spec.sampleOptions w built
                    (Project.mk "project_1" "demo" "/srv/demo")
                    (Task.mk "task_1" "project_1" "deploy" "vercel" pending 0
                       EmptyString None None None 1000 1000)
                    (DeploymentWorkflow.mkMetadata None None)
                    (Spec.failedBuild text 1) sig a
                    eq_refl eq_refl eq_refl eq_refl eq_refl
                    ltac:(vm_compute; reflexivity)
                    ltac:(vm_compute; reflexivity))
             ltac:(vm_compute; reflexivity)).
  unfold DeploymentWorkflow.bind. fold announced. now rewrite Hnothing.
Qed.

End Claims.

(* ------------------------------------------------------------------ *)
(** * Patterns that begin with a literal text *)
(* ------------------------------------------------------------------ *)

Module RegexFacts.
Import JS.

Section Literal.
Context {R : Type}.

(** A literal matches at the head of the input exactly when the input
    starts with it, and hands over what follows. *)
Lemma m_lit (s t : string) (pos : nat) (caps : captures) (k : @cont R) :
  (startsWith s t = false -> m false (lit s) t pos caps k = None)
  /\ (startsWith s t = true ->
      exists t', m false (lit s) t pos caps k = k t' (pos + String.length s) caps).
Proof.
  revert t pos. induction s as [ | c s IH]; intros t pos; cbn [lit m startsWith].
  - split; [discriminate | ]. intros _. exists t.
    cbn [String.length]. now rewrite Nat.add_0_r.
  - destruct t as [ | c' t]; [split; [reflexivity | discriminate] | ].
    unfold chr_eq. destruct (Ascii.eqb c c'); cbn [andb].
    + destruct (IH t (S pos)) as [Hn Hy]. split; [exact Hn | ].
      intros Hs. destruct (Hy Hs) as [t' ->]. exists t'.
      cbn [String.length]. now rewrite Nat.add_succ_r.
    + split; [reflexivity | discriminate].
Qed.

(** What a pattern that begins with a literal needs of the input. *)
Lemma m_lit_then (s : string) (r : regex) (t : string) (pos : nat)
    (caps : captures) (k : @cont R) :
  startsWith s t = false -> m false (Cat (lit s) r) t pos caps k = None.
Proof.
  intros Hs. cbn [m]. now apply (proj1 (m_lit s t pos caps _)).
Qed.

End Literal.

Lemma asksFor_plain (s : string) (n : nat) : Notions.asksFor (re (lit s) n) s.
Proof.
  intros t pos Hs. unfold matchAt. cbn [ignoreCase re source].
  now apply (proj1 (m_lit s t pos [] _)).
Qed.

Lemma asksFor_then (s : string) (r : regex) (n : nat) :
  Notions.asksFor (re (Cat (lit s) r) n) s.
Proof.
  intros t pos Hs. unfold matchAt. cbn [ignoreCase re source].
  now apply m_lit_then.
Qed.

(** Then it matches only a text that includes [s]. *)
Lemma search_includes (rx : RegExp) (s t : string) (pos : nat) :
  Notions.asksFor rx s -> includes t s = false -> search rx t pos = None.
Proof.
  intros Hrx. revert pos. induction t as [ | c t IH]; intros pos;
    cbn [includes search]; intros Hi; apply orb_false_iff in Hi as [Hs Hi];
    rewrite (Hrx _ pos Hs); [reflexivity | now apply IH].
Qed.

Lemma exec_includes (rx : RegExp) (s t : string) :
  Notions.asksFor rx s -> includes t s = false -> exec rx t = None.
Proof.
  intros Hrx Hi. unfold exec. now rewrite (search_includes rx s t 0 Hrx Hi).
Qed.

(** A literal pattern matches exactly the texts that include it. *)
Lemma search_plain (s t : string) (pos n : nat) :
  includes t s = true -> search (re (lit s) n) t pos <> None.
Proof.
  revert pos. induction t as [ | c t IH]; intros pos; cbn [includes search];
    intros Hi; apply orb_true_iff in Hi as [Hs | Hi].
  - unfold matchAt. cbn [ignoreCase re source].
    destruct (proj2 (m_lit s EmptyString pos [] (fun _ e c => Some (e, c))) Hs)
      as [t' ->]. discriminate.
  - discriminate.
  - unfold matchAt. cbn [ignoreCase re source].
    destruct (proj2 (m_lit s (String c t) pos [] (fun _ e c => Some (e, c))) Hs)
      as [t' ->]. discriminate.
  - destruct (matchAt _ _ _) as [[e caps] | ]; [discriminate | ].
    now apply IH.
Qed.

Lemma test_plain (s t : string) (n : nat) :
  test (re (lit s) n) t = includes t s.
Proof.
  unfold test. destruct (includes t s) eqn:Hi.
  - unfold exec. pose proof (search_plain s t 0 n Hi) as Hs.
    destruct (search _ _ _) as [[[b e] caps] | ]; [reflexivity | congruence].
  - now rewrite (exec_includes _ s t (asksFor_plain s n) Hi).
Qed.

(** ** Texts without capital letters *)

Lemma every_startsWith (p : ascii -> bool) (s t : string) :
  startsWith s t = true -> Spec.every p t = true -> Spec.every p s = true.
Proof.
  revert t. induction s as [ | c s IH]; intros t; [reflexivity | ].
  destruct t as [ | c' t]; cbn [startsWith Spec.every]; [discriminate | ].
  intros Hs Hp. apply andb_true_iff in Hs as [Hc Hs].
  apply andb_true_iff in Hp as [Hpc Hp].
  apply Ascii.eqb_eq in Hc as ->. rewrite Hpc. cbn [andb]. eauto.
Qed.

Lemma every_includes (p : ascii -> bool) (s t : string) :
  includes t s = true -> Spec.every p t = true -> Spec.every p s = true.
Proof.
  induction t as [ | c t IH]; cbn [includes]; intros Hi Hp;
    apply orb_true_iff in Hi as [Hs | Hi]; try discriminate;
    try (now apply (every_startsWith p s _ Hs)).
  cbn [Spec.every] in Hp. apply andb_true_iff in Hp as [_ Hp]. auto.
Qed.

Lemma toLowerChar_noCapital (c : ascii) :
  Notions.isCapital (toLowerChar c) = false.
Proof.
  destruct c as [[] [] [] [] [] [] [] []]; vm_compute; reflexivity.
Qed.

Lemma toLowerCase_noCapital (s : string) :
  Notions.noCapital (toLowerCase s) = true.
Proof.
  unfold Notions.noCapital. induction s as [ | c s IH]; [reflexivity | ].
  cbn [toLowerCase Spec.every]. now rewrite toLowerChar_noCapital, IH.
Qed.

(** A literal with a capital letter is not found in a text that was put
    in lower case. *)
Lemma plain_in_lower_case (s t : string) :
  Notions.noCapital s = false -> test (re (lit s) 0) (toLowerCase t) = false.
Proof.
  intros Hs. rewrite test_plain.
  destruct (includes (toLowerCase t) s) eqn:Hi; [ | reflexivity].
  pose proof (every_includes _ s _ Hi (toLowerCase_noCapital t)) as Hn.
  unfold Notions.noCapital in Hs. congruence.
Qed.

End RegexFacts.

(* ------------------------------------------------------------------ *)
(** * The rule-based recovery of the task service *)
(* ------------------------------------------------------------------ *)

Module RecoveryServiceFacts.
Import JS RecoveryService.

(** Setting the rules once more changes nothing. *)
Lemma initialize_new : initialize new = new.
Proof. reflexivity. Qed.

(** No pattern of the table is found in a message in lower case: every
    one of them holds a capital letter. *)
Lemma ruleLoop_lower_case (message : string) :
  ruleLoop (recoveryRules new) (toLowerCase message) = inr None.
Proof.
  cbn [new initializeRecoveryRules recoveryRules OrderedMap.set String.eqb
       Ascii.eqb Bool.eqb ruleLoop patterns existsb].
  unfold plain.
  rewrite !RegexFacts.plain_in_lower_case by (vm_compute; reflexivity).
  reflexivity.
Qed.

(** X1: the rule table of the recovery service never answers.
    [getRuleBasedRecovery] puts the message in lower case and then tests
    patterns that all hold a capital letter, so for every error signature
    it finds no rule, and [recover] returns the generic action
    [retry_clean] of confidence 0.3, whether or not a model is loaded:
    the confidence is never above 0.5. *)
Theorem recover_is_always_generic (errorSignature : ErrorSignature)
    (loaded : bool) :
  let s := mkRecoveryService (recoveryRules (initialize new)) loaded in
  getRuleBasedRecovery s errorSignature = inr None
  /\ recover s errorSignature = Some (getGenericRecovery errorSignature)
  /\ action (getGenericRecovery errorSignature) = "retry_clean"
  /\ PrimFloat.ltb 0.5%float (confidence (getGenericRecovery errorSignature))
     = false.
Proof.
  intros s.
  assert (getRuleBasedRecovery s errorSignature = inr None) as Hrule.
  { unfold getRuleBasedRecovery, s. cbn [recoveryRules].
    rewrite initialize_new. apply ruleLoop_lower_case. }
  split; [exact Hrule | ]. split; [ | split; reflexivity].
  unfold recover. rewrite Hrule. unfold getRLRecovery.
  destruct (rlModel s); [destruct (negb _) | ]; reflexivity.
Qed.

(** X2: the generic action is reported as a success whatever its command
    does.  [retryClean] with the parameters of the generic action spawns
    one command, [npm cache clean --force], in the project path of the
    context; [clearCache] turns a failure of that command into a result,
    which [retryClean] does not look at: whenever the command ends, with
    any exit code or with a spawn error, [retryClean] returns
    [{ success: true }]. *)
Theorem retryClean_reports_success (context : RecoveryEngine.Params)
    (errorSignature : ErrorSignature) (w : World) (child : ChildEnd)
    (rest : list ChildEnd) :
  children w = child :: rest ->
  child <> runs_on ->
  retryClean context (params (getGenericRecovery errorSignature)) w
  = (DeploymentWorkflow.Done (mkResult true None),
     mkWorld
       (spawned w
          ++ [("npm", ["cache"; "clean"; "--force"],
               RecoveryEngine.get "projectPath" context)])
       rest).
Proof.
  intros Hc Hchild. unfold retryClean, getGenericRecovery.
  cbn [params RecoveryEngine.get String.eqb Ascii.eqb Bool.eqb
       RecoveryEngine.isTruthy].
  unfold clearCache, commandOf, runCommand. rewrite Hc.
  cbn [RecoveryEngine.get hd tl].
  change (nth 0 (split " " "npm cache clean --force") EmptyString)
    with "npm".
  change (tl (split " " "npm cache clean --force"))
    with ["cache"; "clean"; "--force"].
  destruct child as [code | message | ]; [ | reflexivity | congruence].
  destruct (CommandRunner.isZero code); reflexivity.
Qed.

(** The cache cannot be cleaned, and the recovery is a success. *)
Lemma retryClean_reports_success_witness :
  retryClean [("projectPath", RecoveryEngine.VStr "/srv/app")]
    (params (getGenericRecovery (mkErrorSignature "build_error" "0" "boom" [] [])))
    (mkWorld [] [closes (Some 1%Z)])
  = (DeploymentWorkflow.Done (mkResult true None),
     mkWorld
       ([] ++ [("npm", ["cache"; "clean"; "--force"],
                RecoveryEngine.get "projectPath"
                  [("projectPath", RecoveryEngine.VStr "/srv/app")])])
       []).
Proof.
  apply (retryClean_reports_success
           [("projectPath", RecoveryEngine.VStr "/srv/app")]
           (mkErrorSignature "build_error" "0" "boom" [] [])
           (mkWorld [] [closes (Some 1%Z)]) (closes (Some 1%Z)) []).
  - reflexivity.
  - discriminate.
Defined.

End RecoveryServiceFacts.

(* ------------------------------------------------------------------ *)
(** * The hash of the task service that spawns the build itself *)
(* ------------------------------------------------------------------ *)

Module TaskServiceFacts.
Import JS TaskService.

Local Open Scope Z_scope.

Lemma toInt32_shift (z : Z) : exists k, toInt32 z = z + 4294967296 * k.
Proof.
  exists (- ((z + 2147483648) / 4294967296)). unfold toInt32.
  rewrite Z.mod_eq by discriminate. lia.
Qed.

Lemma toInt32_range (z : Z) : -2147483648 <= toInt32 z < 2147483648.
Proof.
  unfold toInt32.
  pose proof (Z.mod_pos_bound (z + 2147483648) 4294967296 eq_refl). lia.
Qed.

Lemma toInt32_plus (z k : Z) : toInt32 (z + 4294967296 * k) = toInt32 z.
Proof.
  unfold toInt32.
  replace (z + 4294967296 * k + 2147483648)
    with (z + 2147483648 + k * 4294967296) by lia.
  now rewrite Z.mod_add by discriminate.
Qed.

Lemma toInt32_idem (z : Z) : toInt32 (toInt32 z) = toInt32 z.
Proof.
  destruct (toInt32_shift z) as [k E].
  transitivity (toInt32 (z + 4294967296 * k)); [now rewrite <- E | ].
  apply toInt32_plus.
Qed.

(** One turn of the loop multiplies by 31 and adds the code unit, modulo
    2^32. *)
Lemma hash_step (h c : Z) :
  and_ (shl (toInt32 h) 5 - toInt32 h + c) (shl (toInt32 h) 5 - toInt32 h + c)
  = toInt32 (31 * h + c).
Proof.
  unfold and_, shl. rewrite Z.land_diag, !toInt32_idem.
  rewrite Z.shiftl_mul_pow2 by lia. change (2 ^ 5) with 32.
  destruct (toInt32_shift h) as [k1 E1].
  destruct (toInt32_shift (toInt32 h * 32)) as [k2 E2].
  rewrite E2, E1.
  replace ((h + 4294967296 * k1) * 32 + 4294967296 * k2
           - (h + 4294967296 * k1) + c)
    with (31 * h + c + 4294967296 * (31 * k1 + k2)) by lia.
  apply toInt32_plus.
Qed.

Lemma hashLoop_poly (h : Z) (message : string) :
  hashLoop (toInt32 h) message = toInt32 (Notions.poly31 h message).
Proof.
  revert h. induction message as [ | c rest IH]; intros h;
    cbn [hashLoop Notions.poly31]; [reflexivity | ].
  rewrite hash_step. apply IH.
Qed.

(** X3: the hash of the task service is the polynomial hash in 31 of the
    code units of the message, taken modulo 2^32 and read as a signed
    32-bit integer: the shift, the subtraction and the [hash & hash] of
    the loop neither lose nor add anything to it.  The value lies within
    the signed 32-bit range, and the text returned is the numeral in base
    36 of its absolute value. *)
Theorem generateErrorHash_is_polynomial (message : string) :
  hashLoop 0 message = toInt32 (Notions.poly31 0 message)
  /\ -2147483648 <= hashLoop 0 message < 2147483648
  /\ generateErrorHash message
     = toString36 (Z.to_N (Z.abs (toInt32 (Notions.poly31 0 message)))).
Proof.
  assert (hashLoop 0 message = toInt32 (Notions.poly31 0 message)) as H
    by apply (hashLoop_poly 0 message).
  split; [exact H | ]. split.
  - rewrite H. apply toInt32_range.
  - unfold generateErrorHash. now rewrite H.
Qed.

(** The hash of two short messages, and one that wraps around. *)
Example generateErrorHash_samples :
  generateErrorHash "" = "0"
  /\ generateErrorHash "ab" = "2e9"
  /\ generateErrorHash "Build process exited with code 1" = "ns03vs".
Proof. repeat split; vm_compute; reflexivity. Qed.

End TaskServiceFacts.

(* ------------------------------------------------------------------ *)
(** * The Process Supervisor: the registry of live processes *)
(* ------------------------------------------------------------------ *)

Module RegistryFacts.
Import JS CommandRunner.

(** The identifier does not depend on the command. *)
Lemma spawn_processId (r : CommandRunner) (command : string)
    (args : list string) (now : Z) :
  processId (snd (spawn r command args now)) = Notions.nextProcessId r now.
Proof. reflexivity. Qed.

(** An event leaves the identifier and the command of the run, and the
    counter, the listeners and the signals of the runner, as they are. *)
Lemma handle_keeps (now : Z) (ev : ChildEvent) (r : CommandRunner) (run : Run) :
  processId (snd (handle now ev r run)) = processId run
  /\ command (snd (handle now ev r run)) = command run
  /\ processCounter (fst (handle now ev r run)) = processCounter r
  /\ errorListeners (fst (handle now ev r run)) = errorListeners r
  /\ signalsSent (fst (handle now ev r run)) = signalsSent r.
Proof.
  destruct ev; cbn [handle]; unfold onClose, onError;
    cbn [setActive errorListeners]; try destruct (errorListeners r) eqn:E;
    cbn; rewrite ?E; repeat split.
Qed.

Lemma deliver_keeps (t : Trace) (r : CommandRunner) (run : Run) :
  processId (snd (deliver t r run)) = processId run
  /\ command (snd (deliver t r run)) = command run
  /\ processCounter (fst (deliver t r run)) = processCounter r
  /\ errorListeners (fst (deliver t r run)) = errorListeners r
  /\ signalsSent (fst (deliver t r run)) = signalsSent r.
Proof.
  revert r run. induction t as [ | [now ev] t IH]; intros r run;
    cbn [deliver]; [repeat split | ].
  destruct (handle now ev r run) as [r' run'] eqn:Hh.
  destruct (handle_keeps now ev r run) as (H1 & H2 & H3 & H4 & H5).
  rewrite Hh in H1, H2, H3, H4, H5. cbn [fst snd] in *.
  destruct (IH r' run') as (I1 & I2 & I3 & I4 & I5).
  repeat split; congruence.
Qed.

(** The live processes after the events of a run: the entry of the run is
    deleted by the first [close] or [error], and nothing else changes. *)
Lemma deliver_active (t : Trace) (r : CommandRunner) (run : Run) :
  activeProcesses (fst (deliver t r run))
  = if Spec.quiet t then activeProcesses r
    else delete (processId run) (activeProcesses r).
Proof.
  revert r run. induction t as [ | [now ev] t IH]; intros r run;
    cbn [deliver]; [reflexivity | ].
  destruct (handle now ev r run) as [r' run'] eqn:Hh.
  rewrite IH.
  pose proof (proj1 (handle_keeps now ev r run)) as Hid.
  rewrite Hh in Hid. cbn [snd] in Hid. rewrite Hid.
  unfold Spec.quiet. cbn [forallb snd].
  destruct ev; cbn [handle] in Hh; unfold onClose, onError in Hh;
    cbn [setActive errorListeners] in Hh;
    try destruct (errorListeners r); injection Hh as <- <-;
    cbn [Spec.settles negb andb]; unfold emit, throwUncaught, setActive;
    cbn [activeProcesses]; try reflexivity;
    fold (Spec.quiet t); destruct (Spec.quiet t);
    rewrite ?delete_delete_eq; reflexivity.
Qed.

Lemma execute_active (r : CommandRunner) (command : string)
    (args : list string) (cwd : string) (options : CommandOptions) (now : Z)
    (t : Trace) :
  command <> EmptyString \/ t <> [] ->
  activeProcesses (fst (execute r command args cwd options now t))
  = if Spec.quiet t
    then <[Notions.nextProcessId r now := mkChildProcess command args]>
           (activeProcesses r)
    else delete (Notions.nextProcessId r now) (activeProcesses r).
Proof.
  intros H. rewrite (RunnerFacts.execute_with_child _ _ _ _ _ _ _ H).
  cbn [fst]. rewrite deliver_active.
  unfold spawn. cbn [fst snd activeProcesses processId].
  destruct (Spec.quiet t); [reflexivity | ].
  apply delete_insert_eq.
Qed.

(** X4: a run is in the registry of live processes exactly until its child
    closes or fails.  For a command that [spawn] accepts, after [execute]
    has delivered the events of the child, the identifier of the run is
    active if and only if no [close] and no [error] was among them, also
    when the runner has no listener for [error] and the handler throws.
    For the empty command, which [spawn] refuses, there is no child:
    nothing is registered, and the promise is rejected with what [spawn]
    threw.  In both cases the other entries of the registry are as they
    were. *)
Theorem run_is_active_until_it_settles (r : CommandRunner) (command : string)
    (args : list string) (cwd : string) (options : CommandOptions) (now : Z)
    (t : Trace) :
  let processId := Notions.nextProcessId r now in
  let run := execute r command args cwd options now t in
  (command <> EmptyString ->
   isProcessActive processId (fst run) = Spec.quiet t)
  /\ (command = EmptyString -> t = [] ->
      activeProcesses (fst run) = activeProcesses r
      /\ snd run
         = Rejected "The argument 'file' cannot be empty. Received ''")
  /\ (forall other, other <> processId ->
        activeProcesses (fst run) !! other = activeProcesses r !! other).
Proof.
  intros pid run. subst run. split; [ | split].
  - intros Hc. unfold isProcessActive.
    rewrite execute_active by now left. fold pid.
    destruct (Spec.quiet t).
    + rewrite lookup_insert_eq. apply bool_decide_eq_true. eauto.
    + rewrite lookup_delete_eq. apply bool_decide_eq_false.
      intros [x Hx]. discriminate.
  - intros -> ->. now rewrite RunnerFacts.execute_without_child.
  - intros other Hother.
    destruct (String.eqb_spec command EmptyString) as [-> | Hc];
      [destruct t as [ | e t];
       [now rewrite RunnerFacts.execute_without_child | ] | ];
      (rewrite execute_active by (try (now left); right; discriminate));
      fold pid; destruct (Spec.quiet _);
      rewrite ?lookup_insert_ne, ?lookup_delete_ne by congruence;
      reflexivity.
Qed.

(** X5: what the runner emits for a run that ends with the close of its
    child.  Every chunk of standard output and standard error is forwarded
    as one event, tagged with the identifier and the command of the run,
    in the order of arrival; then one [completed] event follows, with the
    result the promise is fulfilled with.  Nothing else is emitted. *)
Theorem output_is_forwarded_in_order (r : CommandRunner) (command : string)
    (args : list string) (cwd : string) (options : CommandOptions) (now : Z)
    (pre : Trace) (at_ : Z) (code : option Z) (signal : option string) :
  Spec.quiet pre = true ->
  let processId := Notions.nextProcessId r now in
  let result :=
    mkCommandResult (isZero code) (trim (Spec.stdoutOf pre))
      (trim (Spec.stderrOf pre)) (codeOrZero code) (at_ - now) in
  let run := execute r command args cwd options now
               (pre ++ [(at_, close code signal)]) in
  emitted (fst run)
  = emitted r ++ Notions.forwarded processId command pre
      ++ [emit_completed processId command result at_]
  /\ snd run = Fulfilled result.
Proof.
  intros Hq pid result run. subst run.
  rewrite RunnerFacts.execute_with_child
    by (right; apply RunnerFacts.trace_not_nil).
  pose proof (spawn_processId r command args now) as Hid. fold pid in Hid.
  destruct (spawn r command args now) as [r0 run0] eqn:Hs.
  cbn [fst snd] in Hid |- *.
  assert (emitted r0 = emitted r /\ CommandRunner.command run0 = command
          /\ startTime run0 = now /\ stdout_ run0 = EmptyString
          /\ stderr_ run0 = EmptyString /\ promise run0 = Pending)
    as (He & Hc & Ht & Ho & Hr & Hp).
  { unfold spawn in Hs. injection Hs as <- <-. repeat split. }
  rewrite RunnerFacts.deliver_app.
  pose proof (RunnerFacts.deliver_quiet_emitted pre r0 run0 Hq) as Hem.
  destruct (RunnerFacts.deliver_quiet pre r0 run0 Hq) as (r1 & Hd & _ & _).
  rewrite Hd in Hem |- *. cbn [fst] in Hem.
  cbn [deliver handle]. unfold onClose.
  cbn [fst snd processId CommandRunner.command startTime stdout_ stderr_
       promise emit emitted setActive].
  rewrite Hem, He, Hid, Hc, Ht, Ho, Hr, Hp, !HashFacts.append_nil.
  split; [now rewrite <- app_assoc | reflexivity].
Qed.

(** A build that writes to both streams and exits with code 2. *)
Lemma output_is_forwarded_in_order_witness :
  let run :=
    execute new "npm" ["run"; "build"] "/srv/app" noOptions 1000
      ([(1001%Z, stdout_data "a "); (1002%Z, stderr_data "b");
        (1003%Z, stdout_data "c")]
       ++ [(1004%Z, close (Some 2%Z) None)]) in
  emitted (fst run)
  = emitted new
      ++ Notions.forwarded (Notions.nextProcessId new 1000) "npm"
           [(1001%Z, stdout_data "a "); (1002%Z, stderr_data "b");
            (1003%Z, stdout_data "c")]
      ++ [emit_completed (Notions.nextProcessId new 1000) "npm"
            (mkCommandResult (isZero (Some 2%Z))
               (trim (Spec.stdoutOf
                        [(1001%Z, stdout_data "a "); (1002%Z, stderr_data "b");
                         (1003%Z, stdout_data "c")]))
               (trim (Spec.stderrOf
                        [(1001%Z, stdout_data "a "); (1002%Z, stderr_data "b");
                         (1003%Z, stdout_data "c")]))
               (codeOrZero (Some 2%Z)) (1004 - 1000))
            1004]
  /\ snd run
     = Fulfilled
         (mkCommandResult (isZero (Some 2%Z))
            (trim (Spec.stdoutOf
                     [(1001%Z, stdout_data "a "); (1002%Z, stderr_data "b");
                      (1003%Z, stdout_data "c")]))
            (trim (Spec.stderrOf
                     [(1001%Z, stdout_data "a "); (1002%Z, stderr_data "b");
                      (1003%Z, stdout_data "c")]))
            (codeOrZero (Some 2%Z)) (1004 - 1000)).
Proof.
  exact (output_is_forwarded_in_order new "npm" ["run"; "build"] "/srv/app"
           noOptions 1000
           [(1001%Z, stdout_data "a "); (1002%Z, stderr_data "b");
            (1003%Z, stdout_data "c")]
           1004 (Some 2%Z) None eq_refl).
Defined.

(** ** Cancelling by handle *)

(** X6: [killProcess] on a handle.  For an identifier that is not in the
    registry it returns false and changes nothing.  For a live process it
    returns true, sends that process the graceful signal and no other
    signal, and removes it from the registry: the process is no longer
    active, the count of live processes drops by one, every other entry
    stays, and a second [killProcess] on the same handle returns false
    and changes nothing. *)
Theorem killProcess_by_handle (processId : string) (r : CommandRunner) :
  (isProcessActive processId r = false -> killProcess processId r = (false, r))
  /\ (isProcessActive processId r = true ->
      let r' := snd (killProcess processId r) in
      fst (killProcess processId r) = true
      /\ signalsSent r' = signalsSent r ++ [(processId, "SIGTERM")]
      /\ isProcessActive processId r' = false
      /\ S (getProcessCount r') = getProcessCount r
      /\ (forall other, other <> processId ->
            activeProcesses r' !! other = activeProcesses r !! other)
      /\ killProcess processId r' = (false, r')).
Proof.
  unfold isProcessActive, killProcess. split.
  - intros Hn. apply bool_decide_eq_false in Hn.
    destruct (activeProcesses r !! processId) eqn:E; [ | reflexivity].
    exfalso. apply Hn. eauto.
  - intros Hy. apply bool_decide_eq_true in Hy as [process E]. rewrite E.
    unfold getProcessCount, kill, setActive.
    cbn [fst snd activeProcesses signalsSent].
    rewrite lookup_delete_eq.
    split; [reflexivity | ]. split; [reflexivity | ].
    split; [apply bool_decide_eq_false; intros [x Hx]; discriminate | ].
    split.
    { rewrite <- (insert_delete_id _ _ _ E) at 2.
      now rewrite map_size_insert_None by apply lookup_delete_eq. }
    split; [ | reflexivity].
    intros other Hother. now rewrite lookup_delete_ne.
Qed.

(** A build is cancelled by its handle, twice. *)
Lemma killProcess_by_handle_witness :
  let r := fst (spawn new "npm" ["run"; "build"] 1000) in
  isProcessActive "cmd_1_1000" r = true
  /\ fst (killProcess "cmd_1_1000" r) = true
  /\ signalsSent (snd (killProcess "cmd_1_1000" r))
     = signalsSent r ++ [("cmd_1_1000", "SIGTERM")]
  /\ killProcess "cmd_1_1000" (snd (killProcess "cmd_1_1000" r))
     = (false, snd (killProcess "cmd_1_1000" r))
  /\ killProcess "cmd_7_1000" r = (false, r).
Proof.
  cbv zeta.
  pose proof (killProcess_by_handle "cmd_1_1000"
                (fst (spawn new "npm" ["run"; "build"] 1000))) as [_ H].
  pose proof (killProcess_by_handle "cmd_7_1000"
                (fst (spawn new "npm" ["run"; "build"] 1000))) as [H7 _].
  specialize (H eq_refl) as (H1 & H2 & _ & _ & _ & H6).
  specialize (H7 eq_refl).
  repeat split; assumption || reflexivity.
Defined.

(** ** Handles *)

Lemma string_of_uint_digits (d : Decimal.uint) :
  Spec.every isDigit (DecimalString.NilEmpty.string_of_uint d) = true.
Proof. induction d; cbn; auto. Qed.

(** The numeral of a counter: decimal digits only. *)
Lemma numeral_digits (n : N) :
  Spec.every isDigit (DecimalString.NilZero.string_of_uint (N.to_uint n))
  = true.
Proof.
  unfold DecimalString.NilZero.string_of_uint.
  destruct (N.to_uint n); try apply string_of_uint_digits. reflexivity.
Qed.

Lemma numeral_inj (n n' : N) :
  DecimalString.NilZero.string_of_uint (N.to_uint n)
  = DecimalString.NilZero.string_of_uint (N.to_uint n') ->
  n = n'.
Proof.
  intros H. apply DecimalN.Unsigned.to_uint_inj.
  assert (forall k, N.to_uint k <> Decimal.Nil) as Hnil.
  { intros [ | p]; [discriminate | apply DecimalPos.Unsigned.to_uint_nonnil]. }
  pose proof (DecimalString.NilZero.usu _ (Hnil n)) as E.
  pose proof (DecimalString.NilZero.usu _ (Hnil n')) as E'.
  rewrite H in E. congruence.
Qed.

(** Two numerals, each followed by an underscore: where the texts agree,
    the numerals do. *)
Lemma digits_then_underscore (d d' x x' : string) :
  Spec.every isDigit d = true -> Spec.every isDigit d' = true ->
  d +:+ String "_" x = d' +:+ String "_" x' -> d = d'.
Proof.
  revert d'. induction d as [ | c d IH]; intros [ | c' d'];
    rewrite ?HashFacts.append_nil, ?HashFacts.append_cons;
    cbn [Spec.every]; intros Hd Hd' E.
  - reflexivity.
  - injection E as <- _. discriminate.
  - injection E as -> _. discriminate.
  - injection E as <- E. apply andb_true_iff in Hd as [_ Hd].
    apply andb_true_iff in Hd' as [_ Hd']. f_equal. eauto.
Qed.

(** The identifier of a run tells the counter it was made from. *)
Lemma nextProcessId_counter (r r' : CommandRunner) (now now' : Z) :
  Notions.nextProcessId r now = Notions.nextProcessId r' now' ->
  processCounter r = processCounter r'.
Proof.
  unfold Notions.nextProcessId, spawn. cbn [snd processId].
  rewrite !HashFacts.append_cons, !HashFacts.append_nil.
  intros [= E].
  apply digits_then_underscore in E; try apply numeral_digits.
  apply numeral_inj in E. lia.
Qed.

(** X7: the handles of a runner are fresh.  Every [execute] raises the
    counter of the runner by one, whatever its child does, and the
    identifier of a run tells the counter it was made from: a run started
    from a runner with another counter, at whatever time, has another
    identifier.  So no two runs of one runner share a handle, also when
    they start within the same millisecond. *)
Theorem handles_are_fresh (r : CommandRunner) (command : string)
    (args : list string) (cwd : string) (options : CommandOptions) (now : Z)
    (t : Trace) :
  processCounter (fst (execute r command args cwd options now t))
  = (processCounter r + 1)%N
  /\ (forall r' now',
        processCounter r' <> processCounter r ->
        Notions.nextProcessId r' now' <> Notions.nextProcessId r now)
  /\ Notions.nextProcessId
       (fst (execute r command args cwd options now t)) now
     <> Notions.nextProcessId r now.
Proof.
  assert (processCounter (fst (execute r command args cwd options now t))
          = (processCounter r + 1)%N) as Hc.
  { assert (command = EmptyString /\ t = []
            \/ (command <> EmptyString \/ t <> [])) as [[-> ->] | H].
    { destruct (String.eqb_spec command EmptyString); [ | now right; left].
      destruct t; [now left | right; right; discriminate]. }
    - now rewrite RunnerFacts.execute_without_child.
    - rewrite (RunnerFacts.execute_with_child _ _ _ _ _ _ _ H). cbn [fst].
      now rewrite (proj1 (proj2 (proj2 (deliver_keeps t _ _)))). }
  split; [exact Hc | ]. split.
  - intros r' now' Hne E. apply Hne. now apply nextProcessId_counter in E.
  - intros E. apply nextProcessId_counter in E. rewrite Hc in E. lia.
Qed.

(** ** The grace timers *)

Lemma killed_kill (processId other signal : string) (r : CommandRunner) :
  killed processId (kill other signal r)
  = killed processId r || String.eqb other processId.
Proof.
  unfold killed, kill. cbn [signalsSent].
  rewrite existsb_app. cbn [existsb fst]. now rewrite orb_false_r.
Qed.

Lemma killAll_fold (ids : list string) (r : CommandRunner) :
  let r' := fold_left (fun r id => kill id "SIGTERM" r) ids r in
  activeProcesses r' = activeProcesses r
  /\ signalsSent r' = signalsSent r ++ map (fun id => (id, "SIGTERM")) ids
  /\ (forall id, killed id r = true \/ In id ids -> killed id r' = true).
Proof.
  revert r. induction ids as [ | id ids IH]; intros r; cbn [fold_left map].
  - rewrite app_nil_r. repeat split. intros id [H | []]. exact H.
  - destruct (IH (kill id "SIGTERM" r)) as (Ha & Hs & Hk).
    cbv zeta. rewrite Ha, Hs. cbn [kill activeProcesses signalsSent].
    rewrite <- app_assoc. repeat split.
    intros id' H. apply Hk. rewrite killed_kill.
    destruct H as [H | [-> | H]]; [left; now rewrite H | | now right].
    left. rewrite String.eqb_refl. apply orb_true_r.
Qed.

Lemma killed_later (id : string) (r r' : CommandRunner) :
  Notions.later r r' -> killed id r = true -> killed id r' = true.
Proof.
  intros [more Hmore] Hk. unfold killed in *.
  rewrite Hmore, existsb_app, Hk. reflexivity.
Qed.

(** The loop of the timer of [killAllProcesses]: the forceful signal goes
    to the processes it visits that have not been sent a signal. *)
Lemma grace_fold (ids : list string) (r : CommandRunner) :
  List.NoDup ids ->
  let r' :=
    fold_left
      (fun r id => if negb (killed id r) then kill id "SIGKILL" r else r)
      ids r in
  activeProcesses r' = activeProcesses r
  /\ signalsSent r'
     = signalsSent r
         ++ map (fun id => (id, "SIGKILL")) (Notions.neverSignalled ids r).
Proof.
  revert r. induction ids as [ | id ids IH]; intros r Hnd;
    cbn [fold_left Notions.neverSignalled List.filter map].
  - now rewrite app_nil_r.
  - apply List.NoDup_cons_iff in Hnd as [Hnot Hnd].
    assert (forall r0 : CommandRunner,
              (forall id', In id' ids -> killed id' r0 = killed id' r) ->
              Notions.neverSignalled ids r0 = Notions.neverSignalled ids r)
      as Hsame.
    { intros r0 H. unfold Notions.neverSignalled.
      apply List.filter_ext_in. intros id' Hin. now rewrite H. }
    destruct (killed id r) eqn:Hk; cbn [negb].
    + exact (IH r Hnd).
    + destruct (IH (kill id "SIGKILL" r) Hnd) as [Ha Hs]. cbv zeta.
      rewrite Ha, Hs. cbn [kill activeProcesses signalsSent map].
      split; [reflexivity | ]. rewrite <- app_assoc. cbn [app].
      do 2 f_equal. f_equal. apply Hsame. intros id' Hin.
      rewrite killed_kill.
      destruct (String.eqb_spec id id') as [-> | _];
        [contradiction | apply orb_false_r].
Qed.

(** X8: a process that was sent the graceful signal is never sent the
    forceful one.  [process.killed] is set as soon as [kill] has sent the
    process a signal, so the timer that [killProcess] sets five seconds
    before finds it set and sends nothing, whatever the runner has done
    in between; so does the grace timer of [options.timeout] in
    [execute].  The timer of [killAllProcesses] visits the registry as it
    is five seconds later: it sends the forceful signal to exactly the
    processes of the registry that were never sent a signal, none of
    which [killAllProcesses] had visited, and then clears the
    registry. *)
Theorem forceful_signal_is_never_sent :
  (forall processId r r',
      isProcessActive processId r = true ->
      Notions.later (snd (killProcess processId r)) r' ->
      signalsSent (snd (killProcess processId r))
      = signalsSent r ++ [(processId, "SIGTERM")]
      /\ killProcess_timer processId r' = r')
  /\ (forall processId r r',
        Notions.later (timeout_timer processId r) r' ->
        timeout_grace_timer processId r' = r')
  /\ (forall ids r ids' r',
        Notions.later (killAllProcesses ids r) r' ->
        List.NoDup ids' ->
        signalsSent (killAllProcesses ids r)
        = signalsSent r ++ map (fun id => (id, "SIGTERM")) ids
        /\ signalsSent (killAllProcesses_timer ids' r')
           = signalsSent r'
               ++ map (fun id => (id, "SIGKILL"))
                    (Notions.neverSignalled ids' r')
        /\ (forall id, In id ids ->
              ~ In id (Notions.neverSignalled ids' r'))
        /\ activeProcesses (killAllProcesses_timer ids' r') = ∅).
Proof.
  split; [ | split].
  - intros processId r r' Hy Hlater. unfold isProcessActive in Hy.
    apply bool_decide_eq_true in Hy as [process E].
    unfold killProcess in *. rewrite E in *. cbn [snd] in *.
    split; [reflexivity | ].
    unfold killProcess_timer.
    rewrite (killed_later processId _ r' Hlater); [reflexivity | ].
    unfold killed, kill, setActive. cbn [signalsSent].
    rewrite existsb_app. cbn [existsb fst].
    now rewrite String.eqb_refl, orb_true_r.
  - intros processId r r' Hlater. unfold timeout_grace_timer.
    rewrite (killed_later processId _ r' Hlater); [reflexivity | ].
    unfold timeout_timer. rewrite killed_kill.
    now rewrite String.eqb_refl, orb_true_r.
  - intros ids r ids' r' Hlater Hnd.
    destruct (killAll_fold ids r) as (_ & Hs & Hk). cbv zeta in Hs, Hk.
    destruct (grace_fold ids' r' Hnd) as [_ Hg]. cbv zeta in Hg.
    split; [exact Hs | ]. split; [exact Hg | ]. split; [ | reflexivity].
    intros id Hin Hnever. unfold Notions.neverSignalled in Hnever.
    apply List.filter_In in Hnever as [_ Hnever].
    rewrite (killed_later id _ r' Hlater) in Hnever; [discriminate | ].
    apply Hk. now right.
Qed.

(** The registry in the order of registration: a run that is registered
    is listed last. *)
Lemma listsRegistry_new : listsRegistry [] new.
Proof.
  split; [constructor | ]. intros id. cbn.
  rewrite lookup_empty. split; [tauto | intros [x Hx]; discriminate].
Qed.

Lemma listsRegistry_registered (ids : list string) (id : string)
    (process : ChildProcess) (r r' : CommandRunner) :
  listsRegistry ids r ->
  activeProcesses r !! id = None ->
  activeProcesses r' = <[id := process]> (activeProcesses r) ->
  listsRegistry (ids ++ [id]) r'.
Proof.
  intros [Hnd Hin] Hfresh Hr'. split.
  - apply List.NoDup_app; [exact Hnd | repeat constructor; intros [] | ].
    intros x Hx [<- | []]. apply Hin in Hx as [y Hy]. congruence.
  - intros x. rewrite Hr', in_app_iff, Hin. cbn.
    destruct (decide (x = id)) as [-> | Hne].
    + rewrite lookup_insert_eq. split; [eauto | now right; left].
    + rewrite lookup_insert_ne by congruence.
      split; [intros [H | [H | []]]; [exact H | congruence] | tauto].
Qed.

(** A process that is spawned between [killAllProcesses] and its timer is
    sent the forceful signal, and no graceful one before. *)
Example the_timer_reaches_a_late_process :
  let r := fst (spawn new "npm" ["run"; "build"] 1000) in
  let r' :=
    fst (spawn (killAllProcesses ["cmd_1_1000"] r) "npm" ["test"] 2000) in
  listsRegistry ["cmd_1_1000"] r
  /\ listsRegistry ["cmd_1_1000"; "cmd_2_2000"] r'
  /\ signalsSent (killAllProcesses_timer ["cmd_1_1000"; "cmd_2_2000"] r')
     = [("cmd_1_1000", "SIGTERM"); ("cmd_2_2000", "SIGKILL")].
Proof.
  cbv zeta.
  assert (listsRegistry ["cmd_1_1000"]
            (fst (spawn new "npm" ["run"; "build"] 1000))) as H1
    by (apply (listsRegistry_registered [] "cmd_1_1000"
                 (mkChildProcess "npm" ["run"; "build"]) new);
        [exact listsRegistry_new | reflexivity | reflexivity]).
  split; [exact H1 | ]. split; [ | reflexivity].
  apply (listsRegistry_registered ["cmd_1_1000"] "cmd_2_2000"
           (mkChildProcess "npm" ["test"])
           (fst (spawn new "npm" ["run"; "build"] 1000)));
    [exact H1 | reflexivity | reflexivity].
Qed.

End RegistryFacts.

(* ------------------------------------------------------------------ *)
(** * The Error Classifier: its table and what a signature carries *)
(* ------------------------------------------------------------------ *)

Module TableFacts.
Import JS ErrorDetector.

Lemma Map_get_set_eq (k : string) (v : RegExp) (mp : PatternMap) :
  Notions.Map_get k (Map_set k v mp) = Some v.
Proof.
  induction mp as [ | [k' v'] mp IH]; cbn [Map_set Notions.Map_get].
  - now rewrite String.eqb_refl.
  - destruct (String.eqb k k') eqn:E; cbn [Notions.Map_get]; rewrite ?E.
    + now rewrite String.eqb_refl.
    + exact IH.
Qed.

Lemma Map_get_set_ne (k k' : string) (v : RegExp) (mp : PatternMap) :
  k <> k' -> Notions.Map_get k (Map_set k' v mp) = Notions.Map_get k mp.
Proof.
  intros Hne. induction mp as [ | [k0 v0] mp IH]; cbn [Map_set Notions.Map_get].
  - now apply String.eqb_neq in Hne as ->.
  - destruct (String.eqb k' k0) eqn:E; cbn [Notions.Map_get].
    + apply String.eqb_eq in E as <-.
      now apply String.eqb_neq in Hne as ->.
    + now rewrite IH.
Qed.

(** Setting a key to the value it has changes nothing. *)
Lemma Map_set_same (k : string) (v : RegExp) (mp : PatternMap) :
  Notions.Map_get k mp = Some v -> Map_set k v mp = mp.
Proof.
  induction mp as [ | [k' v'] mp IH]; cbn [Map_set Notions.Map_get];
    [discriminate | ].
  destruct (String.eqb k k') eqn:E.
  - apply String.eqb_eq in E as <-. now intros [= ->].
  - intros H. now rewrite IH.
Qed.

Lemma setAll_get_other (l mp : PatternMap) (k : string) :
  ~ In k (map fst l) ->
  Notions.Map_get k (Notions.setAll l mp) = Notions.Map_get k mp.
Proof.
  revert mp. induction l as [ | [k' v'] l IH]; intros mp Hn; [reflexivity | ].
  cbn [Notions.setAll fold_left fst snd]. fold (Notions.setAll l).
  rewrite IH by (intros H; apply Hn; now right).
  apply Map_get_set_ne. intros ->. apply Hn. now left.
Qed.

(** Once the entries of [l] are set, each key of [l] has its value. *)
Lemma setAll_get (l mp : PatternMap) :
  List.NoDup (map fst l) ->
  Forall (fun kv => Notions.Map_get (fst kv) (Notions.setAll l mp)
                    = Some (snd kv)) l.
Proof.
  revert mp. induction l as [ | [k v] l IH]; intros mp Hnd; constructor.
  - cbn [Notions.setAll fold_left fst snd]. fold (Notions.setAll l).
    inversion Hnd as [ | ? ? Hk Hl]; subst.
    rewrite setAll_get_other by exact Hk. apply Map_get_set_eq.
  - inversion Hnd; subst. apply IH. assumption.
Qed.

(** Then setting them once more changes nothing. *)
Lemma setAll_fixed (l mp : PatternMap) :
  Forall (fun kv => Notions.Map_get (fst kv) mp = Some (snd kv)) l ->
  Notions.setAll l mp = mp.
Proof.
  induction 1 as [ | [k v] l Hkv Hl IH]; [reflexivity | ].
  cbn [Notions.setAll fold_left fst snd]. fold (Notions.setAll l).
  cbn [fst snd] in Hkv. now rewrite (Map_set_same _ _ _ Hkv).
Qed.

Lemma setupErrorPatterns_setAll (d : ErrorDetector) :
  errorPatterns (setupErrorPatterns d)
  = Notions.setAll Notions.builtinPatterns (errorPatterns d).
Proof. reflexivity. Qed.

Lemma builtin_names_differ : List.NoDup (map fst Notions.builtinPatterns).
Proof.
  repeat (constructor;
          [intros H; cbn in H;
           repeat (destruct H as [H | H]; [discriminate H | ]); exact H | ]).
  constructor.
Qed.

(** X9: initializing the classifier a second time changes nothing.
    [setupErrorPatterns] sets its twenty-five names in a map in which a
    name that is present keeps its place, so for every classifier,
    whatever patterns were added to it before, [initialize] after
    [initialize] gives the classifier the first [initialize] gave: the
    same entries in the same order. *)
Theorem initialize_twice (d : ErrorDetector) :
  initialize (initialize d) = initialize d
  /\ length (errorPatterns (initialize new)) = 25%nat.
Proof.
  split; [ | reflexivity].
  unfold initialize. f_equal.
  change (errorPatterns
            (setupErrorPatterns
               (mkErrorDetector (errorPatterns (setupErrorPatterns d)) true)))
    with (Notions.setAll Notions.builtinPatterns
            (errorPatterns (setupErrorPatterns d))).
  rewrite setupErrorPatterns_setAll.
  apply setAll_fixed, setAll_get, builtin_names_differ.
Qed.

(** ** Adding and removing a pattern *)

Lemma Map_set_fresh (k : string) (v : RegExp) (mp : PatternMap) :
  Map_has k mp = false -> Map_set k v mp = mp ++ [(k, v)].
Proof.
  unfold Map_has.
  induction mp as [ | [k' v'] mp IH]; cbn [Map_set existsb fst app];
    [reflexivity | ].
  intros H. apply orb_false_iff in H as [-> H]. now rewrite IH.
Qed.

Lemma Map_delete_absent (k : string) (mp : PatternMap) :
  Map_has k mp = false -> Map_delete k mp = mp.
Proof.
  unfold Map_has.
  induction mp as [ | [k' v'] mp IH]; cbn [Map_delete existsb fst];
    [reflexivity | ].
  intros H. apply orb_false_iff in H as [-> H]. now rewrite IH.
Qed.

Lemma Map_delete_last (k : string) (v : RegExp) (mp : PatternMap) :
  Map_has k mp = false -> Map_delete k (mp ++ [(k, v)]) = mp.
Proof.
  unfold Map_has.
  induction mp as [ | [k' v'] mp IH]; cbn [Map_delete existsb fst app].
  - now rewrite String.eqb_refl.
  - intros H. apply orb_false_iff in H as [-> H]. now rewrite IH.
Qed.

Lemma Map_has_app (k : string) (a b : PatternMap) :
  Map_has k (a ++ b) = Map_has k a || Map_has k b.
Proof. unfold Map_has. apply existsb_app. Qed.

(** X10: adding a pattern and removing it again.  Removing a name that
    the table does not hold returns false and leaves the classifier as it
    is.  Adding a pattern under a name the table does not hold puts it
    last, and removing that name again returns true and gives back the
    classifier from before. *)
Theorem add_then_remove (name : string) (pattern : RegExp) (d : ErrorDetector) :
  Map_has name (errorPatterns d) = false ->
  removeErrorPattern name d = (false, d)
  /\ errorPatterns (addErrorPattern name pattern d)
     = errorPatterns d ++ [(name, pattern)]
  /\ removeErrorPattern name (addErrorPattern name pattern d) = (true, d).
Proof.
  intros Hn. unfold removeErrorPattern, addErrorPattern.
  cbn [errorPatterns initialized].
  rewrite Hn, (Map_delete_absent _ _ Hn), (Map_set_fresh _ _ _ Hn).
  rewrite Map_has_app, Hn, (Map_delete_last _ _ _ Hn).
  unfold Map_has. cbn [existsb fst]. rewrite String.eqb_refl.
  destruct d; repeat split.
Qed.

(** A pattern for a failing test suite is added to the initialized
    classifier and removed again. *)
Lemma add_then_remove_witness :
  removeErrorPattern "tests_failed" (initialize new)
  = (false, initialize new)
  /\ errorPatterns
       (addErrorPattern "tests_failed" (re (lit "Tests failed") 0)
          (initialize new))
     = errorPatterns (initialize new)
       ++ [("tests_failed", re (lit "Tests failed") 0)]
  /\ removeErrorPattern "tests_failed"
       (addErrorPattern "tests_failed" (re (lit "Tests failed") 0)
          (initialize new))
     = (true, initialize new).
Proof.
  exact (add_then_remove "tests_failed" (re (lit "Tests failed") 0)
           (initialize new) eq_refl).
Defined.

Section WithHash.
Variable sha256_hex : string -> string.

Lemma firstMatch_last (mp : PatternMap) (name : string) (p : RegExp)
    (output : string) :
  firstMatch (mp ++ [(name, p)]) output
  = match firstMatch mp output with
    | Some found => Some found
    | None =>
        match exec p output with
        | Some match_ => Some (name, match_)
        | None => None
        end
    end.
Proof.
  induction mp as [ | [k v] mp IH]; cbn [app firstMatch]; [reflexivity | ].
  destruct (exec v output); [reflexivity | exact IH].
Qed.

(** The kind and the severity of the default case. *)
Lemma createErrorSignature_default (errorType : string) (match_ : MatchArray)
    (fullOutput : string) (lines : list string) :
  in_list errorType Notions.casedKinds = false ->
  let sig := createErrorSignature sha256_hex errorType match_ fullOutput lines in
  type sig = build_error /\ severity sig = medium
  /\ suggestions sig = Notions.defaultSuggestions.
Proof.
  unfold in_list, Notions.casedKinds. cbn [existsb].
  intros H.
  repeat (apply orb_false_iff in H as [? H]).
  unfold createErrorSignature, in_list. cbn [existsb].
  repeat match goal with
         | E : String.eqb errorType _ = false |- _ => rewrite E; clear E
         end.
  cbn [orb]. destruct (findFileLine lines). repeat split.
Qed.

(** X11: the table answers in the order of registration, and a pattern
    of an unknown kind is a build error.  A pattern added under a new name
    is asked last: whenever a pattern registered before matches the
    output, the classifier answers as it did without the new one.  When
    none of them matches and the new pattern does, the signature is made
    from its match, and, the name being none the classifier has a case
    for, it is a build error of medium severity with the two default
    suggestions. *)
Theorem added_pattern_is_asked_last (name : string) (pattern : RegExp)
    (d : ErrorDetector) (stderr stdout : string) :
  Map_has name (errorPatterns d) = false ->
  initialized d = true ->
  let output := stderr +:+ nl +:+ stdout in
  let d' := addErrorPattern name pattern d in
  (firstMatch (errorPatterns d) output <> None ->
   detectError sha256_hex d' stderr stdout
   = detectError sha256_hex d stderr stdout)
  /\ (forall match_,
        firstMatch (errorPatterns d) output = None ->
        exec pattern output = Some match_ ->
        detectError sha256_hex d' stderr stdout
        = Some (createErrorSignature sha256_hex name match_ output
                  (split LF output))
        /\ (in_list name Notions.casedKinds = false ->
            exists sig,
              detectError sha256_hex d' stderr stdout = Some sig
              /\ type sig = build_error /\ severity sig = medium
              /\ suggestions sig = Notions.defaultSuggestions)).
Proof.
  intros Hn Hi output d'. subst d'. unfold detectError, addErrorPattern.
  cbn [initialized errorPatterns]. rewrite Hi. cbn [negb]. fold output.
  rewrite (Map_set_fresh _ _ _ Hn), firstMatch_last.
  split.
  - destruct (firstMatch (errorPatterns d) output) as [[k m0] | ];
      [reflexivity | congruence].
  - intros match_ -> ->. split; [reflexivity | ].
    intros Hk. eexists. split; [reflexivity | ].
    apply (createErrorSignature_default name match_ output _ Hk).
Qed.

End WithHash.

(** A pattern for a failing test suite, added to the initialized
    classifier: a missing module still answers first, and a failing test
    suite is a build error of medium severity. *)
Lemma added_pattern_is_asked_last_witness :
  let added :=
    addErrorPattern "tests_failed" (re (lit "Tests failed") 0)
      (initialize new) in
  detectError (fun s => s) added "Tests failed: Cannot find module 'x'" ""
  = detectError (fun s => s) (initialize new)
      "Tests failed: Cannot find module 'x'" ""
  /\ exists sig,
       detectError (fun s => s) added "Tests failed" "" = Some sig
       /\ type sig = build_error /\ severity sig = medium
       /\ suggestions sig = Notions.defaultSuggestions.
Proof.
  cbv zeta. split.
  - apply (added_pattern_is_asked_last (fun s => s) "tests_failed"
             (re (lit "Tests failed") 0) (initialize new)
             "Tests failed: Cannot find module 'x'" "" eq_refl eq_refl).
    vm_compute. discriminate.
  - apply (proj2 (added_pattern_is_asked_last (fun s => s) "tests_failed"
                    (re (lit "Tests failed") 0) (initialize new)
                    "Tests failed" "" eq_refl eq_refl)
             ["Tests failed"]);
      vm_compute; reflexivity.
Defined.

End TableFacts.

Module SignatureFacts.
Import JS ErrorDetector.

Lemma substring_length (n : nat) (s : string) :
  String.length (substring 0 n s) = Nat.min n (String.length s).
Proof.
  revert s. induction n as [ | n IH]; intros [ | c s]; cbn; auto.
Qed.

Lemma or_else_truthy (a b : string) :
  truthy b = true -> truthy (or_else a b) = true.
Proof. unfold or_else. destruct (truthy a) eqn:E; auto. Qed.

Lemma asksFor_commandPattern : Notions.asksFor commandPattern "$ ".
Proof.
  intros t pos Hs. unfold matchAt, commandPattern. cbn [ignoreCase re source seq].
  cbn [m]. unfold chr_eq.
  destruct t as [ | c t]; [reflexivity | ].
  cbn [startsWith] in Hs. destruct (Ascii.eqb "$" c); [ | reflexivity].
  destruct t as [ | c' t]; [reflexivity | ].
  cbn [andb startsWith] in Hs. destruct (Ascii.eqb " " c'); [ | reflexivity].
  discriminate.
Qed.

Lemma asksFor_exitPattern : Notions.asksFor exitPattern "exited with code ".
Proof. apply RegexFacts.asksFor_then. Qed.

Section WithHash.
Variable sha256_hex : string -> string.

(** What a signature is made of does not depend on the kind of error. *)
Lemma createErrorSignature_fields (errorType : string) (match_ : MatchArray)
    (fullOutput : string) (lines : list string) :
  let sig := createErrorSignature sha256_hex errorType match_ fullOutput lines in
  message sig
  = or_else (at_ match_ 0)
      (or_else (nth 0 (split LF fullOutput) EmptyString) "Unknown error")
  /\ hash sig = generateErrorHash sha256_hex fullOutput
  /\ command sig = extractCommand fullOutput
  /\ exitCode sig = extractExitCode fullOutput
  /\ context sig = extractContext fullOutput.
Proof.
  unfold createErrorSignature.
  repeat match goal with
         | |- context [if ?b then _ else _] => destruct b
         end;
    destruct (findFileLine lines); repeat split.
Qed.

(** X12: what every signature carries.  Whatever the classifier returns
    for an output, the message of the signature is not empty, and its hash
    is the first sixteen characters of the digest of the normalized
    output: at most sixteen characters, and exactly sixteen when the
    digest has that many. *)
Theorem signature_message_and_hash (d : ErrorDetector) (stderr stdout : string)
    (sig : ErrorSignature) :
  detectError sha256_hex d stderr stdout = Some sig ->
  let output := stderr +:+ nl +:+ stdout in
  truthy (message sig) = true
  /\ hash sig = substring 0 16 (sha256_hex (normalize output))
  /\ String.length (hash sig)
     = Nat.min 16 (String.length (sha256_hex (normalize output))).
Proof.
  intros Hsig output.
  assert (hash sig = substring 0 16 (sha256_hex (normalize output))) as Hh.
  { apply (DetectorFacts.detectError_hash sha256_hex) in Hsig. exact Hsig. }
  split; [ | split; [exact Hh | rewrite Hh; apply substring_length] ].
  unfold detectError in Hsig. fold output in Hsig.
  destruct (negb (initialized d)); [discriminate | ].
  destruct (firstMatch _ _) as [[errorType match_] | ].
  - injection Hsig as <-.
    rewrite (proj1 (createErrorSignature_fields _ _ _ _)).
    apply or_else_truthy, or_else_truthy. reflexivity.
  - destruct (truthy (trim stderr)); [ | discriminate].
    injection Hsig as <-. cbn [createGenericErrorSignature message].
    apply or_else_truthy. reflexivity.
Qed.

(** X13: the command and the exit code of a signature are read from the
    text of the output, not from the process.  A signature for an output
    that does not include a dollar sign followed by a space has the
    command [unknown], and one for an output that does not include
    [exited with code ] has the exit code 1, whatever the command was and
    whatever code it exited with. *)
Theorem signature_command_and_exit_code (d : ErrorDetector)
    (stderr stdout : string) (sig : ErrorSignature) :
  detectError sha256_hex d stderr stdout = Some sig ->
  let output := stderr +:+ nl +:+ stdout in
  (includes output "$ " = false -> command sig = "unknown")
  /\ (includes output "exited with code " = false -> exitCode sig = 1%N).
Proof.
  intros Hsig output.
  assert (command sig = extractCommand output
          /\ exitCode sig = extractExitCode output) as [-> ->].
  { unfold detectError in Hsig. fold output in Hsig.
    destruct (negb (initialized d)); [discriminate | ].
    destruct (firstMatch _ _) as [[errorType match_] | ].
    - injection Hsig as <-.
      destruct (createErrorSignature_fields errorType match_ output
                  (split LF output)) as (_ & _ & Hc & He & _).
      now split.
    - destruct (truthy (trim stderr)); [ | discriminate].
      injection Hsig as <-. now split. }
  split; intros Hi.
  - unfold extractCommand.
    now rewrite (RegexFacts.exec_includes _ _ _ asksFor_commandPattern Hi).
  - unfold extractExitCode.
    now rewrite (RegexFacts.exec_includes _ _ _ asksFor_exitPattern Hi).
Qed.

End WithHash.

(** A build that exits with code 127: the signature says 1. *)
Lemma signature_command_and_exit_code_witness :
  exists sig,
    detectError (fun s => s) (initialize new) "sh: tsc: command not found" ""
    = Some sig
    /\ command sig = "unknown" /\ exitCode sig = 1%N.
Proof.
  eexists. split; [vm_compute; reflexivity | ].
  pose proof (signature_command_and_exit_code (fun s => s) (initialize new)
                "sh: tsc: command not found" "" _
                ltac:(vm_compute; reflexivity)) as [Hc He].
  split; [apply Hc | apply He]; vm_compute; reflexivity.
Defined.

(** The signature of a module that cannot be found, hashed with a digest
    of sixty-four characters. *)
Lemma signature_message_and_hash_witness :
  exists sig,
    detectError
      (fun _ => "e3b0c44298fc1c149afbf4c8996fb92427ae41e4649b934ca495991b7852b855")
      (initialize new) "Cannot find module 'left-pad'" "" = Some sig
    /\ truthy (message sig) = true
    /\ String.length (hash sig) = 16%nat.
Proof.
  eexists. split; [vm_compute; reflexivity | ].
  pose proof (signature_message_and_hash
                (fun _ => "e3b0c44298fc1c149afbf4c8996fb92427ae41e4649b934ca495991b7852b855")
                (initialize new) "Cannot find module 'left-pad'" "" _
                ltac:(vm_compute; reflexivity)) as (Hm & _ & Hl).
  split; [exact Hm | exact Hl].
Defined.

End SignatureFacts.

(* ------------------------------------------------------------------ *)
(** * The Recovery Engine: which rule answers *)
(* ------------------------------------------------------------------ *)

Module SelectionFacts.
Import JS RecoveryEngine.

Local Open Scope Z_scope.

(** ** The sort *)

Lemma insertRule_split (r : RecoveryRule) (l : list RecoveryRule) :
  exists l1 l2,
    l = l1 ++ l2 /\ insertRule r l = l1 ++ r :: l2
    /\ Forall (fun x => priority r <= priority x) l1
    /\ match l2 with [] => True | x :: _ => priority x < priority r end.
Proof.
  induction l as [ | x l IH]; cbn [insertRule].
  - exists [], []. repeat split. constructor.
  - destruct (priority r <=? priority x) eqn:E.
    + apply Z.leb_le in E. destruct IH as (l1 & l2 & -> & -> & H1 & H2).
      exists (x :: l1), l2. repeat split; [constructor; assumption | exact H2].
    + apply Z.leb_gt in E. exists [], (x :: l). repeat split; [constructor | exact E].
Qed.

Lemma insertRule_sorted (r : RecoveryRule) (l : list RecoveryRule) :
  StronglySorted Notions.byPriority l -> StronglySorted Notions.byPriority (insertRule r l).
Proof.
  induction 1 as [ | x l Hl IH Hx]; cbn [insertRule].
  - repeat constructor.
  - unfold Notions.byPriority in Hx.
    destruct (priority r <=? priority x) eqn:E.
    + apply Z.leb_le in E. constructor; [exact IH | ].
      apply List.Forall_forall. intros y Hy.
      apply EngineFacts.insertRule_In in Hy as [-> | Hy]; [exact E | ].
      rewrite List.Forall_forall in Hx. apply Hx, Hy.
    + apply Z.leb_gt in E. constructor; [now constructor | ].
      constructor; [unfold Notions.byPriority; lia | ].
      eapply List.Forall_impl; [ | exact Hx].
      unfold Notions.byPriority. cbn. intros; lia.
Qed.

Lemma insertRule_perm (r : RecoveryRule) (l : list RecoveryRule) :
  Permutation (insertRule r l) (r :: l).
Proof.
  destruct (insertRule_split r l) as (l1 & l2 & -> & -> & _).
  symmetry. apply Permutation_middle.
Qed.

(** A rule in front of rules of lower priority, or behind them: the same
    for the rules of any one priority. *)
Lemma filter_low (r : RecoveryRule) (l : list RecoveryRule) (p : Z) :
  (forall y, In y l -> priority y < priority r) ->
  List.filter (fun x => priority x =? p) (r :: l)
  = List.filter (fun x => priority x =? p) (l ++ [r]).
Proof.
  induction l as [ | y l IH]; intros Hlow; [reflexivity | ].
  specialize (IH (fun z Hz => Hlow z (or_intror Hz))).
  pose proof (Hlow y (or_introl eq_refl)) as Hy.
  cbn [List.filter app] in *. rewrite <- IH.
  destruct (priority r =? p) eqn:Er; destruct (priority y =? p) eqn:Ey;
    try reflexivity.
  apply Z.eqb_eq in Er, Ey. lia.
Qed.

(** Inserting keeps the order among the rules of one priority: the new
    rule comes after those of its own priority. *)
Lemma insertRule_stable (r : RecoveryRule) (l : list RecoveryRule) (p : Z) :
  StronglySorted Notions.byPriority l ->
  List.filter (fun x => priority x =? p) (insertRule r l)
  = List.filter (fun x => priority x =? p) (l ++ [r]).
Proof.
  induction 1 as [ | x l Hl IH Hx]; cbn [insertRule app]; [reflexivity | ].
  destruct (priority r <=? priority x) eqn:E.
  - cbn [List.filter]. now rewrite IH.
  - apply Z.leb_gt in E.
    change (x :: l ++ [r]) with ((x :: l) ++ [r]). apply filter_low.
    intros y [<- | Hy]; [exact E | ].
    rewrite List.Forall_forall in Hx. specialize (Hx y Hy).
    unfold Notions.byPriority in Hx. lia.
Qed.

Lemma sortRules_from (rules acc : list RecoveryRule) :
  StronglySorted Notions.byPriority acc ->
  let sorted := fold_left (fun sorted r => insertRule r sorted) rules acc in
  StronglySorted Notions.byPriority sorted
  /\ Permutation sorted (acc ++ rules)
  /\ (forall p, List.filter (fun x => priority x =? p) sorted
                = List.filter (fun x => priority x =? p) (acc ++ rules)).
Proof.
  revert acc. induction rules as [ | r rules IH]; intros acc Hacc;
    cbn [fold_left].
  - rewrite app_nil_r. repeat split; auto.
  - destruct (IH (insertRule r acc) (insertRule_sorted r acc Hacc))
      as (Hs & Hp & Hf).
    cbv zeta in *. split; [exact Hs | ]. split.
    + etransitivity; [exact Hp | ].
      etransitivity; [apply Permutation_app_tail, insertRule_perm | ].
      cbn [app]. apply Permutation_middle.
    + intros p. rewrite Hf, List.filter_app, (insertRule_stable r acc p Hacc).
      change (r :: rules) with ([r] ++ rules).
      now rewrite !List.filter_app, app_assoc.
Qed.

(** X14: the order in which the engine asks its rules.  [sortRules] gives
    back the rules of the table, each as often as the table holds it, in
    descending order of priority, and it is stable: rules of one priority
    stay in the order in which they were registered. *)
Theorem sortRules_is_a_stable_sort (rules : list RecoveryRule) :
  Permutation (sortRules rules) rules
  /\ StronglySorted (fun a b => priority b <= priority a) (sortRules rules)
  /\ (forall p, List.filter (fun x => priority x =? p) (sortRules rules)
                = List.filter (fun x => priority x =? p) rules).
Proof.
  destruct (sortRules_from rules [] (SSorted_nil _)) as (Hs & Hp & Hf).
  cbv zeta in *. cbn [app] in *. fold (sortRules rules) in *. auto.
Qed.

(** ** The rule that answers *)

Section Selection.
Variable sig : ErrorDetector.ErrorSignature.

Lemma firstAction_firstRule (l : list RecoveryRule) :
  firstAction l sig
  = match Notions.firstRule l sig with
    | Some rule => Notions.answer rule sig
    | None => None
    end.
Proof.
  induction l as [ | rule l IH]; [reflexivity | ].
  assert (firstAction (rule :: l) sig
          = match Notions.answer rule sig with
            | Some a => Some a
            | None => firstAction l sig
            end) as ->.
  { cbn [firstAction]. unfold Notions.answer.
    destruct (enabled rule); cbn [negb]; [ | reflexivity].
    destruct (exec _ _) as [match_ | ]; [ | reflexivity].
    destruct (actionGenerator rule match_ sig); reflexivity. }
  cbn [Notions.firstRule]. unfold Notions.answers.
  destruct (Notions.answer rule sig) eqn:Ea; [now rewrite Ea | exact IH].
Qed.

Lemma firstRule_app (l1 l2 : list RecoveryRule) :
  Notions.firstRule (l1 ++ l2) sig
  = match Notions.firstRule l1 sig with
    | Some rule => Some rule
    | None => Notions.firstRule l2 sig
    end.
Proof.
  induction l1 as [ | x l1 IH]; cbn [app Notions.firstRule]; [reflexivity | ].
  destruct (Notions.answers x sig); [reflexivity | exact IH].
Qed.

Lemma firstRule_In (l : list RecoveryRule) (rule : RecoveryRule) :
  Notions.firstRule l sig = Some rule ->
  In rule l /\ Notions.answers rule sig = true.
Proof.
  induction l as [ | x l IH]; cbn [Notions.firstRule]; [discriminate | ].
  destruct (Notions.answers x sig) eqn:E.
  - intros [= <-]. split; [now left | exact E].
  - intros H. destruct (IH H). split; [now right | assumption].
Qed.

(** In a sorted list, what follows a rule has no higher priority. *)
Lemma sorted_tail (l1 l2 : list RecoveryRule) (x y : RecoveryRule) :
  StronglySorted Notions.byPriority (l1 ++ x :: l2) ->
  In y (x :: l2) -> priority y <= priority x.
Proof.
  induction l1 as [ | z l1 IH]; cbn [app]; intros Hs Hy.
  - destruct Hy as [<- | Hy]; [lia | ].
    apply StronglySorted_inv in Hs as [_ Hx].
    rewrite List.Forall_forall in Hx. apply (Hx y Hy).
  - apply StronglySorted_inv in Hs as [Hs _]. auto.
Qed.

(** Inserting a rule into the sorted list: the first rule that answers
    afterwards is the better one of the first that answered before and the
    new rule, the earlier one when their priorities are equal. *)
Lemma insertRule_firstRule (r : RecoveryRule) (acc : list RecoveryRule) :
  StronglySorted Notions.byPriority acc ->
  Notions.firstRule (insertRule r acc) sig
  = Notions.keepBest sig (Notions.firstRule acc sig) r.
Proof.
  intros Hs.
  destruct (insertRule_split r acc) as (l1 & l2 & -> & -> & H1 & H2).
  rewrite !firstRule_app. cbn [Notions.firstRule]. unfold Notions.keepBest.
  destruct (Notions.firstRule l1 sig) as [b | ] eqn:E1.
  - destruct (Notions.answers r sig); [ | reflexivity].
    apply firstRule_In in E1 as [Hb _].
    rewrite List.Forall_forall in H1. specialize (H1 b Hb).
    now apply Z.ltb_ge in H1 as ->.
  - destruct (Notions.answers r sig); [ | reflexivity].
    destruct (Notions.firstRule l2 sig) as [b | ] eqn:E2; [ | reflexivity].
    apply firstRule_In in E2 as [Hb _].
    destruct l2 as [ | x l2]; [destruct Hb | ].
    pose proof (sorted_tail l1 l2 x b Hs Hb) as Hle.
    assert ((priority b <? priority r) = true) as -> by (apply Z.ltb_lt; lia).
    reflexivity.
Qed.

Lemma sortRules_firstRule (rules : list RecoveryRule) :
  Notions.firstRule (sortRules rules) sig = Notions.choose rules sig.
Proof.
  unfold sortRules, Notions.choose.
  change (@None RecoveryRule) with (Notions.firstRule [] sig).
  generalize (SSorted_nil Notions.byPriority).
  generalize (@nil RecoveryRule) as acc.
  induction rules as [ | r rules IH]; intros acc Hacc; cbn [fold_left];
    [reflexivity | ].
  rewrite IH by now apply insertRule_sorted.
  now rewrite insertRule_firstRule.
Qed.

(** The rule kept: it answers, no rule that answers has a higher
    priority, and none of the same priority was registered before it. *)
Lemma choose_spec (rules : list RecoveryRule) :
  match Notions.choose rules sig with
  | None => Forall (fun r => Notions.answers r sig = false) rules
  | Some rule =>
      Notions.answers rule sig = true
      /\ exists pre post,
           rules = pre ++ rule :: post
           /\ Forall (fun r => Notions.answers r sig = true ->
                               priority r < priority rule) pre
           /\ Forall (fun r => Notions.answers r sig = true ->
                               priority r <= priority rule) post
  end.
Proof.
  induction rules as [ | r rules IH] using rev_ind; [constructor | ].
  unfold Notions.choose in *. rewrite fold_left_app. cbn [fold_left].
  unfold Notions.keepBest at 1.
  destruct (Notions.answers r sig) eqn:Er.
  - destruct (fold_left _ rules None) as [b | ].
    + destruct IH as (Hb & pre & post & -> & Hpre & Hpost).
      destruct (priority b <? priority r) eqn:E.
      * apply Z.ltb_lt in E. split; [exact Er | ].
        exists (pre ++ b :: post), []. split; [reflexivity | ].
        split; [ | constructor].
        apply List.Forall_app. split; [ | constructor].
        -- eapply List.Forall_impl; [ | exact Hpre]. cbn. intros x Hx Ha.
           specialize (Hx Ha). lia.
        -- intros _. exact E.
        -- eapply List.Forall_impl; [ | exact Hpost]. cbn. intros x Hx Ha.
           specialize (Hx Ha). lia.
      * apply Z.ltb_ge in E. split; [exact Hb | ].
        exists pre, (post ++ [r]). split; [now rewrite <- app_assoc | ].
        split; [exact Hpre | ].
        apply List.Forall_app. split; [exact Hpost | ].
        constructor; [intros _; exact E | constructor].
    + split; [exact Er | ]. exists rules, []. split; [reflexivity | ].
      split; [ | constructor].
      eapply List.Forall_impl; [ | exact IH]. cbn. intros x Hx Ha. congruence.
  - destruct (fold_left _ rules None) as [b | ].
    + destruct IH as (Hb & pre & post & -> & Hpre & Hpost).
      split; [exact Hb | ].
      exists pre, (post ++ [r]). split; [now rewrite <- app_assoc | ].
      split; [exact Hpre | ].
      apply List.Forall_app. split; [exact Hpost | ].
      constructor; [intros Ha; congruence | constructor].
    + apply List.Forall_app. split; [exact IH | ].
      constructor; [exact Er | constructor].
Qed.

End Selection.

(** X15: the rule that answers a signature.  An initialized engine
    returns the generic action exactly when no rule of its table answers:
    none that is enabled has a pattern that matches the message and a
    generator that returns.  Otherwise it returns the answer of one rule
    of the table such that every rule registered before it that answers
    has a strictly lower priority number, and every rule registered after
    it that answers has a priority number that is no higher: the highest
    priority number wins, and among equals the rule registered first. *)
Theorem highest_priority_rule_answers (e : RecoveryEngine)
    (sig : ErrorDetector.ErrorSignature) :
  initialized e = true ->
  (Forall (fun r => Notions.answer r sig = None) (recoveryRules e)
   /\ getRecoveryAction e sig = Some (getGenericRecoveryAction sig))
  \/ (exists pre rule post a,
        recoveryRules e = pre ++ rule :: post
        /\ Notions.answer rule sig = Some a
        /\ getRecoveryAction e sig = Some a
        /\ Forall (fun r => Notions.answer r sig <> None ->
                            priority r < priority rule) pre
        /\ Forall (fun r => Notions.answer r sig <> None ->
                            priority r <= priority rule) post).
Proof.
  intros Hi. unfold getRecoveryAction. rewrite Hi. cbn [negb].
  rewrite firstAction_firstRule, sortRules_firstRule.
  pose proof (choose_spec sig (recoveryRules e)) as H.
  assert (forall r, Notions.answer r sig <> None
                    <-> Notions.answers r sig = true) as Hiff.
  { intros r. unfold Notions.answers.
    destruct (Notions.answer r sig); split; congruence. }
  destruct (Notions.choose (recoveryRules e) sig) as [rule | ].
  - right. destruct H as (Ha & pre & post & Hr & Hpre & Hpost).
    unfold Notions.answers in Ha.
    destruct (Notions.answer rule sig) as [a | ] eqn:Ea; [ | discriminate].
    exists pre, rule, post, a. repeat split; try assumption.
    + eapply List.Forall_impl; [ | exact Hpre]. cbn. intros x Hx Hn.
      apply Hx, Hiff, Hn.
    + eapply List.Forall_impl; [ | exact Hpost]. cbn. intros x Hx Hn.
      apply Hx, Hiff, Hn.
  - left. split; [ | reflexivity].
    eapply List.Forall_impl; [ | exact H]. cbn. intros x Hx.
    unfold Notions.answers in Hx. now destruct (Notions.answer x sig).
Qed.

(** A failed build whose message names a module that cannot be found:
    the rule for the build cache, of priority 3, answers before the rule
    for the missing module, of priority 1, that was registered first. *)
Lemma highest_priority_rule_answers_witness :
  let sig :=
    Spec.sampleSignature "Build failed with errors: Cannot find module 'x'"
      ErrorDetector.high None in
  (Forall (fun r => Notions.answer r sig = None)
     (recoveryRules (initialize new))
   /\ getRecoveryAction (initialize new) sig
      = Some (getGenericRecoveryAction sig))
  \/ (exists pre rule post a,
        recoveryRules (initialize new) = pre ++ rule :: post
        /\ Notions.answer rule sig = Some a
        /\ getRecoveryAction (initialize new) sig = Some a
        /\ Forall (fun r => Notions.answer r sig <> None ->
                            priority r < priority rule) pre
        /\ Forall (fun r => Notions.answer r sig <> None ->
                            priority r <= priority rule) post).
Proof.
  exact (highest_priority_rule_answers (initialize new)
           (Spec.sampleSignature
              "Build failed with errors: Cannot find module 'x'"
              ErrorDetector.high None)
           eq_refl).
Defined.

Example the_build_cache_rule_answers_first :
  action
    <$> getRecoveryAction (initialize new)
          (Spec.sampleSignature
             "Build failed with errors: Cannot find module 'x'"
             ErrorDetector.high None)
  = Some "clear_cache_and_retry".
Proof. vm_compute. reflexivity. Qed.

(** ** Initializing again *)

Lemma getRecoveryAction_choose (e : RecoveryEngine)
    (sig : ErrorDetector.ErrorSignature) :
  initialized e = true ->
  getRecoveryAction e sig
  = Some (match Notions.choose (recoveryRules e) sig with
          | Some rule =>
              default (getGenericRecoveryAction sig) (Notions.answer rule sig)
          | None => getGenericRecoveryAction sig
          end).
Proof.
  intros Hi. unfold getRecoveryAction. rewrite Hi. cbn [negb].
  rewrite firstAction_firstRule, sortRules_firstRule.
  destruct (Notions.choose _ _) as [rule | ]; [ | reflexivity].
  now destruct (Notions.answer rule sig).
Qed.

(** Rules that the table already holds change nothing when they are
    registered once more. *)
Lemma choose_again (sig : ErrorDetector.ErrorSignature)
    (rules more : list RecoveryRule) :
  (forall r, In r more -> In r rules) ->
  Notions.choose (rules ++ more) sig = Notions.choose rules sig.
Proof.
  intros Hin. unfold Notions.choose. rewrite fold_left_app.
  pose proof (choose_spec sig rules) as Hspec. unfold Notions.choose in Hspec.
  destruct (fold_left (Notions.keepBest sig) rules None) as [b | ].
  - destruct Hspec as (Hb & pre & post & -> & Hpre & Hpost).
    induction more as [ | r more IH]; [reflexivity | ].
    cbn [fold_left]. unfold Notions.keepBest at 2.
    destruct (Notions.answers r sig) eqn:Er;
      [ | apply IH; intros x Hx; apply Hin; now right].
    assert (priority r <= priority b) as Hle.
    { rewrite List.Forall_forall in Hpre, Hpost.
      destruct (in_app_or _ _ _ (Hin r (or_introl eq_refl)))
        as [H | [<- | H]]; [specialize (Hpre r H Er) | | specialize (Hpost r H Er)];
        lia. }
    apply Z.ltb_ge in Hle as ->.
    apply IH. intros x Hx. apply Hin. now right.
  - rewrite List.Forall_forall in Hspec.
    induction more as [ | r more IH]; [reflexivity | ].
    cbn [fold_left]. unfold Notions.keepBest at 2.
    rewrite (Hspec r (Hin r (or_introl eq_refl))).
    apply IH. intros x Hx. apply Hin. now right.
Qed.

Lemma initialize_rules (e : RecoveryEngine) :
  recoveryRules (initialize e) = recoveryRules e ++ Spec.builtinRules.
Proof.
  unfold initialize, setupRecoveryRules, addRecoveryRule.
  cbn [fold_left recoveryRules]. now rewrite <- !app_assoc.
Qed.

(** X16: initializing the engine a second time.  [initialize] registers
    the ten built-in rules once more, behind the ones the table holds, so
    the table grows by ten; the suggestions stay as they were: for every
    signature the engine answers after the second [initialize] what it
    answered after the first. *)
Theorem initialize_again (e : RecoveryEngine)
    (sig : ErrorDetector.ErrorSignature) :
  length (recoveryRules (initialize (initialize e)))
  = (length (recoveryRules (initialize e)) + 10)%nat
  /\ getRecoveryAction (initialize (initialize e)) sig
     = getRecoveryAction (initialize e) sig.
Proof.
  split.
  - rewrite (initialize_rules (initialize e)), length_app. reflexivity.
  - rewrite !getRecoveryAction_choose by reflexivity.
    rewrite (initialize_rules (initialize e)), choose_again; [reflexivity | ].
    intros r Hr. rewrite initialize_rules. apply in_or_app. now right.
Qed.

(** ** Removing, disabling and enabling a rule *)

Section RuleTable.
Variable sourceText : RegExp -> string.
Variable pattern : RegExp.

Lemma findIndex_None (rules : list RecoveryRule) :
  findIndex (sameSource sourceText pattern) rules = None
  <-> Forall (fun r => sameSource sourceText pattern r = false) rules.
Proof.
  induction rules as [ | r rules IH]; cbn [findIndex].
  - split; [constructor | reflexivity].
  - destruct (sameSource sourceText pattern r) eqn:E.
    + split; [discriminate | ]. inversion 1; congruence.
    + destruct (findIndex _ rules).
      * split; [discriminate | ]. intros Hall.
        apply Forall_cons_1 in Hall as [_ Hall].
        now apply (proj2 IH) in Hall.
      * split; [constructor; tauto | reflexivity].
Qed.

Lemma findIndex_first (pre post : list RecoveryRule) (rule : RecoveryRule) :
  Forall (fun r => sameSource sourceText pattern r = false) pre ->
  sameSource sourceText pattern rule = true ->
  findIndex (sameSource sourceText pattern) (pre ++ rule :: post)
  = Some (length pre)
  /\ splice1 (length pre) (pre ++ rule :: post) = pre ++ post
  /\ forall value,
       setEnabled (sameSource sourceText pattern) value (pre ++ rule :: post)
       = Some (pre ++ Notions.withEnabled value rule :: post).
Proof.
  intros Hpre Hrule.
  induction Hpre as [ | r pre Hr Hpre IH];
    cbn [app findIndex splice1 setEnabled length].
  - rewrite Hrule. repeat split.
  - rewrite Hr. destruct IH as (-> & -> & Hs). repeat split.
    intros value. now rewrite Hs.
Qed.

Lemma setEnabled_None (value : bool) (rules : list RecoveryRule) :
  Forall (fun r => sameSource sourceText pattern r = false) rules ->
  setEnabled (sameSource sourceText pattern) value rules = None.
Proof.
  induction 1 as [ | r rules Hr _ IH]; cbn [setEnabled]; [reflexivity | ].
  now rewrite Hr, IH.
Qed.

(** X17: removing, disabling and enabling a rule by the source of its
    pattern.  When no rule of the table has a pattern of that source,
    the three operations return false and leave the engine as it is.
    Otherwise they return true and act on the first such rule in the order
    of registration, and on no other: [removeRecoveryRule] takes it out of
    the table, [disableRecoveryRule] and [enableRecoveryRule] set its
    flag; a rule with the same source that was registered later stays as
    it is.  A disabled rule answers no signature. *)
Theorem rule_table_operations (e : RecoveryEngine) :
  (Forall (fun r => sameSource sourceText pattern r = false) (recoveryRules e) ->
   removeRecoveryRule sourceText pattern e = (false, e)
   /\ disableRecoveryRule sourceText pattern e = (false, e)
   /\ enableRecoveryRule sourceText pattern e = (false, e))
  /\ (forall pre rule post,
        recoveryRules e = pre ++ rule :: post ->
        Forall (fun r => sameSource sourceText pattern r = false) pre ->
        sameSource sourceText pattern rule = true ->
        removeRecoveryRule sourceText pattern e
        = (true, mkRecoveryEngine (pre ++ post) (initialized e))
        /\ disableRecoveryRule sourceText pattern e
           = (true,
              mkRecoveryEngine (pre ++ Notions.withEnabled false rule :: post)
                (initialized e))
        /\ enableRecoveryRule sourceText pattern e
           = (true,
              mkRecoveryEngine (pre ++ Notions.withEnabled true rule :: post)
                (initialized e))
        /\ forall sig, Notions.answer (Notions.withEnabled false rule) sig = None).
Proof.
  split.
  - intros Hn. unfold removeRecoveryRule, disableRecoveryRule,
      enableRecoveryRule.
    rewrite (proj2 (findIndex_None _) Hn), !(setEnabled_None _ _ Hn).
    repeat split.
  - intros pre rule post Hr Hpre Hrule.
    unfold removeRecoveryRule, disableRecoveryRule, enableRecoveryRule.
    destruct (findIndex_first pre post rule Hpre Hrule) as (Hf & Hs & He).
    rewrite Hr, Hf, Hs, !He. repeat split.
Qed.

End RuleTable.

End SelectionFacts.

(* ------------------------------------------------------------------ *)
(** * The Deployment Workflow: the poll of the deploying phase *)
(* ------------------------------------------------------------------ *)

Module PollFacts.
Import JS DeploymentWorkflow.

Section Poll.
Variable stringifyResult : option string -> option string -> string -> string.
Variable taskId : string.
Variable plugin : PluginManager.Plugin.
Variable deployId : option string.

Lemma polled_zero (from : nat) (w : DeploymentWorkflow) :
  Notions.polled taskId (Notions.statusAt plugin deployId) from 0 w = w.
Proof.
  unfold Notions.polled. cbn [List.seq map]. rewrite app_nil_r, Z.add_0_r.
  now destruct w.
Qed.

Lemma polled_succ (from n : nat) (w : DeploymentWorkflow) :
  Notions.polled taskId (Notions.statusAt plugin deployId) (S from) n
    (Notions.polled taskId (Notions.statusAt plugin deployId) from 1 w)
  = Notions.polled taskId (Notions.statusAt plugin deployId) from (S n) w.
Proof.
  unfold Notions.polled.
  cbn [database commandRunner errorDetector recoveryEngine activeTasks events
       clock children List.seq map].
  rewrite <- app_assoc. cbn [app]. f_equal. lia.
Qed.

(** One round of the loop on a status that does not end the poll. *)
Lemma pollLoop_round (fuel attempts : nat) (w : DeploymentWorkflow) :
  (attempts < maxAttempts)%nat ->
  Notions.pendingFrom plugin deployId attempts 1 ->
  pollLoop stringifyResult (S fuel) attempts taskId plugin deployId w
  = pollLoop stringifyResult fuel (S attempts) taskId plugin deployId
      (Notions.polled taskId (Notions.statusAt plugin deployId) attempts 1 w).
Proof.
  intros Hlt Hp. destruct (Hp attempts ltac:(lia)) as (st & Hst & Hpend).
  cbn [pollLoop]. apply Nat.ltb_lt in Hlt as ->.
  unfold bind at 1. rewrite Hst. cbn [await ret].
  unfold Notions.pendingStatus, Notions.readyStatus, Notions.failedStatus in Hpend.
  apply andb_true_iff in Hpend as [Hr Hf].
  apply negb_true_iff in Hr, Hf. rewrite Hr, Hf.
  unfold bind, emit, sleep, Notions.polled.
  cbn [database commandRunner errorDetector recoveryEngine activeTasks events
       clock children List.seq map].
  unfold Notions.statusAt. rewrite Hst. reflexivity.
Qed.

Lemma pollLoop_rounds (n fuel attempts : nat) (w : DeploymentWorkflow) :
  (attempts + n <= maxAttempts)%nat ->
  Notions.pendingFrom plugin deployId attempts n ->
  pollLoop stringifyResult (n + fuel) attempts taskId plugin deployId w
  = pollLoop stringifyResult fuel (attempts + n) taskId plugin deployId
      (Notions.polled taskId (Notions.statusAt plugin deployId) attempts n w).
Proof.
  revert attempts w. induction n as [ | n IH]; intros attempts w Hle Hp.
  - now rewrite Nat.add_0_r, polled_zero.
  - cbn [Nat.add]. rewrite pollLoop_round;
      [ | lia | intros i Hi; apply Hp; lia].
    rewrite IH; [ | lia | intros i Hi; apply Hp; lia].
    now rewrite polled_succ, Nat.add_succ_r.
Qed.

(** X18: the poll gives up after thirty attempts.  When the first thirty
    answers of the adapter are statuses that do not end the poll,
    [pollDeploymentStatus] throws the timeout error, having logged each
    of the thirty statuses and waited ten seconds after each: exactly
    300000 ms of waiting, and nothing else of the workflow has changed.
    What the adapter would answer to a thirty-first call plays no part. *)
Theorem poll_times_out (w : DeploymentWorkflow) :
  Notions.pendingFrom plugin deployId 0 30 ->
  pollDeploymentStatus stringifyResult taskId plugin deployId w
  = (Throw "Deployment timeout - status check exceeded maximum attempts",
     Notions.polled taskId (Notions.statusAt plugin deployId) 0 30 w)
  /\ clock (Notions.polled taskId (Notions.statusAt plugin deployId) 0 30 w) = (clock w + 300000)%Z.
Proof.
  intros Hp. split; [ | reflexivity].
  unfold pollDeploymentStatus.
  change (S maxAttempts) with (30 + 1)%nat.
  rewrite pollLoop_rounds; [ | reflexivity | exact Hp].
  reflexivity.
Qed.

(** X19: the poll ends with the first status that says so.  When the
    answers to the first [n] calls, [n] below thirty, do not end the poll
    and the next one is [ready] or [live], [pollDeploymentStatus] returns
    after [n] rounds of ten seconds: it stores the result in the record
    store and logs the success.  When the next one is [error] or
    [failed], it throws the error of the status, or [Unknown error] when
    the status has none; when the call is rejected, it throws what the
    call was rejected with. *)
Theorem poll_ends_with_the_first_final_status (n : nat) (w : DeploymentWorkflow) :
  (n < 30)%nat ->
  Notions.pendingFrom plugin deployId 0 n ->
  let w' := Notions.polled taskId (Notions.statusAt plugin deployId) 0 n w in
  (forall st,
      PluginManager.getStatus plugin deployId n = PluginManager.Returns st ->
      Notions.readyStatus (PluginManager.status st) = true ->
      pollDeploymentStatus stringifyResult taskId plugin deployId w
      = bind (updateTask_result taskId
                (stringifyResult deployId (PluginManager.url st)
                   (PluginManager.status st)))
          (fun _ =>
             emit (task_log taskId
                     ("Deployment successful: "
                        +:+ showOpt (PluginManager.url st)))) w')
  /\ (forall st,
        PluginManager.getStatus plugin deployId n = PluginManager.Returns st ->
        Notions.failedStatus (PluginManager.status st) = true ->
        pollDeploymentStatus stringifyResult taskId plugin deployId w
        = (Throw ("Deployment failed: "
                    +:+ or_else (default "" (PluginManager.error st))
                          "Unknown error"), w'))
  /\ (forall message,
        PluginManager.getStatus plugin deployId n
        = PluginManager.Rejects message ->
        pollDeploymentStatus stringifyResult taskId plugin deployId w
        = (Throw message, w')).
Proof.
  intros Hn Hp w'. unfold pollDeploymentStatus.
  replace (S maxAttempts) with (n + S (30 - n))%nat by (unfold maxAttempts; lia).
  rewrite pollLoop_rounds; [ | unfold maxAttempts; lia | exact Hp].
  cbn [Nat.add pollLoop]. fold w'.
  assert ((n <? maxAttempts)%nat = true) as -> by (apply Nat.ltb_lt; exact Hn).
  split; [ | split].
  - intros st Hst Hr. unfold bind at 1. rewrite Hst. cbn [await ret].
    unfold Notions.readyStatus in Hr. now rewrite Hr.
  - intros st Hst Hf. unfold bind at 1. rewrite Hst. cbn [await ret].
    unfold Notions.failedStatus in Hf. rewrite Hf.
    destruct (String.eqb (PluginManager.status st) "ready"
              || String.eqb (PluginManager.status st) "live") eqn:Hr;
      [ | reflexivity].
    exfalso. apply orb_true_iff in Hr. apply orb_true_iff in Hf.
    destruct Hr as [Hr | Hr]; destruct Hf as [Hf | Hf];
      apply String.eqb_eq in Hr, Hf; congruence.
  - intros message Hst. unfold bind at 1. now rewrite Hst.
Qed.

End Poll.

(** An adapter that goes on building. *)
Lemma poll_times_out_witness :
  let plugin := Notions.samplePlugin 30 None in
  let w := Spec.startedWorkflow [] in
  pollDeploymentStatus (fun _ _ s => s) "task_1" plugin (Some "dpl_1") w
  = (Throw "Deployment timeout - status check exceeded maximum attempts",
     Notions.polled "task_1" (Notions.statusAt plugin (Some "dpl_1")) 0 30 w)
  /\ clock (Notions.polled "task_1" (Notions.statusAt plugin (Some "dpl_1"))
              0 30 w)
     = (clock w + 300000)%Z.
Proof.
  apply (poll_times_out (fun _ _ s => s) "task_1"
           (Notions.samplePlugin 30 None) (Some "dpl_1")
           (Spec.startedWorkflow [])).
  intros i Hi. eexists. split; [reflexivity | ].
  cbn [Notions.samplePlugin PluginManager.getStatus].
  assert ((i <? 30)%nat = true) as -> by (apply Nat.ltb_lt; lia).
  reflexivity.
Defined.

(** An adapter that is ready at the third call. *)
Lemma poll_ends_with_the_first_final_status_witness :
  let plugin := Notions.samplePlugin 2 None in
  let w := Spec.startedWorkflow [] in
  let w' :=
    Notions.polled "task_1" (Notions.statusAt plugin (Some "dpl_1")) 0 2 w in
  pollDeploymentStatus (fun _ _ s => s) "task_1" plugin (Some "dpl_1") w
  = bind (updateTask_result "task_1" "ready")
      (fun _ =>
         emit (task_log "task_1"
                 ("Deployment successful: "
                    +:+ showOpt (Some "https://demo.example")))) w'.
Proof.
  cbv zeta.
  refine (proj1 (poll_ends_with_the_first_final_status (fun _ _ s => s)
                   "task_1" (Notions.samplePlugin 2 None) (Some "dpl_1") 2
                   (Spec.startedWorkflow []) _ _)
            (PluginManager.mkDeployStatus "ready"
               (Some "https://demo.example") None)
            eq_refl eq_refl).
  - lia.
  - intros i Hi. eexists. split; [reflexivity | ].
    cbn [Notions.samplePlugin PluginManager.getStatus].
    assert ((i <? 2)%nat = true) as -> by (apply Nat.ltb_lt; lia).
    reflexivity.
Defined.

End PollFacts.

(* ------------------------------------------------------------------ *)
(** * The Recovery Engine: what it suggests *)
(* ------------------------------------------------------------------ *)

Module SuggestionFacts.
Import JS RecoveryEngine.

Lemma builtin_action (rule : RecoveryRule) (match_ : MatchArray)
    (sig : ErrorDetector.ErrorSignature) (a : RecoveryAction) :
  Spec.builtinGenerator rule ->
  actionGenerator rule match_ sig = Some a ->
  In (action a) Notions.builtinActions /\ (0 <= estimatedTime a)%Z.
Proof.
  unfold Spec.builtinGenerator, Spec.builtinRules. simpl.
  intros H Gen.
  repeat (destruct H as [H | H];
          [rewrite <- H in Gen; simpl in Gen;
           repeat match type of Gen with
                  | context [if ?b then _ else _] => destruct b
                  end;
           injection Gen as <-;
           cbn [action estimatedTime];
           (split; [tauto | lia]) | ]).
  destruct H.
Qed.

(** What the engine answers is the action of a built-in rule with its
    confidence adjusted, or the generic action. *)
Lemma suggested_action (e : RecoveryEngine)
    (sig : ErrorDetector.ErrorSignature) (a : RecoveryAction) :
  Forall Spec.builtinGenerator (recoveryRules e) ->
  getRecoveryAction e sig = Some a ->
  In (action a) Notions.builtinActions
  /\ (0 <= estimatedTime a)%Z
  /\ (Spec.inRange (confidence a) \/ confidence a = PrimFloat.nan).
Proof.
  intros Hrules. unfold getRecoveryAction.
  destruct (negb _); [discriminate | ].
  destruct (firstAction _ sig) as [r | ] eqn:Hfirst.
  - intros [= <-].
    destruct (EngineFacts.firstAction_Some _ _ _ Hfirst)
      as (rule & match_ & a & Hin & _ & _ & Hgen & ->).
    apply (proj1 (EngineFacts.sortRules_In _ _)) in Hin.
    rewrite List.Forall_forall in Hrules.
    destruct (builtin_action rule match_ sig a (Hrules rule Hin) Hgen)
      as [Hname Htime].
    split; [exact Hname | ]. split; [exact Htime | ].
    cbn. apply EngineFacts.adjust_inRange_or_nan.
    exact (EngineFacts.builtin_confidence rule match_ sig a (Hrules rule Hin)
             Hgen).
  - intros [= <-]. split; [ | split; [cbn; lia | ]].
    + unfold Notions.builtinActions. cbn. tauto.
    + left. split; vm_compute; reflexivity.
Qed.

Lemma prerequisites_always_met (ps : list string) : prerequisitesMet ps = true.
Proof.
  induction ps as [ | p ps IH]; simpl; [reflexivity | ].
  assert (checkPrerequisite p = true) as ->; [ | exact IH].
  unfold checkPrerequisite, checkPackageManager, checkTypeScriptConfig,
    checkAdminAccess.
  repeat match goal with
         | |- context [if ?b then _ else _] => destruct b
         end; reflexivity.
Qed.

(** X20: the validation of an action never rejects what the engine
    suggests.  Every action that [getRecoveryAction] returns, for an
    engine that holds rules of the built-in table and for every error
    signature, passes [validateRecoveryAction]: every prerequisite counts
    as met, the estimated time is not negative, the risk level is one of
    the three, and the confidence is within [0.1, 1.0] or NaN, neither of
    which is below 0 or above 1 for the two comparisons of the check. *)
Theorem validation_never_rejects_a_suggestion (e : RecoveryEngine)
    (sig : ErrorDetector.ErrorSignature) (a : RecoveryAction) :
  Forall Spec.builtinGenerator (recoveryRules e) ->
  getRecoveryAction e sig = Some a ->
  validateRecoveryAction a = true.
Proof.
  intros Hrules Ha.
  destruct (suggested_action e sig a Hrules Ha) as (_ & Htime & Hconf).
  unfold validateRecoveryAction.
  assert (match prerequisites a with
          | Some ps => prerequisitesMet ps
          | None => true
          end = true) as ->
    by (destruct (prerequisites a); [apply prerequisites_always_met | reflexivity]).
  cbn [negb]. unfold validateActionParameters.
  assert (PrimFloat.ltb (confidence a) 0%float = false
          /\ PrimFloat.ltb 1%float (confidence a) = false) as [-> ->].
  { destruct Hconf as [[Hlow Hhigh] | ->]; [ | split; reflexivity].
    split; [ | exact (FloatFacts.leb_not_gt _ _ Hhigh)].
    destruct (PrimFloat.ltb (confidence a) 0%float) eqn:E; [ | reflexivity].
    assert (PrimFloat.ltb (confidence a) 0.1%float = true) as Hlt
      by (apply FloatFacts.ltb_trans with 0%float; [exact E | reflexivity]).
    now rewrite (FloatFacts.leb_not_gt _ _ Hlow) in Hlt. }
  cbn [orb].
  assert ((estimatedTime a <? 0)%Z = false) as -> by lia.
  now destruct (riskLevel a).
Qed.

(** A confidence that is NaN passes as well: the engine after
    [initialize], asked about a missing module by a signature whose
    framework is [constructor]. *)
Example validation_accepts_nan :
  exists a,
    getRecoveryAction (initialize new)
      (Spec.sampleSignature "Cannot find module 'left-pad'"
         ErrorDetector.high (Some "constructor"))
    = Some a
    /\ PrimFloat.is_nan (confidence a) = true
    /\ validateRecoveryAction a = true.
Proof. eexists. repeat split; vm_compute; reflexivity. Qed.

(** The engine after [initialize], asked about an undefined environment
    variable. *)
Lemma validation_never_rejects_a_suggestion_witness :
  validateRecoveryAction
    (Spec.actionFor
       (Spec.sampleSignature "'API_KEY' is not defined" ErrorDetector.medium
          None))
  = true.
Proof.
  apply (validation_never_rejects_a_suggestion
           (initialize new)
           (Spec.sampleSignature "'API_KEY' is not defined"
              ErrorDetector.medium None)).
  - apply List.Forall_forall. intros rule Hin.
    exact (in_map actionGenerator _ _ Hin).
  - vm_compute. reflexivity.
Defined.

End SuggestionFacts.

(* ------------------------------------------------------------------ *)
(** * The Deployment Workflow: recovery and the other phases *)
(* ------------------------------------------------------------------ *)

Module PhaseFacts.
Import JS DeploymentWorkflow.

(** X21: what the workflow can execute of what the engine suggests.  The
    engine with its built-in rules suggests twelve kinds of action, and
    [executeRecoveryAction] has a case for one of them only,
    [install_dependency]: its cases [clear_cache] and [retry_with_clean]
    are never suggested.  For every other suggestion, whatever its
    confidence, [executeRecoveryAction] returns without running a
    command, emitting an event or changing anything. *)
Theorem only_install_dependency_is_executed
    (e : RecoveryEngine.RecoveryEngine) (sig : ErrorDetector.ErrorSignature)
    (a : RecoveryEngine.RecoveryAction) (taskId : string)
    (w : DeploymentWorkflow) (task : Task.t) (project : Project.t) :
  Forall Spec.builtinGenerator (RecoveryEngine.recoveryRules e) ->
  RecoveryEngine.getRecoveryAction e sig = Some a ->
  In (RecoveryEngine.action a) Notions.builtinActions
  /\ RecoveryEngine.action a <> "clear_cache"
  /\ RecoveryEngine.action a <> "retry_with_clean"
  /\ (RecoveryEngine.action a <> "install_dependency" ->
      activeTasks w !! taskId = Some task ->
      getProject (Task.projectId task) w = (Done (Some project), w) ->
      executeRecoveryAction taskId a w = (Done tt, w)).
Proof.
  intros Hrules Ha.
  destruct (SuggestionFacts.suggested_action e sig a Hrules Ha) as [Hin _].
  split; [exact Hin | ].
  assert (RecoveryEngine.action a <> "clear_cache"
          /\ RecoveryEngine.action a <> "retry_with_clean") as [Hc Hr].
  { unfold Notions.builtinActions in Hin. cbn [In] in Hin.
    repeat (destruct Hin as [<- | Hin]; [split; discriminate | ]).
    destruct Hin. }
  split; [exact Hc | ]. split; [exact Hr | ].
  intros Hi Htask Hproject. unfold executeRecoveryAction.
  unfold bind at 1. unfold getActive at 1. rewrite Htask.
  unfold bind at 1. rewrite Hproject.
  apply String.eqb_neq in Hi, Hc, Hr. now rewrite Hi, Hc, Hr.
Qed.

(** The peer dependency that the engine suggests to install: nothing is
    installed. *)
Lemma only_install_dependency_is_executed_witness :
  let sig :=
    Spec.sampleSignature "requires a peer of react@18" ErrorDetector.medium
      None in
  let a := Spec.actionFor sig in
  In (RecoveryEngine.action a) Notions.builtinActions
  /\ RecoveryEngine.action a <> "clear_cache"
  /\ RecoveryEngine.action a <> "retry_with_clean"
  /\ (RecoveryEngine.action a <> "install_dependency" ->
      activeTasks (Spec.startedWorkflow []) !! "task_1"
      = Some (Task.mk "task_1" "project_1" "deploy" "vercel" pending 0
                EmptyString None None None 1000 1000) ->
      getProject "project_1" (Spec.startedWorkflow [])
      = (Done (Some (Project.mk "project_1" "demo" "/srv/demo")),
         Spec.startedWorkflow []) ->
      executeRecoveryAction "task_1" a (Spec.startedWorkflow [])
      = (Done tt, Spec.startedWorkflow [])).
Proof.
  cbv zeta.
  apply (only_install_dependency_is_executed
           (RecoveryEngine.initialize RecoveryEngine.new)
           (Spec.sampleSignature "requires a peer of react@18"
              ErrorDetector.medium None)
           (Spec.actionFor
              (Spec.sampleSignature "requires a peer of react@18"
                 ErrorDetector.medium None))
           "task_1" (Spec.startedWorkflow [])
           (Task.mk "task_1" "project_1" "deploy" "vercel" pending 0
              EmptyString None None None 1000 1000)
           (Project.mk "project_1" "demo" "/srv/demo")).
  - apply List.Forall_forall. intros rule Hin.
    exact (in_map RecoveryEngine.actionGenerator _ _ Hin).
  - vm_compute. reflexivity.
Defined.

(** ** The recovery analysis after a failed run *)

Section WithHash.
Variable sha256_hex : string -> string.

(** X22: the recovery analysis after a failed run only suggests.
    [attemptRecovery] always returns, whatever the message of the error,
    and never throws; it runs no command and leaves the record store,
    the active tasks and the clock as they are.  It emits at most one
    event, [task:recovery], and it does so exactly when the classifier
    gives the message a signature and the engine an action whose
    confidence is not below 0.5. *)
Theorem attemptRecovery_only_suggests (taskId message : string)
    (w : DeploymentWorkflow) :
  let w' := snd (attemptRecovery sha256_hex taskId message w) in
  fst (attemptRecovery sha256_hex taskId message w) = Done tt
  /\ database w' = database w /\ commandRunner w' = commandRunner w
  /\ activeTasks w' = activeTasks w /\ clock w' = clock w
  /\ children w' = children w
  /\ ((events w' = events w
       /\ forall sig a,
            ErrorDetector.detectError sha256_hex (errorDetector w) message
              EmptyString = Some sig ->
            RecoveryEngine.getRecoveryAction (recoveryEngine w) sig = Some a ->
            PrimFloat.ltb (RecoveryEngine.confidence a) 0.5%float = true)
      \/ exists sig a,
           ErrorDetector.detectError sha256_hex (errorDetector w) message
             EmptyString = Some sig
           /\ RecoveryEngine.getRecoveryAction (recoveryEngine w) sig = Some a
           /\ PrimFloat.ltb (RecoveryEngine.confidence a) 0.5%float = false
           /\ events w' = events w ++ [task_recovery taskId sig a]).
Proof.
  unfold attemptRecovery, tryCatch, bind, detectError, getRecoveryAction.
  destruct (ErrorDetector.detectError _ _ _ _) as [sig | ]; cbn [ret fst snd].
  - destruct (RecoveryEngine.getRecoveryAction _ sig) as [a | ] eqn:Ha;
      cbn [ret fst snd].
    + destruct (PrimFloat.ltb (RecoveryEngine.confidence a) 0.5%float) eqn:E;
        cbn [ret emit fst snd database commandRunner activeTasks clock children
             events].
      * repeat split. left. split; [reflexivity | ].
        intros sig' a' [= <-] Ha'. rewrite Ha in Ha'.
        injection Ha' as <-. exact E.
      * repeat split. right. exists sig, a. repeat split; assumption.
    + repeat split. left. split; [reflexivity | ].
      intros sig' a' [= <-] Ha'. congruence.
  - repeat split. left. split; [reflexivity | ]. intros; discriminate.
Qed.

End WithHash.

(** ** A build that keeps failing *)

Lemma execute_closes (command : string) (args : list string) (cwd : string)
    (options : CommandRunner.CommandOptions) (w : DeploymentWorkflow)
    (t : CommandRunner.Trace) (rest : list CommandRunner.Trace)
    (code : option Z) (out err : string) :
  children w = t :: rest ->
  Notions.closesWith t code out err ->
  exists result w',
    execute command args cwd options w = (Done result, w')
    /\ CommandRunner.success result = CommandRunner.isZero code
    /\ CommandRunner.stdout result = out
    /\ CommandRunner.stderr result = err
    /\ database w' = database w /\ errorDetector w' = errorDetector w
    /\ recoveryEngine w' = recoveryEngine w /\ activeTasks w' = activeTasks w
    /\ events w' = events w /\ children w' = rest
    /\ CommandRunner.processCounter (commandRunner w')
       = (CommandRunner.processCounter (commandRunner w) + 1)%N.
Proof.
  intros Hc (pre & at_ & signal & post & -> & Hq & <- & <-).
  unfold execute. rewrite Hc. cbn [hd tl].
  rewrite RunnerFacts.execute_with_child_let
    by (right; apply RunnerFacts.trace_not_nil).
  destruct (CommandRunner.spawn (commandRunner w) command args (clock w))
    as [r1 run1] eqn:Hs.
  assert (CommandRunner.promise run1 = CommandRunner.Pending
          /\ CommandRunner.stdout_ run1 = EmptyString
          /\ CommandRunner.stderr_ run1 = EmptyString
          /\ CommandRunner.processCounter r1
             = (CommandRunner.processCounter (commandRunner w) + 1)%N)
    as (Hp & Ho & He & Hn).
  { unfold CommandRunner.spawn in Hs. injection Hs as <- <-. now cbn. }
  rewrite RunnerFacts.deliver_app.
  destruct (RunnerFacts.deliver_quiet pre r1 run1 Hq) as (r2 & Hd & _ & _).
  pose proof (RegistryFacts.deliver_keeps pre r1 run1) as (_ & _ & Hn2 & _).
  rewrite Hd in Hn2 |- *. cbn [fst] in Hn2.
  cbn [CommandRunner.deliver CommandRunner.handle].
  destruct (CommandRunner.onClose at_ code signal r2 _) as [r3 run3] eqn:Hclose.
  unfold CommandRunner.onClose in Hclose. injection Hclose as Hr3 Hrun3.
  pose proof (RunnerFacts.deliver_settled post r3 run3) as Hsettled.
  pose proof (RegistryFacts.deliver_keeps post r3 run3) as (_ & _ & Hn3 & _).
  destruct (CommandRunner.deliver post r3 run3) as [r4 run4].
  cbn [fst snd] in Hsettled, Hn3.
  rewrite <- Hrun3 in Hsettled. cbn [CommandRunner.promise] in Hsettled.
  rewrite Hp, Ho, He in Hsettled.
  cbn [CommandRunner.resolve] in Hsettled.
  rewrite Hsettled by discriminate.
  eexists. eexists. split; [reflexivity | ].
  cbn. rewrite Hn3, <- Hr3. cbn. rewrite Hn2, Hn.
  repeat split.
Qed.

Lemma parseMetadata_anywhere (JSON_parse : string -> option Metadata)
    (logs : string) (metadata : Metadata) (w w' : DeploymentWorkflow) :
  parseMetadata JSON_parse logs w = (Done metadata, w) ->
  parseMetadata JSON_parse logs w' = (Done metadata, w').
Proof.
  unfold parseMetadata. destruct (String.eqb _ _).
  - unfold ret. now intros [= <-].
  - destruct (JSON_parse _); unfold ret, throw; [now intros [= <-] | discriminate].
Qed.

Section KeepsFailing.
Variable sha256_hex : string -> string.
Variable JSON_parse : string -> option Metadata.

(** X23: the retried build has no bound.  When a build command fails and
    the engine suggests, with a confidence above 0.9, an action that
    [executeRecoveryAction] has no case for (such as installing a peer
    dependency), the workflow announces the recovery, executes nothing
    and enters the building phase again.  So for every [n]: if the build
    command fails that way [n] times in a row, then the phase has spawned
    it [n] times, has left the record store as it was, and has not ended
    but is entered once more. *)
Theorem retried_build_has_no_bound (n : nat) (taskId : string)
    (options : DeploymentOptions) (project : Project.t) (task : Task.t)
    (metadata : Metadata) (failing rest : list CommandRunner.Trace)
    (w : DeploymentWorkflow) :
  DatabaseService.getProject (projectId options) (database w)
  = inr (Some project) ->
  DatabaseService.getProject (Task.projectId task) (database w)
  = inr (Some project) ->
  activeTasks w !! taskId = Some task ->
  parseMetadata JSON_parse (Task.logs task) w = (Done metadata, w) ->
  children w = failing ++ rest ->
  length failing = n ->
  Forall (Notions.failsWithoutRemedy sha256_hex (errorDetector w)
            (recoveryEngine w)) failing ->
  exists w',
    buildProject sha256_hex JSON_parse n taskId options w = (OutOfFuel, w')
    /\ children w' = rest
    /\ CommandRunner.processCounter (commandRunner w')
       = (CommandRunner.processCounter (commandRunner w) + N.of_nat n)%N
    /\ database w' = database w
    /\ activeTasks w' = activeTasks w
    /\ length (events w') = (length (events w) + 2 * n)%nat.
Proof.
  revert failing w.
  induction n as [ | n IH]; intros failing w Hproject Hproject' Htask Hmeta
    Hchildren Hlen Hfail.
  - destruct failing; [ | discriminate]. exists w. cbn [buildProject].
    rewrite N.add_0_r, Nat.add_0_r. now repeat split.
  - destruct failing as [ | t failing]; [discriminate | ].
    injection Hlen as Hlen. apply Forall_cons_1 in Hfail as [Ht Hfail].
    destruct Ht as (code & out & err & sig & a & Hcloses & Hcode & Hsig & Ha
                    & Hc & Hno).
    set (buildCommand := buildCommandOf options metadata).
    set (w0 := snd (emit (task_log taskId ("Building project: " +:+ buildCommand))
                      w)).
    destruct (execute_closes (nth 0 (split " " buildCommand) EmptyString)
                (tl (split " " buildCommand)) (Project.path project)
                (buildEnv options) w0 t (failing ++ rest) code out err
                Hchildren Hcloses)
      as (result & w1 & Hrun & Hsuccess & Hout & Herr & Hdb & Hdet & Heng
          & Hact & Hev & Hch & Hcount).
    set (w2 := snd (emit (task_recovery taskId sig a) w1)).
    destruct (IH failing w2) as (w' & Hbuild & Hch' & Hcount' & Hdb' & Hact'
                                 & Hev'); try assumption.
    + cbn. now rewrite Hdb.
    + cbn. now rewrite Hdb.
    + cbn. now rewrite Hact.
    + now apply parseMetadata_anywhere with w.
    + cbn. now rewrite Hdet, Heng.
    + exists w'.
      split; [ | split; [exact Hch' | split; [ | split; [ | split]]]].
      * rewrite <- Hbuild. cbn [buildProject].
        unfold bind at 1. unfold getProject at 1. rewrite Hproject.
        unfold bind at 1. unfold getActive at 1. rewrite Htask.
        unfold bind at 1. rewrite Hmeta. fold buildCommand.
        unfold bind at 1.
        change (emit (task_log taskId ("Building project: " +:+ buildCommand)) w)
          with (Done tt, w0).
        cbv beta iota.
        unfold bind at 1. rewrite Hrun, Hsuccess, Hcode. cbn [negb].
        unfold bind at 1. unfold detectError at 1.
        replace (errorDetector w1) with (errorDetector w)
          by (now rewrite Hdet).
        rewrite Herr, Hout, Hsig.
        unfold bind at 1. unfold getRecoveryAction at 1.
        replace (recoveryEngine w1) with (recoveryEngine w)
          by (now rewrite Heng).
        rewrite Ha.
        rewrite (FloatFacts.ltb_trans 0.7%float 0.9%float _ eq_refl Hc), Hc.
        unfold bind at 1.
        change (emit (task_recovery taskId sig a) w1) with (Done tt, w2).
        cbv beta iota.
        unfold bind at 1. unfold executeRecoveryAction.
        unfold bind at 1. unfold getActive at 1.
        replace (activeTasks w2 !! taskId) with (Some task)
          by (cbn; now rewrite Hact).
        unfold bind at 1. unfold getProject at 1.
        replace (DatabaseService.getProject (Task.projectId task) (database w2))
          with (inr (B := option Project.t) (A := string) (Some project))
          by (cbn; now rewrite Hdb).
        unfold Notions.executedActions in Hno. cbn [In] in Hno.
        destruct (String.eqb_spec (RecoveryEngine.action a) "install_dependency")
          as [e | _]; [exfalso; apply Hno; rewrite e; tauto | ].
        destruct (String.eqb_spec (RecoveryEngine.action a) "clear_cache")
          as [e | _]; [exfalso; apply Hno; rewrite e; tauto | ].
        destruct (String.eqb_spec (RecoveryEngine.action a) "retry_with_clean")
          as [e | _]; [exfalso; apply Hno; rewrite e; tauto | ].
        reflexivity.
      * rewrite Hcount'. cbn. rewrite Hcount. cbn. lia.
      * rewrite Hdb'. cbn. now rewrite Hdb.
      * rewrite Hact'. cbn. now rewrite Hact.
      * rewrite Hev'. cbn. rewrite Hev. cbn. rewrite !length_app. cbn. lia.
Qed.

End KeepsFailing.

(** Two builds in a row that complain of a peer dependency: the phase
    asks for a third. *)
Lemma retried_build_has_no_bound_witness :
  exists w',
    buildProject (fun s => s) (fun _ => None) 2 "task_1" Spec.sampleOptions
      (Spec.startedWorkflow
         [Notions.peerComplaint 1000; Notions.peerComplaint 1020])
    = (OutOfFuel, w')
    /\ children w' = []
    /\ CommandRunner.processCounter (commandRunner w')
       = (CommandRunner.processCounter
            (commandRunner
               (Spec.startedWorkflow
                  [Notions.peerComplaint 1000; Notions.peerComplaint 1020]))
          + N.of_nat 2)%N
    /\ database w'
       = database
           (Spec.startedWorkflow
              [Notions.peerComplaint 1000; Notions.peerComplaint 1020])
    /\ activeTasks w'
       = activeTasks
           (Spec.startedWorkflow
              [Notions.peerComplaint 1000; Notions.peerComplaint 1020])
    /\ length (events w')
       = (length
            (events
               (Spec.startedWorkflow
                  [Notions.peerComplaint 1000; Notions.peerComplaint 1020]))
          + 2 * 2)%nat.
Proof.
  apply (retried_build_has_no_bound (fun s => s) (fun _ => None) 2 "task_1"
           Spec.sampleOptions (Project.mk "project_1" "demo" "/srv/demo")
           (Task.mk "task_1" "project_1" "deploy" "vercel" pending 0
              EmptyString None None None 1000 1000)
           (mkMetadata None None)
           [Notions.peerComplaint 1000; Notions.peerComplaint 1020] []).
  - reflexivity.
  - reflexivity.
  - reflexivity.
  - reflexivity.
  - reflexivity.
  - reflexivity.
  - assert (forall start,
             Notions.failsWithoutRemedy (fun s => s)
               (ErrorDetector.initialize ErrorDetector.new)
               (RecoveryEngine.initialize RecoveryEngine.new)
               (Notions.peerComplaint start)) as Hone.
    { intros start.
      exists (Some 1%Z), EmptyString,
        "npm ERR! requires a peer of react@18.2.0".
      eexists. eexists.
      split.
      { exists [((start + 10)%Z,
                 CommandRunner.stderr_data
                   "npm ERR! requires a peer of react@18.2.0")],
          (start + 20)%Z, None, [].
        repeat split. }
      split; [reflexivity | ].
      split; [vm_compute; reflexivity | ].
      split; [vm_compute; reflexivity | ].
      split; [vm_compute; reflexivity | ].
      cbn. intros [H | [H | [H | []]]]; discriminate. }
    repeat constructor; apply Hone.
Defined.

(** ** What the detecting phase stores *)


Lemma execute_events (command : string) (args : list string) (cwd : string)
    (options : CommandRunner.CommandOptions) (w : DeploymentWorkflow) :
  events (snd (execute command args cwd options w)) = events w.
Proof.
  unfold execute.
  destruct (CommandRunner.execute _ _ _ _ _ _ _) as [runner p].
  now destruct p.
Qed.

Lemma updateTaskStatus_events (taskId : string) (status : TaskState)
    (progress : option Z) (error : option string) (phase : option TaskPhase)
    (w : DeploymentWorkflow) :
  exists rest,
    events (snd (updateTaskStatus taskId status progress error phase w))
    = events w ++ rest
    /\ (fst (updateTaskStatus taskId status progress error phase w) = Done tt
        \/ exists e,
             fst (updateTaskStatus taskId status progress error phase w)
             = Throw e).
Proof.
  unfold updateTaskStatus, bind, updateTask, DatabaseService.updateTask.
  destruct (DatabaseService.connected (database w)); [destruct phase | ]; cbn.
  - exists []. rewrite app_nil_r. split; [reflexivity | right; eauto].
  - eexists. split; [reflexivity | now left].
  - exists []. rewrite app_nil_r. split; [reflexivity | right; eauto].
Qed.

Section Detected.
Variable pluginManager : PluginManager.PluginManager.
Variable JSON_parse : string -> option Metadata.
Variable parsePackageManager : string -> string + option string.
Variable stringifyMetadata :
  PluginManager.ProjectConfig -> option string -> option string -> string.


End Detected.


End PhaseFacts.

(* ------------------------------------------------------------------ *)
(** * The Platform Adapter Registry *)
(* ------------------------------------------------------------------ *)

Module PluginFacts.
Import JS PluginManager.

(** ** The registry *)

Lemma get_set_eq {V : Type} (k : string) (v : V) (mp : OrderedMap.t V) :
  OrderedMap.get k (OrderedMap.set k v mp) = Some v.
Proof.
  induction mp as [ | [k' v'] mp IH]; cbn.
  - now rewrite String.eqb_refl.
  - destruct (String.eqb k k') eqn:E; cbn; rewrite ?String.eqb_refl, ?E;
      [reflexivity | exact IH].
Qed.

Lemma get_set_ne {V : Type} (k k0 : string) (v : V) (mp : OrderedMap.t V) :
  k0 <> k ->
  OrderedMap.get k0 (OrderedMap.set k v mp) = OrderedMap.get k0 mp.
Proof.
  intros Hne. apply String.eqb_neq in Hne.
  induction mp as [ | [k' v'] mp IH]; cbn.
  - now rewrite Hne.
  - destruct (String.eqb k k') eqn:E; cbn.
    + apply String.eqb_eq in E. subst k'. now rewrite Hne.
    + now rewrite IH.
Qed.

Lemma keys_set {V : Type} (k : string) (v : V) (mp : OrderedMap.t V) :
  OrderedMap.keys (OrderedMap.set k v mp)
  = match OrderedMap.get k mp with
    | Some _ => OrderedMap.keys mp
    | None => OrderedMap.keys mp ++ [k]
    end.
Proof.
  unfold OrderedMap.keys.
  induction mp as [ | [k' v'] mp IH]; cbn; [reflexivity | ].
  destruct (String.eqb k k') eqn:E; cbn.
  - apply String.eqb_eq in E. now subst k'.
  - rewrite IH. now destruct (OrderedMap.get k mp).
Qed.

(** X25: registering an adapter.  After [registerPlugin], the adapter is
    the one [getPlugin] finds for its platform, and what is found for
    every other platform is as before.  An adapter for a platform that
    has one already replaces it, in its place in
    [getSupportedPlatforms]; an adapter for a new platform is listed
    last. *)
Theorem registered_plugin_is_found (plugin : Plugin) (pm : PluginManager) :
  getPlugin (platform plugin) (registerPlugin plugin pm) = Some plugin
  /\ (forall other, other <> platform plugin ->
        getPlugin other (registerPlugin plugin pm) = getPlugin other pm)
  /\ getSupportedPlatforms (registerPlugin plugin pm)
     = match getPlugin (platform plugin) pm with
       | Some _ => getSupportedPlatforms pm
       | None => getSupportedPlatforms pm ++ [platform plugin]
       end
  /\ length (getAllPlugins (registerPlugin plugin pm))
     = length (getSupportedPlatforms (registerPlugin plugin pm)).
Proof.
  unfold getPlugin, registerPlugin, getSupportedPlatforms, getAllPlugins.
  cbn [plugins].
  split; [apply get_set_eq | ].
  split; [intros other Hne; now apply get_set_ne | ].
  split; [apply keys_set | ].
  unfold OrderedMap.values, OrderedMap.keys. now rewrite !length_map.
Qed.

(** ** Validating a project *)

(** X26: when a project is valid for a platform.  [validateProject]
    answers [valid] exactly when the registry has an adapter for the
    platform and that adapter detects a configuration with a build
    command and an output directory; and exactly when it lists no issue.
    It lists at most two issues. *)
Theorem validateProject_valid (projectPath platform : string)
    (pm : PluginManager) :
  let v := validateProject projectPath platform pm in
  (valid v = true <-> issues v = [])
  /\ (valid v = true <->
      exists plugin config,
        getPlugin platform pm = Some plugin
        /\ detectProject plugin projectPath = Returns (Some config)
        /\ truthyOpt (buildCommand config) = true
        /\ truthyOpt (outputDir config) = true)
  /\ (length (issues v) <= 2)%nat.
Proof.
  unfold validateProject.
  destruct (getPlugin platform pm) as [plugin | ]; cbn zeta.
  - destruct (detectProject plugin projectPath) as [[config | ] | message]
      eqn:Hdetect.
    + destruct (truthyOpt (buildCommand config)) eqn:Hb,
        (truthyOpt (outputDir config)) eqn:Ho; cbn.
      * split; [tauto | ]. split; [ | lia].
        split; [intros _; now exists plugin, config | reflexivity].
      * split; [split; discriminate | ]. split; [ | lia].
        split; [discriminate | ].
        intros (p & c & [= <-] & Hc & _ & H). rewrite Hdetect in Hc.
        injection Hc as <-. congruence.
      * split; [split; discriminate | ]. split; [ | lia].
        split; [discriminate | ].
        intros (p & c & [= <-] & Hc & H & _). rewrite Hdetect in Hc.
        injection Hc as <-. congruence.
      * split; [split; discriminate | ]. split; [ | lia].
        split; [discriminate | ].
        intros (p & c & [= <-] & Hc & H & _). rewrite Hdetect in Hc.
        injection Hc as <-. congruence.
    + cbn. split; [split; discriminate | ]. split; [ | lia].
      split; [discriminate | ].
      intros (p & c & [= <-] & Hc & _). congruence.
    + cbn. split; [split; discriminate | ]. split; [ | lia].
      split; [discriminate | ].
      intros (p & c & [= <-] & Hc & _). congruence.
  - cbn. split; [split; discriminate | ]. split; [ | lia].
    split; [discriminate | ]. intros (p & c & Hp & _). discriminate.
Qed.

(** ** Ranking the platforms *)

Lemma detectionConfidence_level (config : ProjectConfig) :
  In (detectionConfidence config) Notions.confidenceLevels.
Proof.
  unfold detectionConfidence.
  destruct (truthyOpt (framework config)), (truthyOpt (buildCommand config)),
    (truthyOpt (outputDir config)), (truthyOpt (packageManager config));
    vm_compute; tauto.
Qed.

Lemma level_range (c : float) :
  In c Notions.confidenceLevels ->
  PrimFloat.leb 0.5%float c = true /\ PrimFloat.ltb c 1.0%float = true.
Proof.
  unfold Notions.confidenceLevels. cbn [In]. intros H.
  repeat (destruct H as [<- | H]; [split; vm_compute; reflexivity | ]).
  destruct H.
Qed.

Lemma level_total (a b : float) :
  In a Notions.confidenceLevels -> In b Notions.confidenceLevels ->
  PrimFloat.ltb a b = false -> PrimFloat.leb b a = true.
Proof.
  unfold Notions.confidenceLevels. cbn [In]. intros Ha Hb.
  repeat (destruct Ha as [<- | Ha];
          [repeat (destruct Hb as [<- | Hb];
                   [vm_compute; intros H;
                    first [reflexivity | discriminate H] | ]);
           destruct Hb | ]).
  destruct Ha.
Qed.

Lemma level_trans (a b c : float) :
  In a Notions.confidenceLevels -> In b Notions.confidenceLevels ->
  In c Notions.confidenceLevels ->
  PrimFloat.leb a b = true -> PrimFloat.leb b c = true ->
  PrimFloat.leb a c = true.
Proof.
  unfold Notions.confidenceLevels. cbn [In]. intros Ha Hb Hc.
  repeat (destruct Ha as [<- | Ha];
          [repeat (destruct Hb as [<- | Hb];
                   [repeat (destruct Hc as [<- | Hc];
                            [vm_compute; intros H1 H2;
                             first [reflexivity | discriminate H1
                                   | discriminate H2] | ]);
                    destruct Hc | ]);
           destruct Hb | ]).
  destruct Ha.
Qed.

Lemma insertDetection_In (r d : Detection) (l : list Detection) :
  In d (insertDetection r l) <-> d = r \/ In d l.
Proof.
  induction l as [ | x l IH]; cbn.
  - intuition congruence.
  - destruct (PrimFloat.ltb (d_confidence x) (d_confidence r)); cbn;
      rewrite ?IH; intuition congruence.
Qed.

Lemma insertDetection_perm (r : Detection) (l : list Detection) :
  Permutation (insertDetection r l) (r :: l).
Proof.
  induction l as [ | x l IH]; cbn; [reflexivity | ].
  destruct (PrimFloat.ltb (d_confidence x) (d_confidence r)); [reflexivity | ].
  etransitivity; [apply perm_skip, IH | apply perm_swap].
Qed.

Lemma insertDetection_sorted (r : Detection) (l : list Detection) :
  Notions.leveled r -> Forall Notions.leveled l ->
  StronglySorted Notions.ranked l ->
  StronglySorted Notions.ranked (insertDetection r l).
Proof.
  intros Hr Hl Hs. induction l as [ | x l IH]; cbn.
  - constructor; constructor.
  - apply Forall_cons_1 in Hl as [Hx Hl].
    apply StronglySorted_inv in Hs as [Hs Hall].
    destruct (PrimFloat.ltb (d_confidence x) (d_confidence r)) eqn:E.
    + constructor; [constructor; assumption | ].
      constructor; [exact (FloatFacts.ltb_leb _ _ E) | ].
      rewrite List.Forall_forall in Hall, Hl |- *. intros y Hy.
      apply level_trans with (d_confidence x);
        [apply Hl, Hy | exact Hx | exact Hr | apply Hall, Hy
        | exact (FloatFacts.ltb_leb _ _ E)].
    + constructor; [apply IH; assumption | ].
      rewrite List.Forall_forall in Hall |- *. intros y Hy.
      apply insertDetection_In in Hy as [-> | Hy]; [ | apply Hall, Hy].
      apply level_total; assumption.
Qed.

Lemma sortDetections_from (results acc : list Detection) :
  Forall Notions.leveled acc -> Forall Notions.leveled results ->
  StronglySorted Notions.ranked acc ->
  StronglySorted Notions.ranked
    (fold_left (fun sorted r => insertDetection r sorted) results acc)
  /\ Permutation
       (fold_left (fun sorted r => insertDetection r sorted) results acc)
       (acc ++ results).
Proof.
  revert acc. induction results as [ | r results IH]; intros acc Ha Hr Hs; cbn.
  - rewrite app_nil_r. now split.
  - apply Forall_cons_1 in Hr as [Hr Hrs].
    destruct (IH (insertDetection r acc)) as [Hsorted Hperm].
    + rewrite List.Forall_forall in Ha |- *. intros d Hd.
      apply insertDetection_In in Hd as [-> | Hd]; [exact Hr | now apply Ha].
    + exact Hrs.
    + now apply insertDetection_sorted.
    + split; [exact Hsorted | ].
      etransitivity; [exact Hperm | ].
      etransitivity;
        [apply Permutation_app_tail, insertDetection_perm | ].
      cbn [app]. apply Permutation_middle.
Qed.

Lemma detectAll_spec (projectPath : string) (ps : OrderedMap.t Plugin)
    (d : Detection) :
  In d (detectAll projectPath ps) ->
  In (d_platform d) (OrderedMap.keys ps)
  /\ d_confidence d = detectionConfidence (d_config d)
  /\ exists plugin,
       In (d_platform d, plugin) ps
       /\ detectProject plugin projectPath = Returns (Some (d_config d)).
Proof.
  induction ps as [ | [platform plugin] ps IH]; cbn; [tauto | ].
  destruct (detectProject plugin projectPath) as [[config | ] | message]
    eqn:Hdetect; cbn.
  - intros [<- | Hin]; cbn.
    + split; [now left | ]. split; [reflexivity | ].
      exists plugin. split; [now left | exact Hdetect].
    + destruct (IH Hin) as (Hk & Hc & p & Hp & Hd).
      split; [now right | ]. split; [exact Hc | ]. exists p. auto.
  - intros Hin. destruct (IH Hin) as (Hk & Hc & p & Hp & Hd).
    split; [now right | ]. split; [exact Hc | ]. exists p. auto.
  - intros Hin. destruct (IH Hin) as (Hk & Hc & p & Hp & Hd).
    split; [now right | ]. split; [exact Hc | ]. exists p. auto.
Qed.

(** X27: the ranking of the platforms for a project.  What
    [detectProjectType] returns holds one entry for each adapter that
    detects a configuration, and none for an adapter that detects nothing
    or fails; the entries are in descending order of confidence.  The
    confidence of an entry is 0.5 with 0.2 added for a framework and 0.1
    for each of a build command, an output directory and a package
    manager; it is at least 0.5 and always below 1 (with everything
    detected the binary64 sum is 0.9999999999999999), so the cap at 1.0
    never applies. *)
Theorem detectProjectType_is_ranked (projectPath : string)
    (pm : PluginManager) :
  let results := detectProjectType projectPath pm in
  Permutation results (detectAll projectPath (plugins pm))
  /\ StronglySorted Notions.ranked results
  /\ Forall (fun d =>
               In (d_platform d) (getSupportedPlatforms pm)
               /\ (exists plugin,
                     In (d_platform d, plugin) (plugins pm)
                     /\ detectProject plugin projectPath
                        = Returns (Some (d_config d)))
               /\ d_confidence d = detectionConfidence (d_config d)
               /\ PrimFloat.leb 0.5%float (d_confidence d) = true
               /\ PrimFloat.ltb (d_confidence d) 1.0%float = true)
       results.
Proof.
  cbv zeta. unfold detectProjectType, sortDetections.
  assert (Forall Notions.leveled (detectAll projectPath (plugins pm)))
    as Hlevels.
  { apply List.Forall_forall. intros d Hd.
    destruct (detectAll_spec _ _ _ Hd) as (_ & Hc & _).
    unfold Notions.leveled. rewrite Hc. apply detectionConfidence_level. }
  destruct (sortDetections_from (detectAll projectPath (plugins pm)) []
              (List.Forall_nil _) Hlevels (SSorted_nil _)) as [Hsorted Hperm].
  cbn [app] in Hperm.
  split; [exact Hperm | ]. split; [exact Hsorted | ].
  apply List.Forall_forall. intros d Hd.
  apply (Permutation_in _ Hperm) in Hd.
  destruct (detectAll_spec _ _ _ Hd) as (Hk & Hc & Hp).
  split; [exact Hk | ]. split; [exact Hp | ]. split; [exact Hc | ].
  apply level_range. rewrite Hc. apply detectionConfidence_level.
Qed.

End PluginFacts.
